(** * SFTP batch uploader: the upload worker and its window

    A shallow embedding of [UploadWorker] (sftp_gui.py) and of the two
    handlers of [App] that talk to a running worker ([App._stop] and
    [App._ask_continue]), followed by the properties of a run.  Then the
    handlers of [App] that work on the window: polling the queues, the
    list of files, the presets and the start of a run.

    The worker thread only ever writes to [log_q] and [confirm_q]; what it
    puts there is returned as the chronological list of its puts.  The
    stop flag and [reply_q] are shared with the GUI thread: they live in
    the worker's state, and the GUI's requests are delivered to it between
    the worker's interactions with the outside world. *)

From Stdlib Require Import List String ZArith Lia Bool Ascii DecimalString Sorted.
Import ListNotations.
Open Scope string_scope.
Open Scope Z_scope.
Open Scope list_scope.

(** ** Messages *)

(** The text of a [("log", msg)] item.  One constructor per f-string of
    [run], carrying the values formatted into it. *)
Inductive Msg : Type :=
| Msg_scheduled (start_delay_min : Z)
    (* "⏳ Upload scheduled to start at {eta} ({start_delay_min} min). ..." *)
| Msg_stopped_initial_delay          (* "⛔ Stopped during initial delay." *)
| Msg_connecting (host port : string) (* "Connecting to {host}:{port} …" *)
| Msg_connected (home : string)      (* "Connected ✓  (remote home: {home})" *)
| Msg_connection_failed (exc : string) (* "❌ Connection failed: {exc}" *)
| Msg_stopped_by_user                (* "⛔ Stopped by user." *)
| Msg_skip (idx total : Z) (fname : string)
    (* "[{idx:02d}/{total}] ⚠ SKIP (not found): {fname}" *)
| Msg_connection_lost                (* "   🔄 Connection lost — reconnecting …" *)
| Msg_reconnected                    (* "   🔄 Reconnected ✓" *)
| Msg_reconnect_failed (exc : string) (* "   ❌ Reconnect failed: {exc}" *)
| Msg_uploading (idx total : Z) (fname remote_path : string)
    (* "[{idx:02d}/{total}] Uploading {fname} → {remote_path} …" *)
| Msg_upload_done (idx total : Z)    (* "[{idx:02d}/{total}] ✓ done" *)
| Msg_upload_error (idx total : Z) (exc : string)
    (* "[{idx:02d}/{total}] ❌ Error: {exc}" *)
| Msg_test_batch_done (test_count : Z)
    (* "\n── Test batch done ({test_count} files) ──" *)
| Msg_stopped_after_test             (* "Stopped after test batch." *)
| Msg_continuing                     (* "Continuing …\n" *)
| Msg_reconnecting_after_delay.      (* "   🔄 Reconnecting after long delay …" *)

(** What the worker puts on its two outgoing queues, in the order of the
    puts: [("log", m)], [("timer", text)] and [("done", b)] go to [log_q],
    ["confirm"] goes to [confirm_q]. *)
Inductive Event : Type :=
| Log (m : Msg)
| Timer (text : string)
| Done (b : bool)
| Confirm.

Definition on_log_q (e : Event) : bool :=
  match e with Confirm => false | _ => true end.

Definition log_q (t : list Event) : list Event := filter on_log_q t.
Definition confirm_q (t : list Event) : list Event :=
  filter (fun e => negb (on_log_q e)) t.

(** ** Configuration and environment *)

(** [cfg], with the numeric entries already converted: [start_delay_min],
    [delay] and [test_n] are the values of [int(cfg[...])]. *)
Record Cfg : Type := {
  host : string;
  port : string;
  remote_dir : string;
  use_delay : bool;
  delay : Z;
  use_test : bool;
  test_n : Z;
  start_delay_min : Z
}.

(** Everything outside the worker thread.  The worker's calls into the
    outside world are numbered 0, 1, 2, ... in the order it makes them
    ([now] in the worker's state); each oracle is asked for what happens at
    that instant. *)
Record Env : Type := {
  (* how many times the Stop button handler [App._stop] runs while the
     worker is in its call number [n] (or since the previous one) *)
  stop_clicks : nat -> nat;
  (* the answer given to the dialog of [App._ask_continue] when the
     worker waits for it at instant [n]; [None]: it is never answered *)
  user_answer : nat -> option bool;
  (* [os.path.exists(fpath)] *)
  path_exists : nat -> string -> bool;
  (* [os.path.basename(fpath)] *)
  basename : string -> string;
  (* [self._connect()]: [None] when it returns, [Some exc] when it raises *)
  connect_raises : nat -> option string;
  (* [sftp.normalize(".")]: the remote home, or the exception raised *)
  normalize : nat -> string + string;
  (* [transport.is_active()] *)
  active : nat -> bool;
  (* [sftp.put(fpath, remote_path, confirm=False)] *)
  put_raises : nat -> string -> string -> option string
}.

(** ** The worker's state *)

Record State : Type := {
  _stop : bool;               (* self._stop, a threading.Event *)
  reply_q : list bool;        (* self.reply_q, oldest item first *)
  now : nat;                  (* number of calls made into the outside world *)
  slept : nat;                (* seconds spent in threading.Event().wait(1) *)
  transport : option nat;     (* the open session: the instant it was opened *)
  connects : nat;             (* number of calls of self._connect() *)
  closed : bool               (* the finally block has closed the session *)
}.

(** [UploadWorker.__init__]: a fresh flag; [App._start] makes fresh queues. *)
Definition init : State :=
  {| _stop := false; reply_q := []; now := 0%nat; slept := 0%nat;
     transport := None; connects := 0%nat; closed := false |}.

Definition set_stop (b : bool) (s : State) : State :=
  {| _stop := b; reply_q := reply_q s; now := now s; slept := slept s;
     transport := transport s; connects := connects s; closed := closed s |}.

Definition set_reply_q (q : list bool) (s : State) : State :=
  {| _stop := _stop s; reply_q := q; now := now s; slept := slept s;
     transport := transport s; connects := connects s; closed := closed s |}.

Definition set_now (n : nat) (s : State) : State :=
  {| _stop := _stop s; reply_q := reply_q s; now := n; slept := slept s;
     transport := transport s; connects := connects s; closed := closed s |}.

Definition set_slept (n : nat) (s : State) : State :=
  {| _stop := _stop s; reply_q := reply_q s; now := now s; slept := n;
     transport := transport s; connects := connects s; closed := closed s |}.

Definition set_session (h : nat) (s : State) : State :=
  {| _stop := _stop s; reply_q := reply_q s; now := now s; slept := slept s;
     transport := Some h; connects := connects s; closed := closed s |}.

Definition count_connect (s : State) : State :=
  {| _stop := _stop s; reply_q := reply_q s; now := now s; slept := slept s;
     transport := transport s; connects := S (connects s); closed := closed s |}.

Definition set_closed (s : State) : State :=
  {| _stop := _stop s; reply_q := reply_q s; now := now s; slept := slept s;
     transport := transport s; connects := connects s; closed := true |}.

(** ** The GUI thread's requests *)

(** [UploadWorker.stop]: [self._stop.set()]. *)
Definition stop (s : State) : State := set_stop true s.

(** [App._stop]: stop the worker, then [self._reply_q.put_nowait(False)] to
    unblock a pending confirmation wait (the queue is unbounded, the put
    never fails). *)
Definition App_stop (s : State) : State :=
  let s := stop s in
  set_reply_q (reply_q s ++ [false]) s.

(** [App._ask_continue]: [self._reply_q.put(answer)]. *)
Definition App_ask_continue (answer : bool) (s : State) : State :=
  set_reply_q (reply_q s ++ [answer]) s.

(** ** Control flow *)

(** How a run ends: the [return] or [break] statement of [run] that was
    taken (by its line), the loop running out of files, or the worker
    waiting for ever in [self.reply_q.get()]. *)
Inductive Exit : Type :=
| Return_initial_delay          (* line 89 *)
| Return_connect_failed         (* line 101 *)
| Break_stopped                 (* line 113 *)
| Break_reconnect_failed        (* line 129 *)
| Break_declined                (* line 145 *)
| Break_sleep                   (* line 151 *)
| Break_reconnect_after_delay   (* line 161 *)
| Loop_exhausted
| Blocked.

Inductive Res (A : Type) : Type :=
| Val (a : A) (s : State)
| Exc (e : Exit) (s : State).
Arguments Val {A} a s.
Arguments Exc {A} e s.

(** A piece of the worker's code: from a state, the events it puts on the
    queues and either a value or the exit it took. *)
Definition M (A : Type) : Type := State -> list Event * Res A.

Definition ret {A} (a : A) : M A := fun s => ([], Val a s).

Definition bind {A B} (c : M A) (k : A -> M B) : M B :=
  fun s =>
    match c s with
    | (t, Val a s1) => let (t', r) := k a s1 in (t ++ t', r)
    | (t, Exc e s1) => (t, Exc e s1)
    end.

Definition exit_with {A} (e : Exit) : M A := fun s => ([], Exc e s).

Definition emit (e : Event) : M unit := fun s => ([e], Val tt s).

Notation "x <- c ;; k" := (bind c (fun x => k))
  (at level 61, c at next level, right associativity).
Notation "c ;; k" := (bind c (fun _ => k))
  (at level 61, right associativity).

(** ** Text of the countdown label *)

Definition str (z : Z) : string := NilZero.string_of_int (Z.to_int z).

(** [f"{z:02d}"] *)
Definition fmt02d (z : Z) : string :=
  let s := str z in
  if (String.length s <? 2)%nat then ("0" ++ s)%string else s.

Definition truthy (s : string) : bool :=
  match s with EmptyString => false | _ => true end.

(** The label built in [_sleep]:
    [f"{timer_prefix}  {mins:02d}m {secs:02d}s{suffix}"]. *)
Definition countdown_text (timer_prefix : string) (remaining total : Z) : string :=
  let mins := remaining / 60 in
  let secs := remaining mod 60 in
  let suffix := if total =? 0 then EmptyString else ("  [" ++ str total ++ "]")%string in
  (timer_prefix ++ "  " ++ fmt02d mins ++ "m " ++ fmt02d secs ++ "s" ++ suffix)%string.

(** [str.rstrip("/")] *)
Fixpoint rstrip_slash (s : string) : string :=
  match s with
  | EmptyString => EmptyString
  | String c rest =>
      match rstrip_slash rest with
      | EmptyString => if Ascii.eqb c "/" then EmptyString else String c EmptyString
      | r => String c r
      end
  end.

Definition RECONNECT_THRESH : Z := 55.

Section Worker.

Variable cfg : Cfg.
Variable files : list string.
Variable env : Env.

(** *** Calls into the outside world *)

(** The state after the Stop requests made during call number [now s]
    have arrived. *)
Definition land (s : State) : State :=
  set_now (S (now s)) (Nat.iter (stop_clicks env (now s)) App_stop s).

(** One call into the outside world: the Stop requests made by now
    arrive, and the call gets its number. *)
Definition tick : M nat :=
  fun s => ([], Val (now s) (land s)).

(** [self._stop.is_set()] *)
Definition is_set : M bool :=
  _ <- tick ;; fun s => ([], Val (_stop s) s).

(** [threading.Event().wait(1)] *)
Definition wait1 : M unit :=
  _ <- tick ;; fun s => ([], Val tt (set_slept (S (slept s)) s)).

(** [os.path.exists(fpath)] *)
Definition os_path_exists (fpath : string) : M bool :=
  n <- tick ;; ret (path_exists env n fpath).

(** [transport.is_active()] *)
Definition is_active : M bool :=
  n <- tick ;; ret (active env n).

(** [self._connect()], with the assignment [transport, sftp = ...] of its
    callers: the result is the exception raised, if any. *)
Definition _connect : M (option string) :=
  n <- tick ;;
  fun s =>
    let s := count_connect s in
    match connect_raises env n with
    | Some exc => ([], Val (Some exc) s)
    | None => ([], Val None (set_session n s))
    end.

(** [sftp.normalize(".")] *)
Definition sftp_normalize : M (string + string) :=
  n <- tick ;; ret (normalize env n).

(** [sftp.put(fpath, remote_path, confirm=False)] *)
Definition sftp_put (fpath remote_path : string) : M (option string) :=
  n <- tick ;; ret (put_raises env n fpath remote_path).

(** [self.reply_q.get()]: the oldest reply if there is one; otherwise the
    worker waits until [App._poll] has taken the request off [confirm_q]
    and [App._ask_continue] has put the user's answer. *)
Definition reply_q_get : M bool :=
  n <- tick ;;
  fun s =>
    let s :=
      match reply_q s, user_answer env n with
      | [], Some answer => App_ask_continue answer s
      | _, _ => s
      end in
    match reply_q s with
    | answer :: q => ([], Val answer (set_reply_q q s))
    | [] => ([], Exc Blocked s)
    end.

(** [sftp.close()] and [transport.close()], exceptions ignored. *)
Definition close_session : M unit :=
  _ <- tick ;; _ <- tick ;; fun s => ([], Val tt (set_closed s)).

(** *** The worker's methods *)

Definition _log (msg : Msg) : M unit := emit (Log msg).

Definition _timer (text : string) : M unit := emit (Timer text).

(** The [for elapsed in range(seconds)] loop of [_sleep], [n] iterations
    from [elapsed]; [false] is the early [return False]. *)
Fixpoint sleep_loop (seconds : Z) (timer_prefix : string) (total : Z)
    (elapsed : Z) (n : nat) : M bool :=
  match n with
  | O => ret true
  | S n' =>
      stopped <- is_set ;;
      if stopped then ret false
      else
        (if truthy timer_prefix
         then _timer (countdown_text timer_prefix (seconds - elapsed) total)
         else ret tt) ;;
        wait1 ;;
        sleep_loop seconds timer_prefix total (elapsed + 1) n'
  end.

Definition _sleep (seconds : Z) (timer_prefix : string) (total : Z) : M bool :=
  completed <- sleep_loop seconds timer_prefix total 0 (Z.to_nat seconds) ;;
  if completed then
    (if truthy timer_prefix then _timer EmptyString else ret tt) ;;
    ret true
  else ret false.

(** Lines 81-90 of [run]: the initial delay. *)
Definition initial_delay : M unit :=
  let start_delay := start_delay_min cfg * 60 in
  if 0 <? start_delay then
    _log (Msg_scheduled (start_delay_min cfg)) ;;
    completed <- _sleep start_delay "⏳ Starting in" 0 ;;
    if negb completed then
      _log Msg_stopped_initial_delay ;;
      emit (Done false) ;;
      exit_with Return_initial_delay
    else _timer EmptyString
  else ret tt.

(** Lines 93-101 of [run]: connect. *)
Definition connect_failed (exc : string) : M unit :=
  _log (Msg_connection_failed exc) ;;
  emit (Done false) ;;
  exit_with Return_connect_failed.

Definition initial_connect : M unit :=
  _log (Msg_connecting (host cfg) (port cfg)) ;;
  raised <- _connect ;;
  match raised with
  | Some exc => connect_failed exc
  | None =>
      home <- sftp_normalize ;;
      match home with
      | inl exc => connect_failed exc
      | inr home => _log (Msg_connected home)
      end
  end.

Definition delay_ : Z := if use_delay cfg then delay cfg else 0.
Definition test_count : Z := if use_test cfg then test_n cfg else 0.
Definition total_ : Z := Z.of_nat (List.length files).

(** Lines 115-136: the upload of one file. *)
Definition upload (idx : Z) (fpath : string) : M unit :=
  let fname := basename env fpath in
  let remote_dir := rstrip_slash (remote_dir cfg) in
  let remote_path :=
    if truthy remote_dir then (remote_dir ++ "/" ++ fname)%string else fname in
  found <- os_path_exists fpath ;;
  if negb found then _log (Msg_skip idx total_ fname)
  else
    alive <- is_active ;;
    (if negb alive then
       _log Msg_connection_lost ;;
       raised <- _connect ;;
       match raised with
       | None => _log Msg_reconnected
       | Some exc =>
           _log (Msg_reconnect_failed exc) ;;
           exit_with Break_reconnect_failed
       end
     else ret tt) ;;
    _log (Msg_uploading idx total_ fname remote_path) ;;
    raised <- sftp_put fpath remote_path ;;
    match raised with
    | None => _log (Msg_upload_done idx total_)
    | Some exc => _log (Msg_upload_error idx total_ exc)
    end.

(** Lines 139-146: the test-batch pause. *)
Definition test_batch_pause (idx : Z) : M unit :=
  if negb (test_count =? 0) && (idx =? test_count) then
    _log (Msg_test_batch_done test_count) ;;
    emit Confirm ;;
    answer <- reply_q_get ;;
    if negb answer then
      _log Msg_stopped_after_test ;;
      exit_with Break_declined
    else _log Msg_continuing
  else ret tt.

(** Lines 154-161: the reconnect after a long delay. *)
Definition reconnect_after_delay : M unit :=
  if RECONNECT_THRESH <=? delay_ then
    alive <- is_active ;;
    if negb alive then
      _log Msg_reconnecting_after_delay ;;
      raised <- _connect ;;
      match raised with
      | None => _log Msg_reconnected
      | Some exc =>
          _log (Msg_reconnect_failed exc) ;;
          exit_with Break_reconnect_after_delay
      end
    else ret tt
  else ret tt.

(** Lines 149-161: the inter-file delay.  [and] evaluates the flag only
    when [delay] is not zero and [idx < total]. *)
Definition inter_file_delay (idx : Z) : M unit :=
  if negb (delay_ =? 0) && (idx <? total_) then
    stopped <- is_set ;;
    if negb stopped then
      completed <- _sleep delay_ "⏱  Next upload in" (idx + 1) ;;
      if negb completed then exit_with Break_sleep
      else
        _timer EmptyString ;;
        reconnect_after_delay
    else ret tt
  else ret tt.

(** One iteration of the [for] loop, lines 111-161. *)
Definition iteration (idx : Z) (fpath : string) : M unit :=
  stopped <- is_set ;;
  if stopped then
    _log Msg_stopped_by_user ;;
    exit_with Break_stopped
  else
    upload idx fpath ;;
    test_batch_pause idx ;;
    inter_file_delay idx.

(** [for idx, fpath in enumerate(files, 1)], from [idx] over [fs]. *)
Fixpoint for_files (idx : Z) (fs : list string) : M unit :=
  match fs with
  | [] => ret tt
  | fpath :: fs' => iteration idx fpath ;; for_files (idx + 1) fs'
  end.

(** The [finally] block. *)
Definition finally_ : M unit :=
  close_session ;; emit (Done true).

(** [run], once the entries of [cfg] are converted: the events put on the
    queues, how the run ended, and the state it ended in.  A [break]
    leaves the loop and runs the [finally] block; a worker blocked in
    [reply_q.get()] never gets there.  The conversions themselves, and
    the thread that ends when [int] raises, are in [run_raw] below. *)
Definition run (s : State) : list Event * (Exit * State) :=
  match (initial_delay ;; initial_connect) s with
  | (t, Exc e s1) => (t, (e, s1))
  | (t, Val _ s1) =>
      match for_files 1 files s1 with
      | (t1, Exc Blocked s2) => (t ++ t1, (Blocked, s2))
      | (t1, Exc e s2) =>
          match finally_ s2 with
          | (t2, Val _ s3) | (t2, Exc _ s3) => (t ++ t1 ++ t2, (e, s3))
          end
      | (t1, Val _ s2) =>
          match finally_ s2 with
          | (t2, Val _ s3) | (t2, Exc _ s3) => (t ++ t1 ++ t2, (Loop_exhausted, s3))
          end
      end
  end.

End Worker.

(** ** Reading a trace *)

Definition is_done (e : Event) : bool :=
  match e with Done _ => true | _ => false end.

Definition is_confirm (e : Event) : bool :=
  match e with Confirm => true | _ => false end.

Definition is_clear (e : Event) : bool :=
  match e with Timer EmptyString => true | _ => false end.

(** Number of events of a kind in a trace. *)
Definition count (p : Event -> bool) (t : list Event) : nat :=
  List.length (filter p t).

(** What the trace of a piece of code looks like when it leaves through
    exit [e], before any [finally] block: the message logged on the way
    out comes last, and [("done", False)] is put only by the two [return]
    statements. *)
Definition exit_trace (e : Exit) (t : list Event) : Prop :=
  match e with
  | Return_initial_delay =>
      exists t0, count is_done t0 = 0%nat /\
        t = t0 ++ [Log Msg_stopped_initial_delay; Done false]
  | Return_connect_failed =>
      exists t0 exc, count is_done t0 = 0%nat /\
        t = t0 ++ [Log (Msg_connection_failed exc); Done false]
  | Break_stopped =>
      exists t0, count is_done t0 = 0%nat /\ t = t0 ++ [Log Msg_stopped_by_user]
  | Break_reconnect_failed | Break_reconnect_after_delay =>
      exists t0 exc, count is_done t0 = 0%nat /\
        t = t0 ++ [Log (Msg_reconnect_failed exc)]
  | Break_declined =>
      exists t0, count is_done t0 = 0%nat /\ t = t0 ++ [Log Msg_stopped_after_test]
  | Break_sleep => count is_done t = 0%nat
  | Loop_exhausted => False
  | Blocked => exists t0, count is_done t0 = 0%nat /\ t = t0 ++ [Confirm]
  end.

(** A piece of code whose traces satisfy [V] when it returns and [X e]
    when it leaves through exit [e]. *)
Definition spec {A} (V : list Event -> Prop) (X : Exit -> list Event -> Prop)
    (c : M A) : Prop :=
  forall s,
    match c s with
    | (t, Val _ _) => V t
    | (t, Exc e _) => X e t
    end.

(** [V] and [X] go through sequencing. *)
Record Sequential (V : list Event -> Prop) (X : Exit -> list Event -> Prop) : Prop := {
  seq_nil : V [];
  seq_app : forall t1 t2, V t1 -> V t2 -> V (t1 ++ t2);
  seq_exit : forall e t1 t2, V t1 -> X e t2 -> X e (t1 ++ t2)
}.

(** A call into the outside world that puts nothing on the queues and
    always returns. *)
Definition quiet_call {A} (c : M A) : Prop :=
  forall s, exists a s', c s = ([], Val a s').

(** No [("done", _)] event. *)
Definition no_done (t : list Event) : Prop := count is_done t = 0%nat.

(** The messages logged before the loop, and those logged inside it
    without leaving it. *)
Definition init_msg (m : Msg) : bool :=
  match m with
  | Msg_scheduled _ | Msg_connecting _ _ | Msg_connected _ => true
  | _ => false
  end.

Definition loop_msg (m : Msg) : bool :=
  match m with
  | Msg_skip _ _ _ | Msg_connection_lost | Msg_reconnected
  | Msg_uploading _ _ _ _ | Msg_upload_done _ _ | Msg_upload_error _ _ _
  | Msg_reconnecting_after_delay => true
  | _ => false
  end.

(** What [V] and [X] have to accept for the code before the loop ... *)
Record Init_leaves (V : list Event -> Prop) (X : Exit -> list Event -> Prop) : Prop := {
  il_timer : forall text, V [Timer text];
  il_log : forall m, init_msg m = true -> V [Log m];
  il_return_delay :
    X Return_initial_delay [Log Msg_stopped_initial_delay; Done false];
  il_return_connect : forall exc,
    X Return_connect_failed [Log (Msg_connection_failed exc); Done false]
}.

(** ... for the loop body apart from the test-batch pause ... *)
Record Loop_leaves (V : list Event -> Prop) (X : Exit -> list Event -> Prop) : Prop := {
  ll_timer : forall text, V [Timer text];
  ll_log : forall m, loop_msg m = true -> V [Log m];
  ll_stopped : X Break_stopped [Log Msg_stopped_by_user];
  ll_reconnect : forall exc,
    X Break_reconnect_failed [Log (Msg_reconnect_failed exc)];
  ll_sleep : X Break_sleep [];
  ll_reconnect_delay : forall exc,
    X Break_reconnect_after_delay [Log (Msg_reconnect_failed exc)]
}.

(** ... and for the test-batch pause, where the worker can only block
    when some confirmation dialog is never answered. *)
Record Pause_leaves (env : Env) (V : list Event -> Prop)
    (X : Exit -> list Event -> Prop) : Prop := {
  pl_test_batch_done : forall n, V [Log (Msg_test_batch_done n)];
  pl_continue : V [Confirm; Log Msg_continuing];
  pl_declined : X Break_declined [Confirm; Log Msg_stopped_after_test];
  pl_blocked : (exists n, user_answer env n = None) -> X Blocked [Confirm]
}.

Definition is_return (e : Exit) : bool :=
  match e with
  | Return_initial_delay | Return_connect_failed => true
  | _ => false
  end.

Definition is_break (e : Exit) : bool :=
  match e with
  | Break_stopped | Break_reconnect_failed | Break_declined | Break_sleep
  | Break_reconnect_after_delay => true
  | _ => false
  end.

(** The whole trace of a run that ended through [e]: a [break] and the end
    of the loop are followed by the [("done", True)] of the [finally]
    block, and by nothing else. *)
Definition run_trace (e : Exit) (t : list Event) : Prop :=
  match e with
  | Return_initial_delay | Return_connect_failed | Blocked => exit_trace e t
  | Loop_exhausted => exists t0, no_done t0 /\ t = t0 ++ [Done true]
  | _ => exists t0, exit_trace e t0 /\ t = t0 ++ [Done true]
  end.

(** Events that only the loop over the files puts on the queues. *)
Definition per_file (e : Event) : bool :=
  match e with
  | Log m =>
      match m with
      | Msg_scheduled _ | Msg_stopped_initial_delay | Msg_connecting _ _
      | Msg_connected _ | Msg_connection_failed _ => false
      | _ => true
      end
  | Confirm => true
  | Timer _ | Done _ => false
  end.

(** ** Sample configurations and environments *)

(** Nothing goes wrong and nobody presses Stop; the dialog is answered
    with Yes. *)
Definition calm : Env :=
  {| stop_clicks := fun _ => 0%nat;
     user_answer := fun _ => Some true;
     path_exists := fun _ _ => true;
     basename := fun fpath => fpath;
     connect_raises := fun _ => None;
     normalize := fun _ => inr "/home/user";
     active := fun _ => true;
     put_raises := fun _ _ _ => None |}.

(** [env], with one more press of Stop during call number [n]. *)
Definition click_at (n : nat) (env : Env) : Env :=
  {| stop_clicks := fun k => if Nat.eqb k n then S (stop_clicks env k) else stop_clicks env k;
     user_answer := user_answer env;
     path_exists := path_exists env;
     basename := basename env;
     connect_raises := connect_raises env;
     normalize := normalize env;
     active := active env;
     put_raises := put_raises env |}.

(** [env], where the dialog is answered with [a] (or never). *)
Definition answering (a : option bool) (env : Env) : Env :=
  {| stop_clicks := stop_clicks env;
     user_answer := fun _ => a;
     path_exists := path_exists env;
     basename := basename env;
     connect_raises := connect_raises env;
     normalize := normalize env;
     active := active env;
     put_raises := put_raises env |}.

(** [env], where [_connect] raises from call number [n] on. *)
Definition offline_from (n : nat) (env : Env) : Env :=
  {| stop_clicks := stop_clicks env;
     user_answer := user_answer env;
     path_exists := path_exists env;
     basename := basename env;
     connect_raises := fun k => if Nat.leb n k then Some "timed out" else connect_raises env k;
     normalize := normalize env;
     active := fun k => if Nat.leb n k then false else active env k;
     put_raises := put_raises env |}.

(** [env], where the file [missing] does not exist and every upload of
    [broken] fails. *)
Definition faulty (missing broken : string) (env : Env) : Env :=
  {| stop_clicks := stop_clicks env;
     user_answer := user_answer env;
     path_exists := fun k fpath => if String.eqb fpath missing then false else path_exists env k fpath;
     basename := basename env;
     connect_raises := connect_raises env;
     normalize := normalize env;
     active := active env;
     put_raises := fun k fpath remote_path =>
       if String.eqb fpath broken then Some "Permission denied"
       else put_raises env k fpath remote_path |}.

(** No delays, no test batch. *)
Definition plain : Cfg :=
  {| host := "example.org"; port := "22"; remote_dir := "upload/";
     use_delay := false; delay := 90;
     use_test := false; test_n := 3;
     start_delay_min := 0 |}.

(** Two seconds between files and a pause after the second file. *)
Definition paced : Cfg :=
  {| host := "example.org"; port := "22"; remote_dir := "upload/";
     use_delay := true; delay := 2;
     use_test := true; test_n := 2;
     start_delay_min := 0 |}.

(** Start after one minute. *)
Definition scheduled : Cfg :=
  {| host := "example.org"; port := "22"; remote_dir := EmptyString;
     use_delay := false; delay := 90;
     use_test := false; test_n := 3;
     start_delay_min := 1 |}.

(** A minute between files: long enough for the reconnect check. *)
Definition slow : Cfg :=
  {| host := "example.org"; port := "22"; remote_dir := EmptyString;
     use_delay := true; delay := 60;
     use_test := false; test_n := 3;
     start_delay_min := 0 |}.

(** ** Stop requests and countdowns *)

(** Stop is pressed during one of the worker's calls number [a] to [b]. *)
Definition clicked (env : Env) (a b : nat) : Prop :=
  exists i, (a <= i <= b)%nat /\ stop_clicks env i <> 0%nat.

(** The labels of [j] consecutive seconds of a countdown of [seconds]
    seconds, from the second [elapsed]. *)
Fixpoint countdown (timer_prefix : string) (total seconds elapsed : Z) (j : nat)
    : list Event :=
  match j with
  | O => []
  | S j' =>
      Timer (countdown_text timer_prefix (seconds - elapsed) total)
        :: countdown timer_prefix total seconds (elapsed + 1) j'
  end.

(** ** One file *)

(** The remote path of a file, lines 115-116. *)
Definition remote_path_of (cfg : Cfg) (env : Env) (fpath : string) : string :=
  let fname := basename env fpath in
  let remote_dir := rstrip_slash (remote_dir cfg) in
  if truthy remote_dir then (remote_dir ++ "/" ++ fname)%string else fname.

(** The last log of an upload, lines 134 and 136. *)
Definition upload_outcome (files : list string) (idx : Z)
    (raised : option string) : Msg :=
  match raised with
  | None => Msg_upload_done idx (total_ files)
  | Some exc => Msg_upload_error idx (total_ files) exc
  end.

(** ** File by file *)

(** The index of the file an event starts the handling of: a skip or the
    start of an upload. *)
Definition attempt (e : Event) : list Z :=
  match e with
  | Log (Msg_skip idx _ _) | Log (Msg_uploading idx _ _ _) => [idx]
  | _ => []
  end.

Definition attempts (t : list Event) : list Z := flat_map attempt t.

(** The indices [enumerate(fs, idx)] gives to the files. *)
Fixpoint numbered (idx : Z) (fs : list string) : list Z :=
  match fs with
  | [] => []
  | _ :: fs' => idx :: numbered (idx + 1) fs'
  end.

(** An environment in which nothing ends a run early: nobody presses
    Stop, the dialog is answered with Yes, and connecting always works.
    Files may be missing and uploads may fail. *)
Definition undisturbed (env : Env) : Prop :=
  (forall n, stop_clicks env n = 0%nat) /\
  (forall n, user_answer env n = Some true) /\
  (forall n, connect_raises env n = None) /\
  (forall n, exists home, normalize env n = inr home).

(** The flag is down and no reply is waiting. *)
Definition at_rest (s : State) : Prop := _stop s = false /\ reply_q s = [].

(** ** Two runs side by side *)

(** Two environments that differ at most in the presses of Stop. *)
Definition same_world (envA envB : Env) : Prop :=
  (forall n, user_answer envB n = user_answer envA n) /\
  (forall n fpath, path_exists envB n fpath = path_exists envA n fpath) /\
  (forall fpath, basename envB fpath = basename envA fpath) /\
  (forall n, connect_raises envB n = connect_raises envA n) /\
  (forall n, normalize envB n = normalize envA n) /\
  (forall n, active envB n = active envA n) /\
  (forall n fpath remote_path,
     put_raises envB n fpath remote_path = put_raises envA n fpath remote_path).

(** In [envA] Stop is pressed during call number [n]; [envB] has the same
    presses before that call, and at least as many from that call on. *)
Definition pressed_again (envA envB : Env) (n : nat) : Prop :=
  stop_clicks envA n <> 0%nat /\
  (forall i, (i < n)%nat -> stop_clicks envB i = stop_clicks envA i) /\
  (forall i, (n <= i)%nat -> (stop_clicks envA i <= stop_clicks envB i)%nat).

(** The states of the two runs agree on everything but the replies that
    wait in [reply_q], and the flag is up once call number [n] is made. *)
Definition agree (n : nat) (sA sB : State) : Prop :=
  _stop sA = _stop sB /\ now sA = now sB /\ slept sA = slept sB /\
  transport sA = transport sB /\ connects sA = connects sB /\
  closed sA = closed sB /\
  ((n < now sA)%nat -> _stop sA = true).

(** Moreover the replies that wait are the same until call number [n] is
    made; after it some reply waits in the first run, and the second run
    has the same replies followed by more [False]. *)
Definition agree_replies (n : nat) (sA sB : State) : Prop :=
  agree n sA sB /\
  ((now sA <= n)%nat -> reply_q sA = reply_q sB) /\
  ((n < now sA)%nat ->
   reply_q sA <> [] /\ exists k, reply_q sB = reply_q sA ++ repeat false k).

(** Results of two runs of a piece of code: same events, same value or
    exit, states related by [Q]. *)
Definition related {A} (Q : State -> State -> Prop)
    (rA rB : list Event * Res A) : Prop :=
  match rA, rB with
  | (tA, Val a sA), (tB, Val b sB) => tA = tB /\ a = b /\ Q sA sB
  | (tA, Exc e sA), (tB, Exc e' sB) => tA = tB /\ e = e' /\ Q sA sB
  | _, _ => False
  end.

(** From states related by [P], the two pieces of code have related
    results. *)
Definition sim {A} (P Q : State -> State -> Prop) (cA cB : M A) : Prop :=
  forall sA sB, P sA sB -> related Q (cA sA) (cB sB).

(** A relation between the states of two runs that the calls into the
    outside world and the worker's own updates preserve. *)
Record Compatible (envA envB : Env) (R : State -> State -> Prop) : Prop := {
  c_stop : forall sA sB, R sA sB -> _stop sA = _stop sB;
  c_now : forall sA sB, R sA sB -> now sA = now sB;
  c_slept : forall sA sB, R sA sB -> slept sA = slept sB;
  c_land : forall sA sB, R sA sB -> R (land envA sA) (land envB sB);
  c_set_slept : forall sA sB k, R sA sB -> R (set_slept k sA) (set_slept k sB);
  c_set_session : forall sA sB h,
    R sA sB -> R (set_session h sA) (set_session h sB);
  c_count_connect : forall sA sB,
    R sA sB -> R (count_connect sA) (count_connect sB);
  c_set_closed : forall sA sB, R sA sB -> R (set_closed sA) (set_closed sB)
}.

(** The worker's own state: everything but [reply_q], the queue on which
    the GUI thread sends its replies. *)
Definition own_state (s : State) : bool * nat * nat * option nat * nat * bool :=
  (_stop s, now s, slept s, transport s, connects s, closed s).

(** ** What a piece of code keeps *)

(** A property of the worker's state that a piece of code keeps, on
    every way out of it. *)
Definition keeps {A} (I : State -> Prop) (c : M A) : Prop :=
  forall s, I s ->
    match c s with
    | (_, Val _ s') | (_, Exc _ s') => I s'
    end.

(** Stop is not pressed during the worker's calls number [a] to [b - 1]. *)
Definition never_pressed (env : Env) (a b : nat) : Prop :=
  forall i, (a <= i < b)%nat -> stop_clicks env i = 0%nat.

(** [env], where [sftp.normalize] raises. *)
Definition no_home (env : Env) : Env :=
  {| stop_clicks := stop_clicks env;
     user_answer := user_answer env;
     path_exists := path_exists env;
     basename := basename env;
     connect_raises := connect_raises env;
     normalize := fun _ => inl "Permission denied";
     active := active env;
     put_raises := put_raises env |}.

(** A piece of code that spends at most [B] seconds in
    [threading.Event().wait(1)]. *)
Definition sleeps_at_most {A} (B : nat) (c : M A) : Prop :=
  forall s,
    match c s with
    | (_, Val _ s') | (_, Exc _ s') => (slept s <= slept s' <= slept s + B)%nat
    end.

(** While no reply waits, Stop has not been pressed since [s0], and the
    flag is as it was in [s0]. *)
Definition unpressed (env : Env) (s0 s : State) : Prop :=
  (now s0 <= now s)%nat /\
  (reply_q s = [] -> never_pressed env (now s0) (now s) /\ _stop s = _stop s0).

(** ** The GUI thread: the log panel and the queues *)

(** A line of the log panel, as [App._log(msg)] inserts it: a message of
    the worker taken off [log_q], or one of the GUI's own. *)
Inductive Line : Type :=
| Line_worker (m : Msg)
| Line_session_ended          (* "\n─── Upload session ended ───\n" *)
| Line_added (added : nat) (folder : string)
    (* "Added {added} files from {folder}" *)
| Line_preset_saved (name : string)      (* "💾 Preset '{name}' saved." *)
| Line_preset_saved_as (name : string)   (* "💾 Preset '{name}' saved as new." *)
| Line_preset_deleted (name : string)    (* "🗑 Preset '{name}' deleted." *)
| Line_default_set (name : string).      (* "⭐ Default preset set to '{name}'." *)

(** The attributes of [App] that [_poll] works on: the three queues
    (oldest item first), the timer label, the two buttons ([true] is the
    state "normal", [false] is "disabled") and the text of the log panel. *)
Record Panel : Type := {
  _log_q : list Event;
  _confirm_q : list Event;
  _reply_q : list bool;
  _timer_lbl : string;
  _start_btn : bool;
  _stop_btn : bool;
  _log_txt : list Line
}.

(** [App.__init__] and [_build_log_panel]. *)
Definition panel0 : Panel :=
  {| _log_q := []; _confirm_q := []; _reply_q := [];
     _timer_lbl := EmptyString; _start_btn := true; _stop_btn := false;
     _log_txt := [] |}.

Definition set_log_q (q : list Event) (p : Panel) : Panel :=
  {| _log_q := q; _confirm_q := _confirm_q p; _reply_q := _reply_q p;
     _timer_lbl := _timer_lbl p; _start_btn := _start_btn p;
     _stop_btn := _stop_btn p; _log_txt := _log_txt p |}.

Definition set_confirm_q (q : list Event) (p : Panel) : Panel :=
  {| _log_q := _log_q p; _confirm_q := q; _reply_q := _reply_q p;
     _timer_lbl := _timer_lbl p; _start_btn := _start_btn p;
     _stop_btn := _stop_btn p; _log_txt := _log_txt p |}.

Definition set_timer_lbl (text : string) (p : Panel) : Panel :=
  {| _log_q := _log_q p; _confirm_q := _confirm_q p; _reply_q := _reply_q p;
     _timer_lbl := text; _start_btn := _start_btn p;
     _stop_btn := _stop_btn p; _log_txt := _log_txt p |}.

Definition set_buttons (start stop_ : bool) (p : Panel) : Panel :=
  {| _log_q := _log_q p; _confirm_q := _confirm_q p; _reply_q := _reply_q p;
     _timer_lbl := _timer_lbl p; _start_btn := start;
     _stop_btn := stop_; _log_txt := _log_txt p |}.

(** [App._log(msg)]: [self._log_txt.insert("end", msg + "\n")]. *)
Definition App_log (l : Line) (p : Panel) : Panel :=
  {| _log_q := _log_q p; _confirm_q := _confirm_q p; _reply_q := _reply_q p;
     _timer_lbl := _timer_lbl p; _start_btn := _start_btn p;
     _stop_btn := _stop_btn p; _log_txt := _log_txt p ++ [l] |}.

(** [App._ask_continue]: the answer to the dialog goes to [reply_q]. *)
Definition _ask_continue (answer : bool) (p : Panel) : Panel :=
  {| _log_q := _log_q p; _confirm_q := _confirm_q p;
     _reply_q := _reply_q p ++ [answer];
     _timer_lbl := _timer_lbl p; _start_btn := _start_btn p;
     _stop_btn := _stop_btn p; _log_txt := _log_txt p |}.

(** The [while True] loop of [_poll] over the items it takes off
    [log_q], with its local variable [timer_text].  An item of another
    kind matches no branch. *)
Fixpoint drain (items : list Event) (timer_text : option string) (p : Panel)
    : option string * Panel :=
  match items with
  | [] => (timer_text, p)
  | Log m :: items' => drain items' timer_text (App_log (Line_worker m) p)
  | Timer text :: items' => drain items' (Some text) p
  | Done _ :: items' =>
      drain items' timer_text
        (App_log Line_session_ended
           (set_buttons true false (set_timer_lbl EmptyString p)))
  | Confirm :: items' => drain items' timer_text p
  end.

(** [App._poll], on the items that are on the queues when it runs;
    [answer] is the answer to the dialog of [_ask_continue], if it is
    shown. *)
Definition _poll (answer : bool) (p : Panel) : Panel :=
  let (timer_text, p) := drain (_log_q p) None (set_log_q [] p) in
  let p :=
    match timer_text with
    | Some text => set_timer_lbl text p
    | None => p
    end in
  match _confirm_q p with
  | _ :: q => _ask_continue answer (set_confirm_q q p)
  | [] => p
  end.

(** The worker puts the events [t] on its two queues. *)
Definition puts (t : list Event) (p : Panel) : Panel :=
  set_confirm_q (_confirm_q p ++ confirm_q t) (set_log_q (_log_q p ++ log_q t) p).

(** The worker puts a batch of events, the GUI polls, and so on. *)
Fixpoint polls (batches : list (list Event * bool)) (p : Panel) : Panel :=
  match batches with
  | [] => p
  | (batch, answer) :: rest => polls rest (_poll answer (puts batch p))
  end.

(** The text of the last timer item of a batch, if it has one. *)
Fixpoint last_timer (t : list Event) : option string :=
  match t with
  | [] => None
  | e :: t' =>
      match last_timer t', e with
      | Some text, _ => Some text
      | None, Timer text => Some text
      | None, _ => None
      end
  end.

(** The lines that the items of [log_q] add to the log panel. *)
Definition line_of (e : Event) : list Line :=
  match e with
  | Log m => [Line_worker m]
  | Done _ => [Line_session_ended]
  | _ => []
  end.

Definition lines_of (t : list Event) : list Line := flat_map line_of t.

(** ** The GUI thread: the file list *)

(** The attributes of [App] behind the Files tab: the items of the
    listbox [_file_list], top first, and the text of the label under
    it. *)
Record Files : Type := {
  _file_list : list string;
  _file_count_lbl : string
}.

(** [f"{n} file{'s' if n!=1 else ''} selected"] *)
Definition count_text (n : nat) : string :=
  (str (Z.of_nat n) ++ " file" ++ (if Nat.eqb n 1 then EmptyString else "s")
   ++ " selected")%string.

(** [_build_files_tab]: an empty listbox. *)
Definition files0 : Files :=
  {| _file_list := []; _file_count_lbl := "0 files selected" |}.

(** [App._update_count] *)
Definition _update_count (f : Files) : Files :=
  {| _file_list := _file_list f;
     _file_count_lbl := count_text (List.length (_file_list f)) |}.

(** [p in self._file_list.get(0, "end")] *)
Definition listed (p : string) (l : list string) : bool :=
  existsb (String.eqb p) l.

(** The loop of [_add_files]: each path that is not in the listbox is
    inserted at its end. *)
Fixpoint insert_new (paths l : list string) : list string :=
  match paths with
  | [] => l
  | p :: paths' =>
      insert_new paths' (if listed p l then l else l ++ [p])
  end.

(** [App._add_files]; [paths] is what the file dialog returns, nothing
    when it is cancelled. *)
Definition _add_files (paths : list string) (f : Files) : Files :=
  _update_count
    {| _file_list := insert_new paths (_file_list f);
       _file_count_lbl := _file_count_lbl f |}.

(** [s.endswith(suffix)] *)
Definition endswith (s suffix : string) : bool :=
  let n := String.length s in
  let m := String.length suffix in
  (m <=? n)%nat && String.eqb (substring (n - m) m s) suffix.

Section Folder.

(** [str.lower], [os.path.join] and [sorted], taken as they are. *)
Variable lower : string -> string.
Variable join : string -> string -> string.
Variable sorted : list string -> list string.

(** The loop of [_add_folder] over the sorted names, with its counter
    [added]. *)
Fixpoint add_folder_loop (folder : string) (names l : list string)
    (added : nat) : list string * nat :=
  match names with
  | [] => (l, added)
  | fn :: names' =>
      if endswith (lower fn) ".csv" then
        let full := join folder fn in
        if listed full l then add_folder_loop folder names' l added
        else add_folder_loop folder names' (l ++ [full]) (S added)
      else add_folder_loop folder names' l added
  end.

(** [App._add_folder]; [folder] is what the directory dialog returns
    (empty when it is cancelled) and [listdir] is [os.listdir(folder)]. *)
Definition _add_folder (folder : string) (listdir : list string)
    (f : Files) (p : Panel) : Files * Panel :=
  if negb (truthy folder) then (f, p)
  else
    let (l, added) :=
      add_folder_loop folder (sorted listdir) (_file_list f) 0%nat in
    (_update_count {| _file_list := l; _file_count_lbl := _file_count_lbl f |},
     App_log (Line_added added folder) p).

End Folder.

(** [self._file_list.delete(idx)]: the item number [idx] goes, if there
    is one. *)
Fixpoint delete (idx : nat) (l : list string) : list string :=
  match idx, l with
  | _, [] => []
  | O, _ :: l' => l'
  | S idx', x :: l' => x :: delete idx' l'
  end.

(** [App._remove_files]; [curselection] is what
    [self._file_list.curselection()] returns: the selected indices. *)
Definition _remove_files (curselection : list nat) (f : Files) : Files :=
  _update_count
    {| _file_list :=
         fold_left (fun l idx => delete idx l) (rev curselection) (_file_list f);
       _file_count_lbl := _file_count_lbl f |}.

(** [App._clear_files] *)
Definition _clear_files (f : Files) : Files :=
  _update_count {| _file_list := []; _file_count_lbl := _file_count_lbl f |}.

(** The items of [l], numbered from [i], whose number is not in [sel]. *)
Fixpoint unselected (sel : list nat) (i : nat) (l : list string) : list string :=
  match l with
  | [] => []
  | x :: l' =>
      if existsb (Nat.eqb i) sel then unselected sel (S i) l'
      else x :: unselected sel (S i) l'
  end.

(** ** The GUI thread: presets *)

(** A Python [dict] with string keys: the items in insertion order. *)
Section Dict.

Context {V : Type}.

(** [d.get(k)] *)
Fixpoint dict_get (k : string) (d : list (string * V)) : option V :=
  match d with
  | [] => None
  | (k', v) :: d' => if String.eqb k' k then Some v else dict_get k d'
  end.

(** [d[k] = v]: a key that is there keeps its place, a new one comes
    last. *)
Fixpoint dict_set (k : string) (v : V) (d : list (string * V))
    : list (string * V) :=
  match d with
  | [] => [(k, v)]
  | (k', v') :: d' =>
      if String.eqb k' k then (k, v) :: d' else (k', v') :: dict_set k v d'
  end.

(** [del d[k]] *)
Definition dict_del (k : string) (d : list (string * V)) : list (string * V) :=
  filter (fun kv => negb (String.eqb (fst kv) k)) d.

(** [list(d.keys())] *)
Definition keys (d : list (string * V)) : list string := map fst d.

End Dict.

(** One preset: the [dict] of its seven string fields. *)
Definition Preset : Type := list (string * string).

(** What [sftp_presets.json] holds: the entries ["default"] and
    ["presets"] of the top [dict], each of which may be missing from a
    file that was written by hand. *)
Record Data : Type := {
  default : option string;
  presets : option (list (string * Preset))
}.

(** [data.get("default", "")] and [data.get("presets", {})] *)
Definition default_of (data : Data) : string :=
  match default data with Some name => name | None => EmptyString end.

Definition presets_of (data : Data) : list (string * Preset) :=
  match presets data with Some ps => ps | None => [] end.

(** The [StringVar]s of the connection tab. *)
Record Form : Type := {
  v_host : string;
  v_port : string;
  v_user : string;
  v_auth : string;
  v_pw : string;
  v_key : string;
  v_rdir : string
}.

(** Message boxes that only inform. *)
Inductive Box : Type :=
| Box_not_found (name : string)   (* "Not found", "No preset named '{name}'." *)
| Box_no_preset (name : string)   (* "Not found", "No preset '{name}'." *)
| Box_not_saved (name : string).  (* "Not saved", "Save preset '{name}' first." *)

(** What the handlers of the presets work on: the form, the text and the
    values of the combobox, the states of the three widgets that
    [_toggle_auth] switches ([true] is "normal"), the content of
    [sftp_presets.json] ([None]: no such file, or one that [json.load]
    rejects), the log panel, and the message boxes shown so far. *)
Record Tab : Type := {
  form : Form;
  _preset_var : string;
  _preset_values : list string;
  _pw_entry : bool;
  _key_entry : bool;
  _key_btn : bool;
  presets_json : option Data;
  panel : Panel;
  boxes : list Box
}.

(** [_build_connection_tab], before [_load_default_preset] runs. *)
Definition tab0 (file : option Data) : Tab :=
  {| form := {| v_host := EmptyString; v_port := "22"; v_user := EmptyString;
                v_auth := "password"; v_pw := EmptyString;
                v_key := EmptyString; v_rdir := EmptyString |};
     _preset_var := EmptyString; _preset_values := [];
     _pw_entry := true; _key_entry := false; _key_btn := false;
     presets_json := file; panel := panel0; boxes := [] |}.

Definition set_form (f : Form) (t : Tab) : Tab :=
  {| form := f; _preset_var := _preset_var t;
     _preset_values := _preset_values t; _pw_entry := _pw_entry t;
     _key_entry := _key_entry t; _key_btn := _key_btn t;
     presets_json := presets_json t; panel := panel t; boxes := boxes t |}.

(** [self._preset_combo.set(name)]: the combobox shows [_preset_var]. *)
Definition set_preset_var (name : string) (t : Tab) : Tab :=
  {| form := form t; _preset_var := name;
     _preset_values := _preset_values t; _pw_entry := _pw_entry t;
     _key_entry := _key_entry t; _key_btn := _key_btn t;
     presets_json := presets_json t; panel := panel t; boxes := boxes t |}.

Definition set_preset_values (names : list string) (t : Tab) : Tab :=
  {| form := form t; _preset_var := _preset_var t;
     _preset_values := names; _pw_entry := _pw_entry t;
     _key_entry := _key_entry t; _key_btn := _key_btn t;
     presets_json := presets_json t; panel := panel t; boxes := boxes t |}.

(** [App._save_presets_file]: [json.dump] writes what [json.load] reads
    back. *)
Definition _save_presets_file (data : Data) (t : Tab) : Tab :=
  {| form := form t; _preset_var := _preset_var t;
     _preset_values := _preset_values t; _pw_entry := _pw_entry t;
     _key_entry := _key_entry t; _key_btn := _key_btn t;
     presets_json := Some data; panel := panel t; boxes := boxes t |}.

Definition Tab_log (l : Line) (t : Tab) : Tab :=
  {| form := form t; _preset_var := _preset_var t;
     _preset_values := _preset_values t; _pw_entry := _pw_entry t;
     _key_entry := _key_entry t; _key_btn := _key_btn t;
     presets_json := presets_json t; panel := App_log l (panel t);
     boxes := boxes t |}.

(** [messagebox.showwarning(...)] *)
Definition showwarning (b : Box) (t : Tab) : Tab :=
  {| form := form t; _preset_var := _preset_var t;
     _preset_values := _preset_values t; _pw_entry := _pw_entry t;
     _key_entry := _key_entry t; _key_btn := _key_btn t;
     presets_json := presets_json t; panel := panel t;
     boxes := boxes t ++ [b] |}.

(** [App._toggle_auth] *)
Definition _toggle_auth (t : Tab) : Tab :=
  let key := String.eqb (v_auth (form t)) "key" in
  {| form := form t; _preset_var := _preset_var t;
     _preset_values := _preset_values t; _pw_entry := negb key;
     _key_entry := key; _key_btn := key;
     presets_json := presets_json t; panel := panel t; boxes := boxes t |}.

(** [App._load_presets] *)
Definition _load_presets (t : Tab) : Data :=
  match presets_json t with
  | Some data => data
  | None => {| default := Some EmptyString; presets := Some [] |}
  end.

(** [App._refresh_preset_dropdown] *)
Definition _refresh_preset_dropdown (data : Data) (t : Tab) : Tab :=
  let names := keys (presets_of data) in
  let t := set_preset_values names t in
  let default := default_of data in
  set_preset_var
    (if listed default names then default
     else match names with name :: _ => name | [] => EmptyString end) t.

(** [p.get(k, d)] *)
Definition get_or (k d : string) (p : Preset) : string :=
  match dict_get k p with Some v => v | None => d end.

(** [App._apply_preset] *)
Definition _apply_preset (p : Preset) (t : Tab) : Tab :=
  _toggle_auth
    (set_form
       {| v_host := get_or "host" EmptyString p;
          v_port := get_or "port" "22" p;
          v_user := get_or "username" EmptyString p;
          v_auth := get_or "auth" "password" p;
          v_pw := get_or "password" EmptyString p;
          v_key := get_or "key_path" EmptyString p;
          v_rdir := get_or "remote_dir" EmptyString p |} t).

(** [if p:] for what [dict.get] returns: a [dict] that is not empty. *)
Definition found (p : option Preset) : option Preset :=
  match p with
  | Some (kv :: p') => Some (kv :: p')
  | _ => None
  end.

(** [App._load_default_preset] *)
Definition _load_default_preset (t : Tab) : Tab :=
  let data := _load_presets t in
  let t := _refresh_preset_dropdown data t in
  match found (dict_get (default_of data) (presets_of data)) with
  | Some p => _apply_preset p t
  | None => t
  end.

Section Strip.

(** [str.strip], taken as it is. *)
Variable strip : string -> string.

(** [App._load_preset_from_combo] *)
Definition _load_preset_from_combo (t : Tab) : Tab :=
  let name := strip (_preset_var t) in
  let data := _load_presets t in
  match found (dict_get name (presets_of data)) with
  | Some p => _apply_preset p t
  | None => showwarning (Box_not_found name) t
  end.

(** The [dict] that [_save_preset] and [_save_preset_as] build from the
    form. *)
Definition preset_of_form (f : Form) : Preset :=
  [("host", strip (v_host f));
   ("port", if truthy (strip (v_port f)) then strip (v_port f) else "22");
   ("username", strip (v_user f));
   ("auth", v_auth f);
   ("password", v_pw f);
   ("key_path", strip (v_key f));
   ("remote_dir", strip (v_rdir f))].

(** The form that loading [preset_of_form f] gives: the fields as they
    were stored. *)
Definition stored_form (f : Form) : Form :=
  {| v_host := strip (v_host f);
     v_port := if truthy (strip (v_port f)) then strip (v_port f) else "22";
     v_user := strip (v_user f);
     v_auth := v_auth f;
     v_pw := v_pw f;
     v_key := strip (v_key f);
     v_rdir := strip (v_rdir f) |}.

(** [data.setdefault("presets", {})[name] = {...}], then
    [if not data.get("default"): data["default"] = name]. *)
Definition store (name : string) (p : Preset) (data : Data) : Data :=
  {| default :=
       match default data with
       | Some (String c d) => Some (String c d)
       | _ => Some name
       end;
     presets := Some (dict_set name p (presets_of data)) |}.

(** [App._save_preset]; [asked] is what the dialog [askstring] returns
    when it is shown: [None] when it is cancelled. *)
Definition _save_preset (asked : option string) (t : Tab) : Tab :=
  let save name t :=
    let data := store name (preset_of_form (form t)) (_load_presets t) in
    let t := _save_presets_file data t in
    let t := _refresh_preset_dropdown data t in
    Tab_log (Line_preset_saved name) t in
  let name := strip (_preset_var t) in
  if truthy name then save name t
  else
    match asked with
    | Some (String c n) => save (String c n) (set_preset_var (String c n) t)
    | _ => t
    end.

(** [App._save_preset_as]; [overwrite] is the answer to the dialog
    "Overwrite?" when it is shown. *)
Definition _save_preset_as (asked : option string) (overwrite : bool)
    (t : Tab) : Tab :=
  match asked with
  | Some (String c n) =>
      let name := String c n in
      let data := _load_presets t in
      if listed name (keys (presets_of data)) && negb overwrite then t
      else
        let t := set_preset_var name t in
        let data := store name (preset_of_form (form t)) data in
        let t := _save_presets_file data t in
        let t := _refresh_preset_dropdown data t in
        let t := set_preset_var name t in
        Tab_log (Line_preset_saved_as name) t
  | _ => t
  end.

(** [App._delete_preset]; [yes] is the answer to the dialog "Delete
    preset?" when it is shown. *)
Definition _delete_preset (yes : bool) (t : Tab) : Tab :=
  let name := strip (_preset_var t) in
  if negb (truthy name) then t
  else
    let data := _load_presets t in
    if negb (listed name (keys (presets_of data))) then
      showwarning (Box_no_preset name) t
    else if negb yes then t
    else
      let ps := dict_del name (presets_of data) in
      let data :=
        {| default :=
             match default data with
             | Some d =>
                 if String.eqb d name then
                   Some (match keys ps with k :: _ => k | [] => EmptyString end)
                 else Some d
             | None => None
             end;
           presets := Some ps |} in
      let t := _save_presets_file data t in
      let t := _refresh_preset_dropdown data t in
      Tab_log (Line_preset_deleted name) t.

(** [App._set_default_preset] *)
Definition _set_default_preset (t : Tab) : Tab :=
  let name := strip (_preset_var t) in
  if negb (truthy name) then t
  else
    let data := _load_presets t in
    if negb (listed name (keys (presets_of data))) then
      showwarning (Box_not_saved name) t
    else
      let data := {| default := Some name; presets := presets data |} in
      let t := _save_presets_file data t in
      Tab_log (Line_default_set name) t.

End Strip.

(** [str.strip] on a string whose only white space is blanks. *)
Fixpoint lstrip_blanks (s : string) : string :=
  match s with
  | String c s' => if Ascii.eqb c " " then lstrip_blanks s' else s
  | EmptyString => EmptyString
  end.

Fixpoint rstrip_blanks (s : string) : string :=
  match s with
  | EmptyString => EmptyString
  | String c rest =>
      match rstrip_blanks rest with
      | EmptyString => if Ascii.eqb c " " then EmptyString else String c EmptyString
      | r => String c r
      end
  end.

Definition strip_blanks (s : string) : string := rstrip_blanks (lstrip_blanks s).

(** A form, and a file with two presets of which the first is the
    default. *)
Definition office : Form :=
  {| v_host := " example.org "; v_port := EmptyString; v_user := "alice ";
     v_auth := "password"; v_pw := " secret "; v_key := EmptyString;
     v_rdir := "upload/" |}.

Definition two_presets : Data :=
  {| default := Some "home";
     presets :=
       Some [("home", [("host", "home.example.org"); ("port", "2222")]);
             ("lab", [("host", "lab.example.org")])] |}.

(** The default names a preset, unless there is none: then it is
    empty. *)
Definition default_is_saved (data : Data) : Prop :=
  In (default_of data) (keys (presets_of data)) \/
  (presets_of data = [] /\ default_of data = EmptyString).

(** ** The GUI thread: starting a run *)

(** The variables of the Options tab. *)
Record Opts : Type := {
  v_use_delay : bool;
  v_delay : string;
  v_use_test : bool;
  v_test_n : string;
  v_use_start_delay : bool;
  v_start_delay : string
}.

(** [_build_options_tab] *)
Definition opts0 : Opts :=
  {| v_use_delay := true; v_delay := "90";
     v_use_test := true; v_test_n := "3";
     v_use_start_delay := false; v_start_delay := "0" |}.

(** The [dict] that [_get_cfg] returns, entry by entry: the numbers are
    still the strings of the entries. *)
Record Raw : Type := {
  cfg_host : string;
  cfg_port : string;
  cfg_username : string;
  cfg_auth : string;
  cfg_password : string;
  cfg_key_path : string;
  cfg_remote_dir : string;
  cfg_use_delay : bool;
  cfg_delay : string;
  cfg_use_test : bool;
  cfg_test_n : string;
  cfg_start_delay_min : string
}.

(** [a or b] on strings *)
Definition or_else (a b : string) : string := if truthy a then a else b.

Section Start.

(** [str.strip] and [int], taken as they are; [int] gives [None] when it
    raises [ValueError]. *)
Variable strip : string -> string.
Variable int : string -> option Z.

(** [App._get_cfg] *)
Definition _get_cfg (f : Form) (o : Opts) : Raw :=
  {| cfg_host := strip (v_host f);
     cfg_port := or_else (strip (v_port f)) "22";
     cfg_username := strip (v_user f);
     cfg_auth := v_auth f;
     cfg_password := v_pw f;
     cfg_key_path := strip (v_key f);
     cfg_remote_dir := strip (v_rdir f);
     cfg_use_delay := v_use_delay o;
     cfg_delay := or_else (v_delay o) "0";
     cfg_use_test := v_use_test o;
     cfg_test_n := or_else (v_test_n o) "1";
     cfg_start_delay_min :=
       if v_use_start_delay o then v_start_delay o else "0" |}.

(** How [_start] ends. *)
Inductive Started : Type :=
| No_files           (* the warning "No files", and return *)
| Missing_info       (* the warning "Missing info", and return *)
| Value_error        (* [int(...)] raises: the handler ends there *)
| Declined           (* the long-delay dialog is cancelled, and return *)
| Worker (cfg : Raw) (files : list string).
    (* [UploadWorker(cfg, files, ...)] runs in its thread *)

(** [App._start]; [ok] is the answer to the long-delay dialog when it is
    shown.  On a start the three queues are replaced by new ones, and the
    buttons are switched. *)
Definition _start (ok : bool) (f : Form) (o : Opts) (fl : Files) (p : Panel)
    : Started * Panel :=
  let files := _file_list fl in
  match files with
  | [] => (No_files, p)
  | _ :: _ =>
      let cfg := _get_cfg f o in
      if negb (truthy (cfg_host cfg)) || negb (truthy (cfg_username cfg)) then
        (Missing_info, p)
      else
        match int (cfg_start_delay_min cfg) with
        | None => (Value_error, p)
        | Some start_delay_min =>
            if (30 <? start_delay_min) && negb ok then (Declined, p)
            else
              (Worker cfg files,
               {| _log_q := []; _confirm_q := []; _reply_q := [];
                  _timer_lbl := _timer_lbl p;
                  _start_btn := false; _stop_btn := true;
                  _log_txt := _log_txt p |})
        end
  end.

(** The conversions of lines 103 and 104 of [run], made once the
    connection is there: [int(cfg["delay"]) if cfg["use_delay"] else 0]
    and [int(cfg["test_n"]) if cfg["use_test"] else 0]. *)
Definition convert (raw : Raw) (start_delay_min : Z) : option Cfg :=
  match (if cfg_use_delay raw then int (cfg_delay raw) else Some 0),
        (if cfg_use_test raw then int (cfg_test_n raw) else Some 0) with
  | Some d, Some n =>
      Some {| host := cfg_host raw; port := cfg_port raw;
              remote_dir := cfg_remote_dir raw;
              use_delay := cfg_use_delay raw; delay := d;
              use_test := cfg_use_test raw; test_n := n;
              start_delay_min := start_delay_min |}
  | _, _ => None
  end.

(** What the code before the loop reads of [cfg]. *)
Definition before_conversion (raw : Raw) (start_delay_min : Z) : Cfg :=
  {| host := cfg_host raw; port := cfg_port raw;
     remote_dir := cfg_remote_dir raw;
     use_delay := cfg_use_delay raw; delay := 0;
     use_test := cfg_use_test raw; test_n := 0;
     start_delay_min := start_delay_min |}.

(** How the worker's thread ends: [run] ends, or an exception that
    nothing catches ends the thread. *)
Inductive Outcome : Type :=
| Finished (e : Exit)
| Died.

(** [run] on the [dict] of [_get_cfg].  [int(cfg.get("start_delay_min",
    0))] is the first statement; the conversions of [delay] and [test_n]
    come after the connect and before the [try] of the loop, so that
    nothing catches what they raise. *)
Definition run_raw (raw : Raw) (files : list string) (env : Env) (s : State)
    : list Event * (Outcome * State) :=
  match int (cfg_start_delay_min raw) with
  | None => ([], (Died, s))
  | Some start_delay_min =>
      match convert raw start_delay_min with
      | Some cfg =>
          let '(t, (e, s')) := run cfg files env s in (t, (Finished e, s'))
      | None =>
          let cfg := before_conversion raw start_delay_min in
          match (initial_delay cfg env ;; initial_connect cfg env) s with
          | (t, Exc e s1) => (t, (Finished e, s1))
          | (t, Val _ s1) => (t, (Died, s1))
          end
      end
  end.

End Start.

(** An [int] for examples: it reads the strings of decimal digits, and
    rejects every other string (Python's [int] also reads a sign, blanks
    and underscores). *)
Definition int_digits (s : string) : option Z :=
  match NilZero.uint_of_string s with
  | Some u => Some (Z.of_uint u)
  | None => None
  end.

(** ** More sample configurations *)

(** A delay below zero: the text "-5" in the entry of the delay. *)
Definition backwards : Cfg :=
  {| host := "example.org"; port := "22"; remote_dir := "upload/";
     use_delay := true; delay := -5;
     use_test := false; test_n := 0;
     start_delay_min := 0 |}.

(** An [int] that also reads a minus sign before the digits, as Python's
    does. *)
Definition int_signed (s : string) : option Z :=
  match s with
  | String "-" digits => option_map Z.opp (int_digits digits)
  | _ => int_digits s
  end.

(** The Options tab with "-5" in the entry of the delay. *)
Definition negative_delay : Opts :=
  {| v_use_delay := true; v_delay := "-5";
     v_use_test := false; v_test_n := "3";
     v_use_start_delay := false; v_start_delay := "0" |}.

(** The Options tab with a delay that is not a number. *)
Definition unreadable_delay : Opts :=
  {| v_use_delay := true; v_delay := "abc";
     v_use_test := false; v_test_n := "3";
     v_use_start_delay := false; v_start_delay := "0" |}.

(** * Properties *)

(** ** Traces and sequencing *)

Lemma count_app (p : Event -> bool) (t1 t2 : list Event) :
  count p (t1 ++ t2) = (count p t1 + count p t2)%nat.
Proof. unfold count. now rewrite filter_app, length_app. Qed.

Lemma bind_run_val {A B} (c : M A) (k : A -> M B) s t1 a s1 :
  c s = (t1, Val a s1) ->
  bind c k s = (t1 ++ fst (k a s1), snd (k a s1)).
Proof. unfold bind. intros ->. now destruct (k a s1). Qed.

Lemma bind_run_exc {A B} (c : M A) (k : A -> M B) s t1 e s1 :
  c s = (t1, Exc e s1) -> bind c k s = (t1, Exc e s1).
Proof. unfold bind. now intros ->. Qed.

Section Sequencing.

Context {V : list Event -> Prop} {X : Exit -> list Event -> Prop}.
Hypothesis HS : Sequential V X.

Lemma spec_ret {A} (a : A) : spec V X (ret a).
Proof. intros s. apply (seq_nil _ _ HS). Qed.

Lemma spec_bind {A B} (c : M A) (k : A -> M B) :
  spec V X c -> (forall a, spec V X (k a)) -> spec V X (bind c k).
Proof.
  intros Hc Hk s. unfold bind. specialize (Hc s).
  destruct (c s) as [t1 [a s1|e s1]]; [|exact Hc].
  specialize (Hk a s1). destruct (k a s1) as [t2 [b s2|e s2]].
  - now apply (seq_app _ _ HS).
  - now apply (seq_exit _ _ HS).
Qed.

Lemma spec_if {A} (b : bool) (c1 c2 : M A) :
  spec V X c1 -> spec V X c2 -> spec V X (if b then c1 else c2).
Proof. now destruct b. Qed.

End Sequencing.

(** ** The calls into the outside world *)

Section Calls.

Variable env : Env.

Lemma tick_quiet : quiet_call (tick env).
Proof. intros s. unfold tick. eauto. Qed.

Lemma is_set_quiet : quiet_call (is_set env).
Proof. intros s. unfold is_set, bind, tick. eauto. Qed.

Lemma wait1_quiet : quiet_call (wait1 env).
Proof. intros s. unfold wait1, bind, tick. eauto. Qed.

Lemma os_path_exists_quiet fpath : quiet_call (os_path_exists env fpath).
Proof. intros s. unfold os_path_exists, bind, tick, ret. eauto. Qed.

Lemma is_active_quiet : quiet_call (is_active env).
Proof. intros s. unfold is_active, bind, tick, ret. eauto. Qed.

Lemma _connect_quiet : quiet_call (_connect env).
Proof.
  intros s. unfold _connect, bind, tick.
  destruct (connect_raises env (now s)); eauto.
Qed.

Lemma sftp_normalize_quiet : quiet_call (sftp_normalize env).
Proof. intros s. unfold sftp_normalize, bind, tick, ret. eauto. Qed.

Lemma sftp_put_quiet fpath remote_path :
  quiet_call (sftp_put env fpath remote_path).
Proof. intros s. unfold sftp_put, bind, tick, ret. eauto. Qed.

Lemma close_session_quiet : quiet_call (close_session env).
Proof. intros s. unfold close_session, bind, tick. eauto. Qed.

Lemma reply_q_get_eq s :
  reply_q_get env s =
    match reply_q (land env s) with
    | a :: q => ([], Val a (set_reply_q q (land env s)))
    | [] =>
        match user_answer env (now s) with
        | Some a => ([], Val a (set_reply_q [] (App_ask_continue a (land env s))))
        | None => ([], Exc Blocked (land env s))
        end
    end.
Proof.
  unfold reply_q_get, bind, tick.
  destruct (reply_q (land env s)) as [|a q] eqn:Hq.
  - destruct (user_answer env (now s)) as [b|].
    + change (reply_q (App_ask_continue b (land env s)))
        with (reply_q (land env s) ++ [b]).
      now rewrite Hq.
    + now rewrite Hq.
  - now rewrite Hq.
Qed.

(** [reply_q.get()] puts nothing on the queues; it returns or blocks. *)
Lemma reply_q_get_cases s :
  (exists a s', reply_q_get env s = ([], Val a s')) \/
  (exists s', reply_q_get env s = ([], Exc Blocked s')).
Proof.
  rewrite reply_q_get_eq.
  destruct (reply_q (land env s)); [destruct (user_answer env (now s))|]; eauto.
Qed.

End Calls.

Create HintDb worker.

#[global] Hint Resolve tick_quiet is_set_quiet wait1_quiet os_path_exists_quiet
  is_active_quiet _connect_quiet sftp_normalize_quiet sftp_put_quiet
  close_session_quiet : worker.

Lemma spec_quiet {A} V X (c : M A) :
  Sequential V X -> quiet_call c -> spec V X c.
Proof.
  intros HS Hc s. destruct (Hc s) as (a & s' & ->). apply (seq_nil _ _ HS).
Qed.

(** One step of a proof that a piece of code meets a [spec]: follow the
    structure of the code. *)
Ltac spec_step HS :=
  match goal with
  | |- spec _ _ (bind _ _) => apply (spec_bind HS); [ | intros ? ]
  | |- spec _ _ (ret _) => apply (spec_ret HS)
  | |- spec _ _ (if ?b then _ else _) => apply spec_if
  | |- spec _ _ (match ?x with _ => _ end) => destruct x
  | |- spec _ _ _ => apply (spec_quiet _ _ _ HS); solve [auto with worker]
  end.

(** ** The code, piece by piece

    Each piece of [run] meets a [spec] as soon as the events it puts and
    the exits it takes do. *)

Section Pieces.

Variable cfg : Cfg.
Variable files : list string.
Variable env : Env.

Context {V : list Event -> Prop} {X : Exit -> list Event -> Prop}.
Hypothesis HS : Sequential V X.

Lemma spec_log (m : Msg) : V [Log m] -> spec V X (_log m).
Proof. intros H s. exact H. Qed.

Lemma spec_timer (text : string) : V [Timer text] -> spec V X (_timer text).
Proof. intros H s. exact H. Qed.

Lemma spec_leave {A} (m : Msg) (e : Exit) :
  X e [Log m] -> spec V X (_log m ;; @exit_with A e).
Proof. intros H s. exact H. Qed.

Section Sleep.

Hypothesis Htimer : forall text, V [Timer text].

Lemma sleep_loop_spec seconds prefix total n : forall elapsed,
  spec V X (sleep_loop env seconds prefix total elapsed n).
Proof.
  induction n as [|n IH]; intros elapsed; cbn [sleep_loop].
  - apply (spec_ret HS).
  - repeat first [apply spec_timer, Htimer | apply IH | spec_step HS].
Qed.

Lemma _sleep_spec seconds prefix total :
  spec V X (_sleep env seconds prefix total).
Proof.
  unfold _sleep.
  repeat first [apply spec_timer, Htimer | apply sleep_loop_spec | spec_step HS].
Qed.

End Sleep.

Lemma initial_delay_spec :
  Init_leaves V X -> spec V X (initial_delay cfg env).
Proof.
  intros HL. unfold initial_delay.
  repeat first
    [ apply spec_timer, (il_timer _ _ HL)
    | apply spec_log, (il_log _ _ HL); reflexivity
    | apply _sleep_spec, (il_timer _ _ HL)
    | intros s; exact (il_return_delay _ _ HL)
    | spec_step HS ].
Qed.

Lemma connect_failed_spec exc :
  Init_leaves V X -> spec V X (connect_failed exc).
Proof. intros HL s. exact (il_return_connect _ _ HL exc). Qed.

Lemma initial_connect_spec :
  Init_leaves V X -> spec V X (initial_connect cfg env).
Proof.
  intros HL. unfold initial_connect.
  repeat first
    [ apply connect_failed_spec, HL
    | apply spec_log, (il_log _ _ HL); reflexivity
    | spec_step HS ].
Qed.

Lemma upload_spec idx fpath :
  Loop_leaves V X -> spec V X (upload cfg files env idx fpath).
Proof.
  intros HL. unfold upload.
  repeat first
    [ apply spec_leave, (ll_reconnect _ _ HL)
    | apply spec_log, (ll_log _ _ HL); reflexivity
    | spec_step HS ].
Qed.

Lemma reconnect_after_delay_spec :
  Loop_leaves V X -> spec V X (reconnect_after_delay cfg env).
Proof.
  intros HL. unfold reconnect_after_delay.
  repeat first
    [ apply spec_leave, (ll_reconnect_delay _ _ HL)
    | apply spec_log, (ll_log _ _ HL); reflexivity
    | spec_step HS ].
Qed.

Lemma inter_file_delay_spec idx :
  Loop_leaves V X -> spec V X (inter_file_delay cfg files env idx).
Proof.
  intros HL. unfold inter_file_delay.
  repeat first
    [ apply reconnect_after_delay_spec, HL
    | apply spec_timer, (ll_timer _ _ HL)
    | apply _sleep_spec, (ll_timer _ _ HL)
    | intros s; exact (ll_sleep _ _ HL)
    | spec_step HS ].
Qed.

Lemma test_batch_pause_spec idx :
  Pause_leaves env V X -> spec V X (test_batch_pause cfg env idx).
Proof.
  intros HL. unfold test_batch_pause.
  spec_step HS; [|spec_step HS].
  spec_step HS; [apply spec_log, (pl_test_batch_done _ _ _ HL)|].
  intros s. unfold bind at 1. cbn [emit]. unfold bind at 1.
  rewrite reply_q_get_eq.
  destruct (reply_q (land env s)) as [|ans q].
  - destruct (user_answer env (now s)) as [ans|] eqn:Hans.
    + destruct ans; cbn.
      * apply (pl_continue _ _ _ HL).
      * apply (pl_declined _ _ _ HL).
    + cbn. apply (pl_blocked _ _ _ HL). eauto.
  - destruct ans; cbn.
    + apply (pl_continue _ _ _ HL).
    + apply (pl_declined _ _ _ HL).
Qed.

Lemma iteration_spec idx fpath :
  Loop_leaves V X -> Pause_leaves env V X ->
  spec V X (iteration cfg files env idx fpath).
Proof.
  intros HL HP. unfold iteration.
  repeat first
    [ apply spec_leave, (ll_stopped _ _ HL)
    | apply upload_spec, HL
    | apply test_batch_pause_spec, HP
    | apply inter_file_delay_spec, HL
    | spec_step HS ].
Qed.

Lemma for_files_spec fs :
  Loop_leaves V X -> Pause_leaves env V X ->
  forall idx, spec V X (for_files cfg files env idx fs).
Proof.
  intros HL HP.
  induction fs as [|fpath fs IH]; intros idx; cbn [for_files].
  - apply (spec_ret HS).
  - spec_step HS; [now apply iteration_spec|apply IH].
Qed.

End Pieces.

(** ** The shape of a trace, exit by exit *)

Lemma done_sequential : Sequential no_done exit_trace.
Proof.
  split.
  - reflexivity.
  - intros t1 t2 H1 H2. unfold no_done in *. rewrite count_app. lia.
  - intros e t1 t2 H1 H2. unfold no_done in *.
    destruct e; cbn in *;
      try contradiction;
      try (rewrite count_app; lia);
      try (destruct H2 as (t0 & H0 & ->); exists (t1 ++ t0);
           rewrite app_assoc, count_app; split; [lia|reflexivity]);
      try (destruct H2 as (t0 & exc & H0 & ->); exists (t1 ++ t0), exc;
           rewrite app_assoc, count_app; split; [lia|reflexivity]).
Qed.

Lemma done_init : Init_leaves no_done exit_trace.
Proof.
  split; intros; try reflexivity.
  - now exists [].
  - now exists [], exc.
Qed.

Lemma done_loop : Loop_leaves no_done exit_trace.
Proof.
  split; intros; try reflexivity.
  - now exists [].
  - now exists [], exc.
  - now exists [], exc.
Qed.

Lemma done_pause env : Pause_leaves env no_done exit_trace.
Proof.
  split; intros; try reflexivity.
  - now exists [Confirm].
  - now exists [].
Qed.

(** ** Which exits each part of [run] can take *)

Lemma kind_sequential (K : Exit -> Prop) :
  Sequential (fun _ => True) (fun e _ => K e).
Proof. now split. Qed.

Lemma return_init : Init_leaves (fun _ => True) (fun e _ => is_return e = true).
Proof. now split. Qed.

Lemma break_loop : Loop_leaves (fun _ => True) (fun e _ => is_return e = false).
Proof. now split. Qed.

Lemma break_pause env :
  Pause_leaves env (fun _ => True) (fun e _ => is_return e = false).
Proof. now split. Qed.

Lemma unblocked_loop : Loop_leaves (fun _ => True) (fun e _ => e <> Blocked).
Proof. now split. Qed.


(** ** The run as a whole *)

Section Run.

Variable cfg : Cfg.
Variable files : list string.
Variable env : Env.

Lemma finally_eq s :
  exists s', finally_ env s = ([Done true], Val tt s').
Proof. unfold finally_, close_session, bind, tick, emit. eauto. Qed.

Lemma before_loop_spec {V X} :
  Sequential V X -> Init_leaves V X ->
  spec V X (initial_delay cfg env ;; initial_connect cfg env).
Proof.
  intros HS HL. apply (spec_bind HS).
  - now apply initial_delay_spec.
  - intros _. now apply initial_connect_spec.
Qed.

(** The three ways through [run]. *)
Lemma run_cases s :
  (exists t e s',
     (initial_delay cfg env ;; initial_connect cfg env) s = (t, Exc e s') /\
     is_return e = true /\
     run cfg files env s = (t, (e, s'))) \/
  (exists t0 s0 t1 s1,
     (initial_delay cfg env ;; initial_connect cfg env) s = (t0, Val tt s0) /\
     for_files cfg files env 1 files s0 = (t1, Exc Blocked s1) /\
     run cfg files env s = (t0 ++ t1, (Blocked, s1))) \/
  (exists t0 s0 t1 r e s',
     (initial_delay cfg env ;; initial_connect cfg env) s = (t0, Val tt s0) /\
     for_files cfg files env 1 files s0 = (t1, r) /\
     match r with
     | Val _ s1 => e = Loop_exhausted /\ finally_ env s1 = ([Done true], Val tt s')
     | Exc e1 s1 =>
         e = e1 /\ e1 <> Blocked /\ is_return e1 = false /\
         finally_ env s1 = ([Done true], Val tt s')
     end /\
     run cfg files env s = (t0 ++ t1 ++ [Done true], (e, s'))).
Proof.
  unfold run.
  pose proof (before_loop_spec (kind_sequential _) return_init s) as H0.
  destruct ((initial_delay cfg env ;; initial_connect cfg env) s)
    as [t0 [[] s0|e0 s0]] eqn:Hi.
  - right.
    pose proof (for_files_spec cfg files env (kind_sequential _) files
                  break_loop (break_pause env) 1 s0) as H1.
    destruct (for_files cfg files env 1 files s0) as [t1 [[] s1|e1 s1]] eqn:Hl.
    + right. destruct (finally_eq s1) as [s' Hf]. rewrite Hf.
      exists t0, s0, t1, (Val tt s1), Loop_exhausted, s'. auto.
    + destruct (finally_eq s1) as [s' Hf]. rewrite Hf.
      destruct e1; try discriminate H1;
        try (right; eexists t0, s0, t1, (Exc _ s1), _, s';
             repeat split; (reflexivity || discriminate || exact Hf || exact Hl)).
      left. now exists t0, s0, t1, s1.
  - left. now exists t0, e0, s0.
Qed.

(** Every run has the trace of its exit. *)
Lemma run_shape s t e s' :
  run cfg files env s = (t, (e, s')) -> run_trace e t.
Proof.
  intros Hrun.
  pose proof (before_loop_spec done_sequential done_init s) as H0.
  destruct (run_cases s) as
    [(t0 & e0 & s0 & Hi & Hk & Hr)
    |[(t0 & s0 & t1 & s1 & Hi & Hl & Hr)
     |(t0 & s0 & t1 & r & e1 & s1 & Hi & Hl & Hf & Hr)]];
    rewrite Hr in Hrun; inversion Hrun; subst; clear Hrun; rewrite Hi in H0.
  - destruct e; try discriminate Hk; exact H0.
  - pose proof (for_files_spec cfg files env done_sequential files
                  done_loop (done_pause env) 1 s0) as H1.
    rewrite Hl in H1. now apply (seq_exit _ _ done_sequential).
  - pose proof (for_files_spec cfg files env done_sequential files
                  done_loop (done_pause env) 1 s0) as H1.
    rewrite Hl in H1. destruct r as [[] s2|e2 s2].
    + destruct Hf as [-> _]. cbn. exists (t0 ++ t1). split.
      * now apply (seq_app _ _ done_sequential).
      * now rewrite app_assoc.
    + destruct Hf as (-> & Hb & Hk & _).
      assert (H2 : exit_trace e2 (t0 ++ t1))
        by now apply (seq_exit _ _ done_sequential).
      rewrite app_assoc.
      destruct e2; try discriminate Hk; try contradiction; cbn;
        try (exists (t0 ++ t1); now split).
Qed.

End Run.

(** ** Every exit is taken by some run *)

Example exit_loop_exhausted :
  snd (run paced ["a"; "b"; "c"] calm init) =
    (Loop_exhausted,
     {| _stop := false; reply_q := []; now := 27%nat; slept := 4%nat;
        transport := Some 0%nat; connects := 1%nat; closed := true |}).
Proof. vm_compute. reflexivity. Qed.

Example exit_return_initial_delay :
  run scheduled ["a"] (click_at 2 calm) init =
    ([Log (Msg_scheduled 1); Timer "⏳ Starting in  01m 00s";
      Log Msg_stopped_initial_delay; Done false],
     (Return_initial_delay,
      {| _stop := true; reply_q := [false]; now := 3%nat; slept := 1%nat;
         transport := None; connects := 0%nat; closed := false |})).
Proof. vm_compute. reflexivity. Qed.

Example exit_return_connect_failed :
  fst (run plain ["a"] (offline_from 0 calm) init) =
    [Log (Msg_connecting "example.org" "22");
     Log (Msg_connection_failed "timed out"); Done false] /\
  fst (snd (run plain ["a"] (offline_from 0 calm) init)) = Return_connect_failed.
Proof. vm_compute. split; reflexivity. Qed.

Example exit_break_stopped :
  fst (run plain ["a"; "b"] (click_at 4 calm) init) =
    [Log (Msg_connecting "example.org" "22"); Log (Msg_connected "/home/user");
     Log (Msg_uploading 1 2 "a" "upload/a"); Log (Msg_upload_done 1 2);
     Log Msg_stopped_by_user; Done true] /\
  fst (snd (run plain ["a"; "b"] (click_at 4 calm) init)) = Break_stopped.
Proof. vm_compute. split; reflexivity. Qed.

Example exit_break_reconnect_failed :
  fst (run plain ["a"; "b"] (offline_from 6 calm) init) =
    [Log (Msg_connecting "example.org" "22"); Log (Msg_connected "/home/user");
     Log (Msg_uploading 1 2 "a" "upload/a"); Log (Msg_upload_done 1 2);
     Log Msg_connection_lost; Log (Msg_reconnect_failed "timed out");
     Done true] /\
  fst (snd (run plain ["a"; "b"] (offline_from 6 calm) init)) = Break_reconnect_failed.
Proof. vm_compute. split; reflexivity. Qed.

Example exit_break_declined :
  fst (run paced ["a"; "b"; "c"] (answering (Some false) calm) init) =
    [Log (Msg_connecting "example.org" "22"); Log (Msg_connected "/home/user");
     Log (Msg_uploading 1 3 "a" "upload/a"); Log (Msg_upload_done 1 3);
     Timer "⏱  Next upload in  00m 02s  [2]";
     Timer "⏱  Next upload in  00m 01s  [2]"; Timer EmptyString; Timer EmptyString;
     Log (Msg_uploading 2 3 "b" "upload/b"); Log (Msg_upload_done 2 3);
     Log (Msg_test_batch_done 2); Confirm; Log Msg_stopped_after_test;
     Done true] /\
  fst (snd (run paced ["a"; "b"; "c"] (answering (Some false) calm) init)) = Break_declined.
Proof. vm_compute. split; reflexivity. Qed.

Example exit_break_sleep :
  fst (run paced ["a"; "b"; "c"] (click_at 8 calm) init) =
    [Log (Msg_connecting "example.org" "22"); Log (Msg_connected "/home/user");
     Log (Msg_uploading 1 3 "a" "upload/a"); Log (Msg_upload_done 1 3);
     Timer "⏱  Next upload in  00m 02s  [2]"; Done true] /\
  fst (snd (run paced ["a"; "b"; "c"] (click_at 8 calm) init)) = Break_sleep.
Proof. vm_compute. split; reflexivity. Qed.

Example exit_break_reconnect_after_delay :
  fst (snd (run slow ["a"; "b"] (offline_from 100 calm) init)) =
    Break_reconnect_after_delay.
Proof. vm_compute. reflexivity. Qed.

Example exit_blocked :
  fst (run paced ["a"; "b"; "c"] (answering None calm) init) =
    [Log (Msg_connecting "example.org" "22"); Log (Msg_connected "/home/user");
     Log (Msg_uploading 1 3 "a" "upload/a"); Log (Msg_upload_done 1 3);
     Timer "⏱  Next upload in  00m 02s  [2]";
     Timer "⏱  Next upload in  00m 01s  [2]"; Timer EmptyString; Timer EmptyString;
     Log (Msg_uploading 2 3 "b" "upload/b"); Log (Msg_upload_done 2 3);
     Log (Msg_test_batch_done 2); Confirm] /\
  fst (snd (run paced ["a"; "b"; "c"] (answering None calm) init)) = Blocked.
Proof. vm_compute. split; reflexivity. Qed.

(** ** The terminal event *)

Lemma app_last_inj {A} (l1 l2 : list A) (a b : A) :
  l1 ++ [a] = l2 ++ [b] -> l1 = l2 /\ a = b.
Proof. intros H. apply app_inj_tail in H. exact H. Qed.

(** A run that does not block ends with exactly one [("done", b)], and
    [b] is [False] exactly for the two [return] statements. *)
Lemma no_done_snoc (t : list Event) (e : Event) :
  count is_done t = 0%nat -> is_done e = false -> no_done (t ++ [e]).
Proof.
  intros H He. unfold no_done. rewrite count_app, H. unfold count. cbn.
  now rewrite He.
Qed.

Lemma run_terminal cfg files env s t e s' :
  run cfg files env s = (t, (e, s')) -> e <> Blocked ->
  exists t0, no_done t0 /\ t = t0 ++ [Done (negb (is_return e))].
Proof.
  intros Hrun Hb. apply run_shape in Hrun.
  destruct e; unfold run_trace, exit_trace in Hrun; try contradiction;
    cbn [is_return negb].
  - destruct Hrun as (t0 & H0 & ->).
    exists (t0 ++ [Log Msg_stopped_initial_delay]). split.
    + now apply no_done_snoc.
    + now rewrite <- app_assoc.
  - destruct Hrun as (t0 & exc & H0 & ->).
    exists (t0 ++ [Log (Msg_connection_failed exc)]). split.
    + now apply no_done_snoc.
    + now rewrite <- app_assoc.
  - destruct Hrun as (t1 & (t0 & H0 & ->) & ->). eexists. split; [|reflexivity].
    now apply no_done_snoc.
  - destruct Hrun as (t1 & (t0 & exc & H0 & ->) & ->). eexists. split; [|reflexivity].
    now apply no_done_snoc.
  - destruct Hrun as (t1 & (t0 & H0 & ->) & ->). eexists. split; [|reflexivity].
    now apply no_done_snoc.
  - destruct Hrun as (t1 & H0 & ->). eexists. split; [|reflexivity]. exact H0.
  - destruct Hrun as (t1 & (t0 & exc & H0 & ->) & ->). eexists. split; [|reflexivity].
    now apply no_done_snoc.
  - destruct Hrun as (t0 & H0 & ->). now exists t0.
Qed.



(** ** Stop requests *)

Lemma stop_clicks_land (k : nat) (s : State) :
  _stop (Nat.iter k App_stop s) = (if Nat.eqb k 0 then _stop s else true) /\
  reply_q (Nat.iter k App_stop s) = reply_q s ++ repeat false k /\
  now (Nat.iter k App_stop s) = now s /\
  slept (Nat.iter k App_stop s) = slept s /\
  transport (Nat.iter k App_stop s) = transport s /\
  connects (Nat.iter k App_stop s) = connects s /\
  closed (Nat.iter k App_stop s) = closed s.
Proof.
  induction k as [|k IH].
  - cbn. now rewrite app_nil_r.
  - destruct IH as (_ & Hq & Hn & Hs & Ht & Hc & Hd).
    change (Nat.iter (S k) App_stop s) with (App_stop (Nat.iter k App_stop s)).
    destruct (Nat.iter k App_stop s) as [f q n sl tr c cl]. cbn in *. subst.
    repeat split.
    rewrite <- app_assoc. f_equal.
    change (false :: repeat false k) with (repeat false (S k)).
    now rewrite <- repeat_cons.
Qed.

Section Land.

Variable env : Env.

Lemma land_now s : now (land env s) = S (now s).
Proof. reflexivity. Qed.

Lemma land_slept s : slept (land env s) = slept s.
Proof. unfold land. cbn. apply stop_clicks_land. Qed.

Lemma land_transport s : transport (land env s) = transport s.
Proof. unfold land. cbn. apply stop_clicks_land. Qed.

Lemma land_connects s : connects (land env s) = connects s.
Proof. unfold land. cbn. apply stop_clicks_land. Qed.

Lemma land_closed s : closed (land env s) = closed s.
Proof. unfold land. cbn. apply stop_clicks_land. Qed.

Lemma land_stop s :
  _stop (land env s) =
    (if Nat.eqb (stop_clicks env (now s)) 0 then _stop s else true).
Proof. unfold land. cbn. apply stop_clicks_land. Qed.

Lemma land_reply_q s :
  reply_q (land env s) = reply_q s ++ repeat false (stop_clicks env (now s)).
Proof. unfold land. cbn. apply stop_clicks_land. Qed.

(** The flag is never lowered. *)
Lemma land_stop_mono s : _stop s = true -> _stop (land env s) = true.
Proof. intros H. rewrite land_stop, H. now destruct (Nat.eqb _ 0). Qed.

End Land.

(** ** An empty file list *)

Lemma silent_sequential (p : Event -> bool) :
  Sequential (fun t => count p t = 0%nat) (fun _ _ => True).
Proof.
  split; try easy. intros t1 t2 H1 H2. rewrite count_app. lia.
Qed.

Lemma init_no_per_file :
  Init_leaves (fun t => count per_file t = 0%nat) (fun _ _ => True).
Proof.
  split; try easy. intros m Hm. now destruct m.
Qed.

(** C7.  With an empty file list and a successful initial connect, the
    loop makes no iteration: after the events of the delay and of the
    connect, none of which is a per-file event, the run puts
    [("done", True)] and nothing else. *)
Theorem empty_file_list cfg env s t0 s0 :
  (initial_delay cfg env ;; initial_connect cfg env) s = (t0, Val tt s0) ->
  for_files cfg [] env 1 [] s0 = ([], Val tt s0) /\
  exists s',
    run cfg [] env s = (t0 ++ [Done true], (Loop_exhausted, s')) /\
    count is_done (t0 ++ [Done true]) = 1%nat /\
    count per_file (t0 ++ [Done true]) = 0%nat /\
    connects s' = connects s0 /\ slept s' = slept s0.
Proof.
  intros Hi. split; [reflexivity|].
  unfold run. rewrite Hi. cbn [for_files ret].
  unfold finally_, close_session, bind, tick, emit. cbn [app].
  eexists. split; [reflexivity|].
  pose proof (before_loop_spec cfg env done_sequential done_init s) as Hd.
  pose proof (before_loop_spec cfg env (silent_sequential per_file)
                init_no_per_file s) as Hp.
  rewrite Hi in Hd, Hp. repeat split.
  - rewrite count_app, Hd. reflexivity.
  - rewrite count_app, Hp. reflexivity.
  - cbn [connects set_closed]. now rewrite !land_connects.
  - cbn [slept set_closed]. now rewrite !land_slept.
Qed.

Lemma empty_file_list_witness :
  exists s',
    run plain [] calm init =
      ([Log (Msg_connecting "example.org" "22"); Log (Msg_connected "/home/user")]
         ++ [Done true], (Loop_exhausted, s')).
Proof.
  destruct (empty_file_list plain calm init
              [Log (Msg_connecting "example.org" "22");
               Log (Msg_connected "/home/user")]
              {| _stop := false; reply_q := []; now := 2%nat; slept := 0%nat;
                 transport := Some 0%nat; connects := 1%nat; closed := false |})
    as (_ & s' & H & _).
  - vm_compute. reflexivity.
  - exists s'. exact H.
Defined.

(** ** The countdown wait *)

Section Countdown.

Variable env : Env.

Lemma is_set_eq s :
  is_set env s = ([], Val (_stop (land env s)) (land env s)).
Proof. reflexivity. Qed.

Lemma wait1_eq s :
  wait1 env s = ([], Val tt (set_slept (S (slept (land env s))) (land env s))).
Proof. reflexivity. Qed.

Lemma land_stop_true s :
  _stop (land env s) = true <->
  _stop s = true \/ stop_clicks env (now s) <> 0%nat.
Proof.
  rewrite land_stop. destruct (Nat.eqb_spec (stop_clicks env (now s)) 0).
  - intuition congruence.
  - intuition.
Qed.

Lemma sleep_loop_step seconds prefix total n elapsed s :
  truthy prefix = true ->
  sleep_loop env seconds prefix total elapsed (S n) s =
    if _stop (land env s) then ([], Val false (land env s))
    else
      let (t, r) :=
        sleep_loop env seconds prefix total (elapsed + 1) n
          (set_slept (S (slept (land env (land env s)))) (land env (land env s))) in
      (Timer (countdown_text prefix (seconds - elapsed) total) :: t, r).
Proof.
  intros Hp. cbn [sleep_loop]. rewrite Hp.
  unfold bind at 1. rewrite is_set_eq.
  destruct (_stop (land env s)); [reflexivity|].
  unfold bind at 1. unfold _timer, emit. unfold bind at 1. rewrite wait1_eq.
  now destruct (sleep_loop env seconds prefix total (elapsed + 1) n _) as [t r].
Qed.

(** The [for] loop of [_sleep]: it shows [j] labels and either completes
    its [n] seconds, or returns early at the first of its [n] checks made
    after Stop was pressed. *)
Lemma sleep_loop_run seconds prefix total :
  truthy prefix = true ->
  forall n elapsed s,
  exists j b s',
    sleep_loop env seconds prefix total elapsed n s =
      (countdown prefix total seconds elapsed j, Val b s') /\
    slept s' = (slept s + j)%nat /\
    connects s' = connects s /\ transport s' = transport s /\
    closed s' = closed s /\
    (if b then j = n /\ now s' = (now s + 2 * n)%nat
     else (j < n)%nat /\ now s' = (now s + 2 * j + 1)%nat /\ _stop s' = true) /\
    (b = false <->
     (0 < n)%nat /\
     (_stop s = true \/ clicked env (now s) (now s + 2 * n - 2))).
Proof.
  intros Hp. induction n as [|n IH]; intros elapsed s.
  - exists 0%nat, true, s. cbn. repeat split; try lia; try easy.
  - rewrite (sleep_loop_step _ _ _ _ _ _ Hp).
    destruct (_stop (land env s)) eqn:Hflag.
    + exists 0%nat, false, (land env s).
      cbn [countdown].
      rewrite land_slept, land_connects, land_transport, land_closed, land_now.
      repeat split; try lia; try easy.
      apply land_stop_true in Hflag. destruct Hflag as [Hf|Hf]; [now left|right].
      exists (now s). split; [lia|exact Hf].
    + pose (s2 := set_slept (S (slept (land env (land env s)))) (land env (land env s))).
      destruct (IH (elapsed + 1) s2) as (j & b & s' & Hrun & Hsl & Hc & Ht & Hcl & Hb & Hiff).
      exists (S j), b, s'.
      fold s2. rewrite Hrun. cbn [countdown].
      assert (Hnow2 : now s2 = (now s + 2)%nat) by (cbn; lia).
      assert (Hstop2 : _stop s2 = true <-> stop_clicks env (S (now s)) <> 0%nat).
      { unfold s2. cbn [_stop set_slept]. rewrite land_stop_true, Hflag.
        rewrite land_now. intuition discriminate. }
      assert (Hflag' : _stop s = false /\ stop_clicks env (now s) = 0%nat).
      { destruct (_stop s) eqn:E.
        - rewrite land_stop_mono in Hflag; [discriminate|exact E].
        - split; [reflexivity|].
          destruct (Nat.eq_dec (stop_clicks env (now s)) 0) as [H|H]; [exact H|].
          assert (_stop (land env s) = true) by (apply land_stop_true; now right).
          congruence. }
      destruct Hflag' as [Hs0 Hc0].
      repeat split.
      * rewrite Hsl. unfold s2. cbn [slept set_slept].
        rewrite !land_slept. lia.
      * rewrite Hc. unfold s2. cbn [connects set_slept].
        now rewrite !land_connects.
      * rewrite Ht. unfold s2. cbn [transport set_slept].
        now rewrite !land_transport.
      * rewrite Hcl. unfold s2. cbn [closed set_slept].
        now rewrite !land_closed.
      * destruct b.
        -- destruct Hb as [-> ->]. split; lia.
        -- destruct Hb as (Hj & -> & Hst). repeat split; try lia. exact Hst.
      * lia.
      * apply Hiff in H. destruct H as (Hn & [H|(i & Hi & Hci)]).
        -- right. exists (S (now s)). split; [lia|]. now apply Hstop2.
        -- right. exists i. split; [lia|exact Hci].
      * intros (_ & [H|(i & Hi & Hci)]); [congruence|].
        apply Hiff.
        destruct (Nat.eq_dec i (now s)) as [->|Hne]; [congruence|].
        destruct (Nat.eq_dec i (S (now s))) as [->|Hne'].
        -- split; [lia|]. left. now apply Hstop2.
        -- split; [lia|]. right. exists i. split; [lia|exact Hci].
Qed.

Lemma countdown_not_clear prefix total seconds j : forall elapsed,
  truthy prefix = true ->
  count is_clear (countdown prefix total seconds elapsed j) = 0%nat.
Proof.
  induction j as [|j IH]; intros elapsed Hp; [reflexivity|].
  cbn [countdown].
  change (Timer ?x :: ?l) with ([Timer x] ++ l).
  rewrite count_app, (IH _ Hp).
  destruct prefix as [|c p]; [discriminate|reflexivity].
Qed.

(** [_sleep]: the labels of the seconds waited, then the empty label if
    and only if the wait ran to its end. *)
Lemma _sleep_run seconds prefix total s :
  truthy prefix = true ->
  exists j (b : bool) s',
    _sleep env seconds prefix total s =
      (countdown prefix total seconds 0 j ++ (if b then [Timer EmptyString] else []),
       Val b s') /\
    slept s' = (slept s + j)%nat /\
    connects s' = connects s /\ transport s' = transport s /\
    closed s' = closed s /\
    (if b then j = Z.to_nat seconds /\ now s' = (now s + 2 * j)%nat
     else (j < Z.to_nat seconds)%nat /\ now s' = (now s + 2 * j + 1)%nat /\
          _stop s' = true) /\
    (b = false <->
     (0 < Z.to_nat seconds)%nat /\
     (_stop s = true \/ clicked env (now s) (now s + 2 * Z.to_nat seconds - 2))).
Proof.
  intros Hp.
  destruct (sleep_loop_run seconds prefix total Hp (Z.to_nat seconds) 0 s)
    as (j & b & s' & Hrun & Hrest).
  exists j, b, s'. split; [|destruct b; intuition congruence].
  unfold _sleep. unfold bind at 1. rewrite Hrun. rewrite Hp.
  destruct b; reflexivity.
Qed.

End Countdown.

(** ** The two waits of [run] *)

Section Waits.

Variable cfg : Cfg.
Variable files : list string.
Variable env : Env.

(** The initial delay, once its wait is over. *)
Lemma initial_delay_after_wait s t (b : bool) s' :
  0 < start_delay_min cfg * 60 ->
  _sleep env (start_delay_min cfg * 60) "⏳ Starting in" 0 s = (t, Val b s') ->
  initial_delay cfg env s =
    if b
    then (Log (Msg_scheduled (start_delay_min cfg)) :: t ++ [Timer EmptyString],
          Val tt s')
    else (Log (Msg_scheduled (start_delay_min cfg)) :: t ++
            [Log Msg_stopped_initial_delay; Done false],
          Exc Return_initial_delay s').
Proof.
  intros HD Hsleep. unfold initial_delay.
  rewrite (proj2 (Z.ltb_lt _ _) HD).
  unfold bind at 1. unfold _log at 1, emit at 1.
  unfold bind at 1. rewrite Hsleep. destruct b; reflexivity.
Qed.

Lemma initial_delay_skipped s :
  start_delay_min cfg * 60 <= 0 -> initial_delay cfg env s = ([], Val tt s).
Proof.
  intros HD. unfold initial_delay.
  now rewrite (proj2 (Z.ltb_ge _ _) HD).
Qed.

(** The inter-file delay does nothing unless [delay] is not zero, files
    remain and the flag is down. *)
Lemma inter_file_delay_skipped idx s :
  delay_ cfg = 0 \/ total_ files <= idx ->
  inter_file_delay cfg files env idx s = ([], Val tt s).
Proof.
  intros H. unfold inter_file_delay.
  destruct (Z.eqb_spec (delay_ cfg) 0) as [E|E]; [reflexivity|].
  destruct (Z.ltb_spec idx (total_ files)); [lia|reflexivity].
Qed.

Lemma inter_file_delay_stopped idx s :
  delay_ cfg <> 0 -> idx < total_ files -> _stop (land env s) = true ->
  inter_file_delay cfg files env idx s = ([], Val tt (land env s)).
Proof.
  intros Hd Hi Hs. unfold inter_file_delay.
  rewrite (proj2 (Z.eqb_neq _ _) Hd), (proj2 (Z.ltb_lt _ _) Hi).
  cbn [negb andb]. unfold bind at 1. rewrite is_set_eq, Hs. reflexivity.
Qed.

(** The inter-file delay, once its wait is over. *)
Lemma inter_file_delay_after_wait idx s t (b : bool) s' :
  delay_ cfg <> 0 -> idx < total_ files -> _stop (land env s) = false ->
  _sleep env (delay_ cfg) "⏱  Next upload in" (idx + 1) (land env s) =
    (t, Val b s') ->
  inter_file_delay cfg files env idx s =
    if b
    then (t ++ Timer EmptyString :: fst (reconnect_after_delay cfg env s'),
          snd (reconnect_after_delay cfg env s'))
    else (t, Exc Break_sleep s').
Proof.
  intros Hd Hi Hs Hsleep. unfold inter_file_delay.
  rewrite (proj2 (Z.eqb_neq _ _) Hd), (proj2 (Z.ltb_lt _ _) Hi).
  cbn [negb andb]. unfold bind at 1. rewrite is_set_eq, Hs. cbn [negb app].
  unfold bind at 1. rewrite Hsleep. destruct b; cbn [negb].
  - unfold bind at 1. unfold _timer, emit.
    destruct (reconnect_after_delay cfg env s') as [t2 r2]. cbn.
    reflexivity.
  - cbn. now rewrite app_nil_r.
Qed.

End Waits.

(** C5 as stated fails: Stop is pressed during the first second of a
    one-minute initial delay.  The wait is interrupted after its first
    label, and neither [_sleep] nor the rest of the run puts an empty
    timer event: the label "01m 00s" is the last timer event of the run. *)
Lemma interrupted_wait_leaves_label :
  _sleep (click_at 1 calm) 60 "⏳ Starting in" 0 init =
    ([Timer "⏳ Starting in  01m 00s"],
     Val false
       {| _stop := true; reply_q := [false]; now := 3%nat; slept := 1%nat;
          transport := None; connects := 0%nat; closed := false |}) /\
  fst (run scheduled ["a"] (click_at 1 calm) init) =
    [Log (Msg_scheduled 1); Timer "⏳ Starting in  01m 00s";
     Log Msg_stopped_initial_delay; Done false] /\
  count is_clear (fst (run scheduled ["a"] (click_at 1 calm) init)) = 0%nat.
Proof. vm_compute. repeat split. Qed.

(** ** Stop during the initial delay *)




(** ** One file *)

Section OneFile.

Variable cfg : Cfg.
Variable files : list string.
Variable env : Env.

(** What [upload] does, case by case: the file is missing; the session is
    alive; the session is lost and the reconnect fails, or succeeds. *)
Lemma upload_eq idx fpath s :
  upload cfg files env idx fpath s =
    let s1 := land env s in
    let fname := basename env fpath in
    if negb (path_exists env (now s) fpath) then
      ([Log (Msg_skip idx (total_ files) fname)], Val tt s1)
    else if active env (now s1) then
      ([Log (Msg_uploading idx (total_ files) fname (remote_path_of cfg env fpath));
        Log (upload_outcome files idx
               (put_raises env (S (now s1)) fpath (remote_path_of cfg env fpath)))],
       Val tt (land env (land env s1)))
    else
      match connect_raises env (S (now s1)) with
      | Some exc =>
          ([Log Msg_connection_lost; Log (Msg_reconnect_failed exc)],
           Exc Break_reconnect_failed (count_connect (land env (land env s1))))
      | None =>
          ([Log Msg_connection_lost; Log Msg_reconnected;
            Log (Msg_uploading idx (total_ files) fname (remote_path_of cfg env fpath));
            Log (upload_outcome files idx
                   (put_raises env (S (S (now s1))) fpath (remote_path_of cfg env fpath)))],
           Val tt (land env (set_session (S (now s1))
                               (count_connect (land env (land env s1))))))
      end.
Proof.
  unfold remote_path_of, upload_outcome.
  cbv beta iota zeta delta
    [upload bind os_path_exists is_active _connect sftp_put tick ret _log emit
     exit_with].
  destruct (path_exists env (now s) fpath); cbn [negb]; cbv beta iota zeta;
    rewrite ?land_now; try reflexivity.
  destruct (active env (S (now s))); cbn [negb app]; cbv beta iota zeta;
    rewrite ?land_now.
  - destruct (put_raises env _ fpath _); reflexivity.
  - destruct (connect_raises env (S (S (now s)))); cbv beta iota zeta;
      try reflexivity.
    cbn [app now set_session count_connect]. rewrite ?land_now.
    destruct (put_raises env _ fpath _); reflexivity.
Qed.

Lemma iteration_eq idx fpath s :
  iteration cfg files env idx fpath s =
    if _stop (land env s)
    then ([Log Msg_stopped_by_user], Exc Break_stopped (land env s))
    else
      (upload cfg files env idx fpath ;;
       test_batch_pause cfg env idx ;;
       inter_file_delay cfg files env idx) (land env s).
Proof.
  unfold iteration. unfold bind at 1. rewrite is_set_eq.
  destruct (_stop (land env s)); [reflexivity|].
  cbn [app]. now destruct ((_ ;; _) (land env s)).
Qed.

(** The part of an iteration that follows the upload. *)
Lemma iteration_after_upload idx fpath s t s1 :
  _stop (land env s) = false ->
  upload cfg files env idx fpath (land env s) = (t, Val tt s1) ->
  iteration cfg files env idx fpath s =
    (t ++ fst ((test_batch_pause cfg env idx ;;
                inter_file_delay cfg files env idx) s1),
     snd ((test_batch_pause cfg env idx ;;
           inter_file_delay cfg files env idx) s1)).
Proof.
  intros Hs Hu. rewrite iteration_eq, Hs.
  now rewrite (bind_run_val _ _ _ _ _ _ Hu).
Qed.

(** The test-batch pause: nothing unless [idx] is the test count; else the
    request for confirmation, and what the reply decides. *)
Lemma test_batch_pause_skipped idx s :
  test_count cfg = 0 \/ idx <> test_count cfg ->
  test_batch_pause cfg env idx s = ([], Val tt s).
Proof.
  intros H. unfold test_batch_pause.
  destruct (Z.eqb_spec (test_count cfg) 0) as [E|E]; [reflexivity|].
  destruct (Z.eqb_spec idx (test_count cfg)); [|reflexivity].
  destruct H; contradiction.
Qed.

Lemma test_batch_pause_eq idx s :
  test_count cfg <> 0 -> idx = test_count cfg ->
  test_batch_pause cfg env idx s =
    match reply_q_get env s with
    | (_, Val true s') =>
        ([Log (Msg_test_batch_done (test_count cfg)); Confirm; Log Msg_continuing],
         Val tt s')
    | (_, Val false s') =>
        ([Log (Msg_test_batch_done (test_count cfg)); Confirm;
          Log Msg_stopped_after_test], Exc Break_declined s')
    | (_, Exc e s') =>
        ([Log (Msg_test_batch_done (test_count cfg)); Confirm], Exc e s')
    end.
Proof.
  intros H0 ->. unfold test_batch_pause.
  rewrite (proj2 (Z.eqb_neq _ _) H0), Z.eqb_refl. cbn [negb andb].
  unfold bind at 1. unfold _log at 1, emit at 1.
  unfold bind at 1. unfold emit at 1. unfold bind at 1.
  destruct (reply_q_get_cases env s) as [(a & s' & ->)|(s' & ->)].
  - destruct a; reflexivity.
  - reflexivity.
Qed.

(** The reconnect after a long delay, case by case. *)
Lemma reconnect_after_delay_eq s :
  reconnect_after_delay cfg env s =
    if (RECONNECT_THRESH <=? delay_ cfg) && negb (active env (now s)) then
      match connect_raises env (S (now s)) with
      | None =>
          ([Log Msg_reconnecting_after_delay; Log Msg_reconnected],
           Val tt (set_session (S (now s))
                     (count_connect (land env (land env s)))))
      | Some exc =>
          ([Log Msg_reconnecting_after_delay; Log (Msg_reconnect_failed exc)],
           Exc Break_reconnect_after_delay
             (count_connect (land env (land env s))))
      end
    else
      ([], Val tt (if RECONNECT_THRESH <=? delay_ cfg then land env s else s)).
Proof.
  cbv beta iota zeta delta
    [reconnect_after_delay bind is_active _connect tick ret _log emit exit_with].
  destruct (RECONNECT_THRESH <=? delay_ cfg); cbn [andb]; [|reflexivity].
  destruct (active env (now s)); cbn [negb]; cbv beta iota zeta;
    rewrite ?land_now; [reflexivity|].
  destruct (connect_raises env (S (now s))); reflexivity.
Qed.

(** An exit taken in an iteration ends the loop; otherwise the loop goes
    on with the next file. *)
Lemma for_files_exit idx fpath fs s t e s' :
  iteration cfg files env idx fpath s = (t, Exc e s') ->
  for_files cfg files env idx (fpath :: fs) s = (t, Exc e s').
Proof. intros H. cbn [for_files]. now apply bind_run_exc. Qed.

Lemma for_files_next idx fpath fs s t s' :
  iteration cfg files env idx fpath s = (t, Val tt s') ->
  for_files cfg files env idx (fpath :: fs) s =
    (t ++ fst (for_files cfg files env (idx + 1) fs s'),
     snd (for_files cfg files env (idx + 1) fs s')).
Proof.
  intros H. cbn [for_files].
  exact (bind_run_val _ (fun _ => for_files cfg files env (idx + 1) fs) _ _ _ _ H).
Qed.

End OneFile.

(** ** A missing file *)

(** C10.  In an iteration whose file is missing, [upload] only logs the
    skip: it makes no liveness check and no upload (its one call is
    [os.path.exists]).  The test-batch pause and the inter-file delay of
    that iteration then run from there, as they do after the upload of an
    existing file; in particular the confirmation is requested when [idx]
    is the test count. *)
Theorem missing_file_keeps_pause_and_delay cfg files env idx fpath s :
  _stop (land env s) = false ->
  path_exists env (S (now s)) fpath = false ->
  upload cfg files env idx fpath (land env s) =
    ([Log (Msg_skip idx (total_ files) (basename env fpath))],
     Val tt (land env (land env s))) /\
  iteration cfg files env idx fpath s =
    (Log (Msg_skip idx (total_ files) (basename env fpath))
       :: fst ((test_batch_pause cfg env idx ;;
                inter_file_delay cfg files env idx) (land env (land env s))),
     snd ((test_batch_pause cfg env idx ;;
           inter_file_delay cfg files env idx) (land env (land env s)))) /\
  (test_count cfg <> 0 -> idx = test_count cfg ->
   exists t r,
     iteration cfg files env idx fpath s =
       (Log (Msg_skip idx (total_ files) (basename env fpath))
          :: Log (Msg_test_batch_done idx) :: Confirm :: t, r)) /\
  (forall fpath0 s0 t0 s1,
     _stop (land env s0) = false ->
     upload cfg files env idx fpath0 (land env s0) = (t0, Val tt s1) ->
     iteration cfg files env idx fpath0 s0 =
       (t0 ++ fst ((test_batch_pause cfg env idx ;;
                    inter_file_delay cfg files env idx) s1),
        snd ((test_batch_pause cfg env idx ;;
              inter_file_delay cfg files env idx) s1))).
Proof.
  intros Hs Hf.
  assert (Hu : upload cfg files env idx fpath (land env s) =
                 ([Log (Msg_skip idx (total_ files) (basename env fpath))],
                  Val tt (land env (land env s)))).
  { rewrite upload_eq. cbv zeta. rewrite land_now, Hf. reflexivity. }
  split; [exact Hu|]. split; [|split].
  - now rewrite (iteration_after_upload cfg files env idx fpath s _ _ Hs Hu).
  - intros H0 Hidx.
    rewrite (iteration_after_upload cfg files env idx fpath s _ _ Hs Hu).
    unfold bind at 1 2.
    rewrite (test_batch_pause_eq cfg env idx _ H0 Hidx). rewrite <- Hidx.
    destruct (reply_q_get env (land env (land env s))) as [t0 [[|] s1|e s1]];
      cbn [app fst snd].
    + destruct (inter_file_delay cfg files env idx s1) as [t1 r1].
      cbn [app fst snd]. eauto.
    + eauto.
    + eauto.
  - intros fpath0 s0 t0 s1 Hs0 Hu0.
    exact (iteration_after_upload cfg files env idx fpath0 s0 _ _ Hs0 Hu0).
Qed.

Lemma missing_file_keeps_pause_and_delay_witness :
  exists t r,
    iteration paced ["a"; "b"; "c"] (faulty "b" "c" calm) 2 "b" init =
      (Log (Msg_skip 2 3 "b") :: Log (Msg_test_batch_done 2) :: Confirm :: t, r).
Proof.
  destruct (missing_file_keeps_pause_and_delay paced ["a"; "b"; "c"]
              (faulty "b" "c" calm) 2 "b" init eq_refl eq_refl)
    as (_ & _ & H & _).
  apply H; [discriminate|reflexivity].
Defined.

(** ** The inter-file delay *)

(** ** A run that nothing disturbs *)

Section Undisturbed.

Variable cfg : Cfg.
Variable files : list string.
Variable env : Env.
Hypothesis Henv : undisturbed env.

Lemma attempts_app t1 t2 : attempts (t1 ++ t2) = attempts t1 ++ attempts t2.
Proof. apply flat_map_app. Qed.

Lemma land_at_rest s : at_rest s -> at_rest (land env s).
Proof.
  intros [Hs Hq]. destruct Henv as (Hc & _). split.
  - now rewrite land_stop, Hc.
  - rewrite land_reply_q, Hc, Hq. reflexivity.
Qed.

Lemma sleep_loop_undisturbed seconds prefix total n : forall elapsed s,
  truthy prefix = true -> at_rest s ->
  exists t s',
    sleep_loop env seconds prefix total elapsed n s = (t, Val true s') /\
    at_rest s' /\ attempts t = [].
Proof.
  induction n as [|n IH]; intros elapsed s Hp Hs.
  - now exists [], s.
  - rewrite (sleep_loop_step env _ _ _ _ _ _ Hp).
    pose proof (land_at_rest _ Hs) as H1. pose proof (land_at_rest _ H1) as H2.
    destruct H1 as [-> _].
    destruct (IH (elapsed + 1)
                (set_slept (S (slept (land env (land env s)))) (land env (land env s)))
                Hp H2)
      as (t & s' & -> & Hs' & Ht).
    now exists (Timer (countdown_text prefix (seconds - elapsed) total) :: t), s'.
Qed.

Lemma _sleep_undisturbed seconds prefix total s :
  truthy prefix = true -> at_rest s ->
  exists t s',
    _sleep env seconds prefix total s = (t, Val true s') /\
    at_rest s' /\ attempts t = [].
Proof.
  intros Hp Hs.
  destruct (sleep_loop_undisturbed seconds prefix total (Z.to_nat seconds) 0 s Hp Hs)
    as (t & s' & Hrun & Hs' & Ht).
  exists (t ++ [Timer EmptyString]), s'. split; [|split; [exact Hs'|]].
  - unfold _sleep. unfold bind at 1. rewrite Hrun, Hp. reflexivity.
  - now rewrite attempts_app, Ht.
Qed.

Lemma before_loop_undisturbed s :
  at_rest s ->
  exists t s',
    (initial_delay cfg env ;; initial_connect cfg env) s = (t, Val tt s') /\
    at_rest s' /\ attempts t = [].
Proof.
  intros Hs.
  assert (Hd : exists t s', initial_delay cfg env s = (t, Val tt s') /\
                 at_rest s' /\ attempts t = []).
  { destruct (Z.ltb_spec 0 (start_delay_min cfg * 60)) as [HD|HD].
    - destruct (_sleep_undisturbed (start_delay_min cfg * 60) "⏳ Starting in" 0 s
                  eq_refl Hs) as (t & s' & Hrun & Hs' & Ht).
      rewrite (initial_delay_after_wait cfg env s _ true s' HD Hrun).
      eexists _, s'. split; [reflexivity|]. split; [exact Hs'|].
      cbn [attempts flat_map attempt app]. fold (attempts (t ++ [Timer EmptyString])).
      now rewrite attempts_app, Ht.
    - rewrite initial_delay_skipped by lia. now exists [], s. }
  destruct Hd as (t & s' & Hd & Hs' & Ht).
  rewrite (bind_run_val _ _ _ _ _ _ Hd).
  destruct Henv as (_ & _ & Hconn & Hnorm).
  cbv beta iota zeta delta
    [initial_connect bind _connect sftp_normalize tick ret _log emit].
  rewrite Hconn. cbv beta iota zeta.
  cbn [now set_session count_connect]. rewrite land_now.
  destruct (Hnorm (S (now s'))) as [home ->].
  cbv beta iota zeta. cbn [fst snd app].
  eexists _, _. split; [reflexivity|]. split.
  - repeat apply land_at_rest. exact Hs'.
  - rewrite attempts_app, Ht. reflexivity.
Qed.

Lemma upload_undisturbed idx fpath s :
  at_rest s ->
  exists t s',
    upload cfg files env idx fpath s = (t, Val tt s') /\
    at_rest s' /\ attempts t = [idx].
Proof.
  intros Hs. rewrite upload_eq. cbv zeta.
  destruct Henv as (_ & _ & Hconn & _). rewrite Hconn.
  pose proof (land_at_rest _ Hs) as H1. pose proof (land_at_rest _ H1) as H2.
  pose proof (land_at_rest _ H2) as H3.
  destruct (path_exists env (now s) fpath); cbn [negb].
  - destruct (active env (now (land env s))).
    + eexists _, _. split; [reflexivity|]. split; [exact H3|].
      now destruct (put_raises env _ fpath _).
    + eexists _, _. split; [reflexivity|]. split.
      * apply land_at_rest. exact H3.
      * now destruct (put_raises env _ fpath _).
  - eexists _, _. split; [reflexivity|]. split; [exact H1|reflexivity].
Qed.

Lemma test_batch_pause_undisturbed idx s :
  at_rest s ->
  exists t s',
    test_batch_pause cfg env idx s = (t, Val tt s') /\
    at_rest s' /\ attempts t = [].
Proof.
  intros Hs.
  destruct (Z.eq_dec (test_count cfg) 0) as [E|E].
  { rewrite test_batch_pause_skipped by now left. now exists [], s. }
  destruct (Z.eq_dec idx (test_count cfg)) as [Hi|Hi].
  2: { rewrite test_batch_pause_skipped by now right. now exists [], s. }
  rewrite (test_batch_pause_eq cfg env idx s E Hi), reply_q_get_eq.
  destruct (land_at_rest _ Hs) as [H1 H2]. rewrite H2.
  destruct Henv as (_ & Hans & _). rewrite Hans.
  eexists _, _. split; [reflexivity|]. split; [|reflexivity].
  split; [exact H1|reflexivity].
Qed.

Lemma inter_file_delay_undisturbed idx s :
  at_rest s ->
  exists t s',
    inter_file_delay cfg files env idx s = (t, Val tt s') /\
    at_rest s' /\ attempts t = [].
Proof.
  intros Hs.
  destruct (Z.eq_dec (delay_ cfg) 0) as [E|E].
  { rewrite inter_file_delay_skipped by now left. now exists [], s. }
  destruct (Z.le_gt_cases (total_ files) idx) as [Hi|Hi].
  { rewrite inter_file_delay_skipped by now right. now exists [], s. }
  pose proof (land_at_rest _ Hs) as H1.
  destruct (_sleep_undisturbed (delay_ cfg) "⏱  Next upload in" (idx + 1)
              (land env s) eq_refl H1) as (t & s1 & Hrun & Hs1 & Ht).
  rewrite (inter_file_delay_after_wait cfg files env idx s _ true s1 E)
    by (lia || apply H1 || exact Hrun).
  rewrite reconnect_after_delay_eq.
  destruct Henv as (_ & _ & Hconn & _). rewrite Hconn.
  pose proof (land_at_rest _ Hs1) as H2. pose proof (land_at_rest _ H2) as H3.
  destruct ((RECONNECT_THRESH <=? delay_ cfg) && negb (active env (now s1)));
    cbn [fst snd]; eexists _, _; (split; [reflexivity|]).
  - split; [exact H3|]. rewrite attempts_app, Ht. reflexivity.
  - split; [now destruct (RECONNECT_THRESH <=? delay_ cfg)|].
    rewrite attempts_app, Ht. reflexivity.
Qed.

Lemma iteration_undisturbed idx fpath s :
  at_rest s ->
  exists t s',
    iteration cfg files env idx fpath s = (t, Val tt s') /\
    at_rest s' /\ attempts t = [idx].
Proof.
  intros Hs. pose proof (land_at_rest _ Hs) as H1.
  destruct (upload_undisturbed idx fpath _ H1) as (t1 & s1 & Hu & Hs1 & Ht1).
  destruct (test_batch_pause_undisturbed idx _ Hs1) as (t2 & s2 & Hp & Hs2 & Ht2).
  destruct (inter_file_delay_undisturbed idx _ Hs2) as (t3 & s3 & Hd & Hs3 & Ht3).
  rewrite (iteration_after_upload cfg files env idx fpath s _ _ (proj1 H1) Hu).
  rewrite (bind_run_val _ _ _ _ _ _ Hp), Hd. cbn [fst snd].
  exists (t1 ++ t2 ++ t3), s3. split; [reflexivity|]. split; [exact Hs3|].
  now rewrite !attempts_app, Ht1, Ht2, Ht3.
Qed.

Lemma for_files_undisturbed fs : forall idx s,
  at_rest s ->
  exists t s',
    for_files cfg files env idx fs s = (t, Val tt s') /\
    at_rest s' /\ attempts t = numbered idx fs.
Proof.
  induction fs as [|fpath fs IH]; intros idx s Hs.
  - now exists [], s.
  - destruct (iteration_undisturbed idx fpath s Hs) as (t1 & s1 & Hi & Hs1 & Ht1).
    destruct (IH (idx + 1) s1 Hs1) as (t2 & s2 & Hf & Hs2 & Ht2).
    rewrite (for_files_next cfg files env idx fpath fs s _ _ Hi), Hf.
    exists (t1 ++ t2), s2. split; [reflexivity|]. split; [exact Hs2|].
    now rewrite attempts_app, Ht1, Ht2.
Qed.

(** Whatever files are missing and whatever uploads fail, every file is
    handled, in order, and the run reaches the end of the list. *)
Lemma run_undisturbed s :
  at_rest s ->
  exists t s',
    run cfg files env s = (t, (Loop_exhausted, s')) /\
    attempts t = numbered 1 files.
Proof.
  intros Hs.
  destruct (before_loop_undisturbed s Hs) as (t0 & s0 & H0 & Hs0 & Ht0).
  destruct (for_files_undisturbed files 1 s0 Hs0) as (t1 & s1 & H1 & Hs1 & Ht1).
  unfold run. rewrite H0, H1.
  destruct (finally_eq env s1) as [s' ->].
  exists (t0 ++ t1 ++ [Done true]), s'. split; [reflexivity|].
  rewrite !attempts_app, Ht0, Ht1. cbn. now rewrite app_nil_r.
Qed.

End Undisturbed.

(** ** Errors *)

Lemma unattempted_sequential :
  Sequential (fun t => attempts t = []) (fun _ t => attempts t = []).
Proof.
  split; try easy.
  - intros t1 t2 H1 H2. now rewrite attempts_app, H1, H2.
  - intros e t1 t2 H1 H2. now rewrite attempts_app, H1, H2.
Qed.

Lemma unattempted_init :
  Init_leaves (fun t => attempts t = []) (fun _ t => attempts t = []).
Proof. split; try easy. intros m Hm. now destruct m. Qed.

Lemma bind_assoc {A B C} (c : M A) (k : A -> M B) (h : B -> M C) s :
  bind (bind c k) h s = bind c (fun a => bind (k a) h) s.
Proof.
  unfold bind. destruct (c s) as [t [a s1|e s1]]; [|reflexivity].
  destruct (k a s1) as [t2 [b s2|e s2]]; [|reflexivity].
  destruct (h b s2) as [t3 r]. now rewrite app_assoc.
Qed.

(** After an upload that returns, the loop goes on with the pause, the
    delay and the next file. *)
Lemma for_files_after_upload cfg files env idx fpath fs s t s1 :
  _stop (land env s) = false ->
  upload cfg files env idx fpath (land env s) = (t, Val tt s1) ->
  for_files cfg files env idx (fpath :: fs) s =
    (t ++ fst ((test_batch_pause cfg env idx ;;
                inter_file_delay cfg files env idx ;;
                for_files cfg files env (idx + 1) fs) s1),
     snd ((test_batch_pause cfg env idx ;;
           inter_file_delay cfg files env idx ;;
           for_files cfg files env (idx + 1) fs) s1)).
Proof.
  intros Hs Hu. cbn [for_files]. unfold iteration.
  rewrite bind_assoc. unfold bind at 1. rewrite is_set_eq, Hs. cbn [app].
  rewrite bind_assoc, (bind_run_val _ _ _ _ _ _ Hu), bind_assoc. reflexivity.
Qed.

(** A run in which the second file is missing and the upload of the
    third fails: all three files are handled. *)
Example per_file_errors_logged :
  fst (run plain ["a"; "b"; "c"] (faulty "b" "c" calm) init) =
    [Log (Msg_connecting "example.org" "22"); Log (Msg_connected "/home/user");
     Log (Msg_uploading 1 3 "a" "upload/a"); Log (Msg_upload_done 1 3);
     Log (Msg_skip 2 3 "b");
     Log (Msg_uploading 3 3 "c" "upload/c");
     Log (Msg_upload_error 3 3 "Permission denied");
     Done true].
Proof. vm_compute. reflexivity. Qed.

(** ** The test-batch pause *)

Lemma quiet_sequential (p : Event -> bool) :
  Sequential (fun t => count p t = 0%nat) (fun _ t => count p t = 0%nat).
Proof.
  split; try easy.
  - intros t1 t2 H1 H2. rewrite count_app. lia.
  - intros e t1 t2 H1 H2. rewrite count_app. lia.
Qed.

Lemma no_confirm_init :
  Init_leaves (fun t => count is_confirm t = 0%nat)
    (fun _ t => count is_confirm t = 0%nat).
Proof. now split. Qed.

Lemma no_confirm_loop :
  Loop_leaves (fun t => count is_confirm t = 0%nat)
    (fun _ t => count is_confirm t = 0%nat).
Proof. now split. Qed.

Section Pause.

Variable cfg : Cfg.
Variable files : list string.
Variable env : Env.

Lemma iteration_no_confirm idx fpath :
  test_count cfg = 0 \/ idx <> test_count cfg ->
  spec (fun t => count is_confirm t = 0%nat)
    (fun _ t => count is_confirm t = 0%nat)
    (iteration cfg files env idx fpath).
Proof.
  intros H. unfold iteration.
  repeat first
    [ apply spec_leave; reflexivity
    | apply upload_spec; [apply quiet_sequential|apply no_confirm_loop]
    | apply inter_file_delay_spec; [apply quiet_sequential|apply no_confirm_loop]
    | intros s; rewrite (test_batch_pause_skipped cfg env idx s H); reflexivity
    | spec_step (quiet_sequential is_confirm) ].
Qed.

(** No confirmation is requested by iterations that are all before, or
    all after, the test count. *)
Lemma for_files_no_confirm fs : forall idx,
  test_count cfg = 0 \/ test_count cfg < idx \/
  idx + Z.of_nat (List.length fs) <= test_count cfg ->
  spec (fun t => count is_confirm t = 0%nat)
    (fun _ t => count is_confirm t = 0%nat)
    (for_files cfg files env idx fs).
Proof.
  induction fs as [|fpath fs IH]; intros idx H; cbn [for_files].
  - apply (spec_ret (quiet_sequential is_confirm)).
  - cbn [List.length] in H.
    apply (spec_bind (quiet_sequential is_confirm)).
    + apply iteration_no_confirm. lia.
    + intros _. apply IH. lia.
Qed.

(** Iterating over [l1 ++ l2] is iterating over [l1], then over [l2]. *)
Lemma for_files_app l1 : forall l2 idx s,
  for_files cfg files env idx (l1 ++ l2) s =
    (for_files cfg files env idx l1 ;;
     for_files cfg files env (idx + Z.of_nat (List.length l1)) l2) s.
Proof.
  induction l1 as [|f l1 IH]; intros l2 idx s.
  - cbn [app for_files List.length]. unfold bind, ret. rewrite Z.add_0_r.
    now destruct (for_files cfg files env idx l2 s).
  - cbn [app for_files]. rewrite bind_assoc.
    destruct (iteration cfg files env idx f s) as [t [[] s1|e s1]] eqn:Hi.
    + rewrite !(bind_run_val _ _ _ _ _ _ Hi), IH.
      replace (idx + Z.of_nat (List.length (f :: l1)))
        with (idx + 1 + Z.of_nat (List.length l1)); [reflexivity|].
      cbn [List.length]. lia.
    + now rewrite !(bind_run_exc _ _ _ _ _ _ Hi).
Qed.

(** The loop from the pause of iteration [test_count] on. *)
Lemma pause_then_rest fs s :
  test_count cfg <> 0 ->
  (test_batch_pause cfg env (test_count cfg) ;;
   inter_file_delay cfg files env (test_count cfg) ;;
   for_files cfg files env (test_count cfg + 1) fs) s =
    match reply_q_get env s with
    | (_, Val true s') =>
        ([Log (Msg_test_batch_done (test_count cfg)); Confirm; Log Msg_continuing]
           ++ fst ((inter_file_delay cfg files env (test_count cfg) ;;
                    for_files cfg files env (test_count cfg + 1) fs) s'),
         snd ((inter_file_delay cfg files env (test_count cfg) ;;
               for_files cfg files env (test_count cfg + 1) fs) s'))
    | (_, Val false s') =>
        ([Log (Msg_test_batch_done (test_count cfg)); Confirm;
          Log Msg_stopped_after_test], Exc Break_declined s')
    | (_, Exc e s') =>
        ([Log (Msg_test_batch_done (test_count cfg)); Confirm], Exc e s')
    end.
Proof.
  intros H0. unfold bind at 1.
  rewrite (test_batch_pause_eq cfg env _ s H0 eq_refl).
  destruct (reply_q_get env s) as [t0 [[|] s'|e s']]; try reflexivity.
  now destruct ((inter_file_delay cfg files env (test_count cfg) ;;
                 for_files cfg files env (test_count cfg + 1) fs) s').
Qed.

Lemma rest_no_confirm fs :
  spec (fun t => count is_confirm t = 0%nat)
    (fun _ t => count is_confirm t = 0%nat)
    (inter_file_delay cfg files env (test_count cfg) ;;
     for_files cfg files env (test_count cfg + 1) fs).
Proof.
  apply (spec_bind (quiet_sequential is_confirm)).
  - apply inter_file_delay_spec; [apply quiet_sequential|apply no_confirm_loop].
  - intros _. apply for_files_no_confirm. lia.
Qed.

Lemma count_fst_no_confirm {A} (c : M A) s :
  spec (fun t => count is_confirm t = 0%nat)
    (fun _ t => count is_confirm t = 0%nat)
    c ->
  count is_confirm (fst (c s)) = 0%nat.
Proof. intros H. specialize (H s). now destruct (c s) as [t [a s'|e s']]. Qed.

End Pause.

Section PauseOnce.

Variable cfg : Cfg.
Variable files : list string.
Variable env : Env.

(** The loop, when it gets to the pause of iteration [test_count]. *)
Lemma for_files_at_pause pre fk post s0 t1 s1 t2 s2 :
  test_count cfg = Z.of_nat (List.length pre) + 1 ->
  for_files cfg files env 1 pre s0 = (t1, Val tt s1) ->
  _stop (land env s1) = false ->
  upload cfg files env (test_count cfg) fk (land env s1) = (t2, Val tt s2) ->
  for_files cfg files env 1 (pre ++ fk :: post) s0 =
    match reply_q_get env s2 with
    | (_, Val true s3) =>
        (t1 ++ t2 ++
         [Log (Msg_test_batch_done (test_count cfg)); Confirm; Log Msg_continuing]
         ++ fst ((inter_file_delay cfg files env (test_count cfg) ;;
                  for_files cfg files env (test_count cfg + 1) post) s3),
         snd ((inter_file_delay cfg files env (test_count cfg) ;;
               for_files cfg files env (test_count cfg + 1) post) s3))
    | (_, Val false s3) =>
        (t1 ++ t2 ++
         [Log (Msg_test_batch_done (test_count cfg)); Confirm;
          Log Msg_stopped_after_test], Exc Break_declined s3)
    | (_, Exc e s3) =>
        (t1 ++ t2 ++ [Log (Msg_test_batch_done (test_count cfg)); Confirm],
         Exc e s3)
    end.
Proof.
  intros Hk Hpre Hs Hu.
  assert (H0 : test_count cfg <> 0) by lia.
  rewrite for_files_app, (bind_run_val _ _ _ _ _ _ Hpre).
  replace (1 + Z.of_nat (List.length pre)) with (test_count cfg) by lia.
  rewrite (for_files_after_upload cfg files env _ fk post s1 _ _ Hs Hu).
  rewrite (pause_then_rest cfg files env post s2 H0).
  destruct (reply_q_get env s2) as [t0 [[|] s3|e s3]]; reflexivity.
Qed.

Lemma for_files_confirm_once fs : forall idx s,
  (count is_confirm (fst (for_files cfg files env idx fs s)) <= 1)%nat.
Proof.
  induction fs as [|fpath fs IH]; intros idx s; [cbn; lia|].
  destruct (Z.eq_dec (test_count cfg) 0) as [E|E].
  { rewrite (count_fst_no_confirm (for_files cfg files env idx (fpath :: fs)) s); [lia|].
    apply for_files_no_confirm. now left. }
  destruct (Z.eq_dec idx (test_count cfg)) as [->|Hne].
  - destruct (_stop (land env s)) eqn:Hs.
    + rewrite (for_files_exit cfg files env _ fpath fs s
                 [Log Msg_stopped_by_user] Break_stopped (land env s)).
      * cbn. lia.
      * now rewrite iteration_eq, Hs.
    + pose proof (upload_spec cfg files env (quiet_sequential is_confirm)
                    (test_count cfg) fpath no_confirm_loop (land env s)) as Hc.
      destruct (upload cfg files env (test_count cfg) fpath (land env s))
        as [t [[] s1|e s1]] eqn:Hu.
      * rewrite (for_files_after_upload cfg files env _ fpath fs s _ _ Hs Hu).
        rewrite (pause_then_rest cfg files env fs s1 E).
        pose proof (fun s' => count_fst_no_confirm _ s'
                      (rest_no_confirm cfg files env fs)) as Hr.
        destruct (reply_q_get env s1) as [t0 [[|] s3|e s3]];
          cbn [fst]; rewrite !count_app, ?Hr, Hc; cbn; lia.
      * rewrite (for_files_exit cfg files env _ fpath fs s t e s1).
        -- cbn [fst]. lia.
        -- rewrite iteration_eq, Hs. now apply bind_run_exc.
  - pose proof (iteration_no_confirm cfg files env idx fpath (or_intror Hne) s) as Hc.
    destruct (iteration cfg files env idx fpath s) as [t [[] s1|e s1]] eqn:Hi.
    + rewrite (for_files_next cfg files env idx fpath fs s _ _ Hi).
      cbn [fst]. rewrite count_app, Hc. apply IH.
    + rewrite (for_files_exit cfg files env idx fpath fs s _ _ _ Hi).
      cbn [fst]. lia.
Qed.

Lemma run_confirm_once s :
  (count is_confirm (fst (run cfg files env s)) <= 1)%nat.
Proof.
  pose proof (before_loop_spec cfg env (quiet_sequential is_confirm)
                no_confirm_init s) as H0.
  destruct (run_cases cfg files env s) as
    [(t0 & e0 & s0 & Hi & Hk & Hr)
    |[(t0 & s0 & t1 & s1 & Hi & Hl & Hr)
     |(t0 & s0 & t1 & r & e1 & s1 & Hi & Hl & Hf & Hr)]];
    rewrite Hr; rewrite Hi in H0; cbn [fst].
  - lia.
  - pose proof (for_files_confirm_once files 1 s0) as H1. rewrite Hl in H1.
    cbn [fst] in H1. rewrite count_app. lia.
  - pose proof (for_files_confirm_once files 1 s0) as H1. rewrite Hl in H1.
    cbn [fst] in H1. rewrite !count_app. cbn. lia.
Qed.

End PauseOnce.

(** C2, as the code has it.  A run requests confirmation at most once.
    With the test count [k] between 1 and the number of files, it does so
    exactly once when the loop gets to the pause of iteration [k], that is
    when the run has not ended before (the first [k - 1] iterations have
    returned, the flag is down at the top of iteration [k] and the upload
    of file [k] has returned): the request comes right after the events of
    that upload and the log "Test batch done".  The reply [False] leaves
    the loop, and the run ends with [("done", True)]; the reply [True]
    resumes the loop with the inter-file delay of iteration [k] and the
    next file. *)
Theorem confirmation_at_test_count cfg files env :
  (forall s, (count is_confirm (fst (run cfg files env s)) <= 1)%nat) /\
  (forall pre fk post s0 t1 s1 t2 s2,
     files = pre ++ fk :: post ->
     test_count cfg = Z.of_nat (List.length pre) + 1 ->
     for_files cfg files env 1 pre s0 = (t1, Val tt s1) ->
     _stop (land env s1) = false ->
     upload cfg files env (test_count cfg) fk (land env s1) = (t2, Val tt s2) ->
     count is_confirm (t1 ++ t2) = 0%nat /\
     (forall s3,
        count is_confirm
          (fst ((inter_file_delay cfg files env (test_count cfg) ;;
                 for_files cfg files env (test_count cfg + 1) post) s3)) = 0%nat) /\
     for_files cfg files env 1 files s0 =
       match reply_q_get env s2 with
       | (_, Val true s3) =>
           (t1 ++ t2 ++
            [Log (Msg_test_batch_done (test_count cfg)); Confirm;
             Log Msg_continuing]
            ++ fst ((inter_file_delay cfg files env (test_count cfg) ;;
                     for_files cfg files env (test_count cfg + 1) post) s3),
            snd ((inter_file_delay cfg files env (test_count cfg) ;;
                  for_files cfg files env (test_count cfg + 1) post) s3))
       | (_, Val false s3) =>
           (t1 ++ t2 ++
            [Log (Msg_test_batch_done (test_count cfg)); Confirm;
             Log Msg_stopped_after_test], Exc Break_declined s3)
       | (_, Exc e s3) =>
           (t1 ++ t2 ++ [Log (Msg_test_batch_done (test_count cfg)); Confirm],
            Exc e s3)
       end /\
     count is_confirm (fst (for_files cfg files env 1 files s0)) = 1%nat /\
     (forall s t0 s3,
        (initial_delay cfg env ;; initial_connect cfg env) s = (t0, Val tt s0) ->
        reply_q_get env s2 = ([], Val false s3) ->
        exists s',
          run cfg files env s =
            (t0 ++ (t1 ++ t2 ++
                    [Log (Msg_test_batch_done (test_count cfg)); Confirm;
                     Log Msg_stopped_after_test]) ++ [Done true],
             (Break_declined, s')))).
Proof.
  split; [apply run_confirm_once|].
  intros pre fk post s0 t1 s1 t2 s2 Hfiles Hk Hpre Hs Hu.
  assert (H12 : count is_confirm (t1 ++ t2) = 0%nat).
  { assert (Hb : 1 + Z.of_nat (List.length pre) <= test_count cfg) by lia.
    pose proof (for_files_no_confirm cfg files env pre 1
                  (or_intror (or_intror Hb)) s0) as H1.
    pose proof (upload_spec cfg files env (quiet_sequential is_confirm)
                  (test_count cfg) fk no_confirm_loop (land env s1)) as H2.
    rewrite Hpre in H1. rewrite Hu in H2. rewrite count_app. lia. }
  assert (Hrest : forall s3,
            count is_confirm
              (fst ((inter_file_delay cfg files env (test_count cfg) ;;
                     for_files cfg files env (test_count cfg + 1) post) s3)) = 0%nat).
  { intros s3. apply count_fst_no_confirm, rest_no_confirm. }
  assert (Hloop := for_files_at_pause cfg files env pre fk post s0 t1 s1 t2 s2
                     Hk Hpre Hs Hu).
  rewrite <- Hfiles in Hloop.
  split; [exact H12|]. split; [exact Hrest|]. split; [exact Hloop|]. split.
  - rewrite Hloop. rewrite count_app in H12.
    destruct (reply_q_get env s2) as [t0 [[|] s3|e s3]];
      cbn [fst]; rewrite !count_app, ?Hrest; cbn; lia.
  - intros s t0 s3 Hinit Hreply. rewrite Hreply in Hloop.
    unfold run. rewrite Hinit, Hloop.
    destruct (finally_eq env s3) as [s' ->]. now exists s'.
Qed.

Lemma confirmation_at_test_count_witness :
  count is_confirm (fst (for_files paced ["a"; "b"; "c"] calm 1 ["a"; "b"; "c"]
                           (land calm (land calm init)))) = 1%nat.
Proof.
  destruct (confirmation_at_test_count paced ["a"; "b"; "c"] calm) as [_ H].
  pose proof (H ["a"] "b" ["c"] (land calm (land calm init))
              (fst (for_files paced ["a"; "b"; "c"] calm 1 ["a"]
                      (land calm (land calm init))))
              {| _stop := false; reply_q := []; now := 11%nat; slept := 2%nat;
                 transport := None; connects := 0%nat; closed := false |}
              [Log (Msg_uploading 2 3 "b" "upload/b"); Log (Msg_upload_done 2 3)]
              {| _stop := false; reply_q := []; now := 15%nat; slept := 2%nat;
                 transport := None; connects := 0%nat; closed := false |}
              eq_refl eq_refl eq_refl eq_refl eq_refl)
    as (_ & _ & _ & Hc & _).
  exact Hc.
Defined.

(** C2 as stated fails: three files, test count 2, and the initial connect
    fails.  The run ends before any file and requests no confirmation. *)
Lemma no_confirmation_when_connect_fails :
  test_count paced = 2 /\
  run paced ["a"; "b"; "c"] (offline_from 0 calm) init =
    ([Log (Msg_connecting "example.org" "22");
      Log (Msg_connection_failed "timed out"); Done false],
     (Return_connect_failed,
      {| _stop := false; reply_q := []; now := 1%nat; slept := 0%nat;
         transport := None; connects := 1%nat; closed := false |})) /\
  count is_confirm (fst (run paced ["a"; "b"; "c"] (offline_from 0 calm) init)) = 0%nat.
Proof. vm_compute. repeat split. Qed.

(** ** Two runs side by side *)

Lemma sim_ret {A} (R : State -> State -> Prop) (a : A) : sim R R (ret a) (ret a).
Proof. intros sA sB H. cbn. auto. Qed.

Lemma sim_emit (R : State -> State -> Prop) (e : Event) :
  sim R R (emit e) (emit e).
Proof. intros sA sB H. cbn. auto. Qed.

Lemma sim_exit_with {A} (R : State -> State -> Prop) (e : Exit) :
  sim R R (@exit_with A e) (exit_with e).
Proof. intros sA sB H. cbn. auto. Qed.

Lemma sim_bind {A B} (P Q R : State -> State -> Prop)
    (cA cB : M A) (kA kB : A -> M B) :
  sim P Q cA cB ->
  (forall sA sB, Q sA sB -> R sA sB) ->
  (forall a, sim Q R (kA a) (kB a)) ->
  sim P R (bind cA kA) (bind cB kB).
Proof.
  intros Hc HQR Hk sA sB HP. specialize (Hc sA sB HP). unfold bind.
  destruct (cA sA) as [tA [a sA'|e sA']], (cB sB) as [tB [b sB'|e' sB']];
    cbn in Hc; try contradiction.
  - destruct Hc as (-> & -> & HQ). specialize (Hk b sA' sB' HQ).
    destruct (kA b sA') as [tA' [a' sA2|e sA2]],
             (kB b sB') as [tB' [b' sB2|e' sB2]];
      cbn in Hk |- *; try contradiction;
      destruct Hk as (-> & -> & HR); auto.
  - destruct Hc as (-> & -> & HQ). cbn. auto.
Qed.

Lemma sim_weaken {A} (P Q Q' : State -> State -> Prop) (cA cB : M A) :
  sim P Q cA cB -> (forall sA sB, Q sA sB -> Q' sA sB) -> sim P Q' cA cB.
Proof.
  intros H HQ sA sB HP. specialize (H sA sB HP).
  destruct (cA sA) as [tA [a sA'|e sA']], (cB sB) as [tB [b sB'|e' sB']];
    cbn in H |- *; intuition.
Qed.

#[local] Arguments land : simpl never.

Section SideBySide.

Variable cfg : Cfg.
Variable files : list string.
Variables envA envB : Env.
Hypothesis Hworld : same_world envA envB.

Section Calls2.

Variable R : State -> State -> Prop.
Hypothesis HR : Compatible envA envB R.

Lemma sim_is_set : sim R R (is_set envA) (is_set envB).
Proof.
  intros sA sB H. rewrite !is_set_eq. cbn. repeat split.
  - apply (c_stop _ _ _ HR), (c_land _ _ _ HR _ _ H).
  - apply (c_land _ _ _ HR _ _ H).
Qed.

Lemma sim_wait1 : sim R R (wait1 envA) (wait1 envB).
Proof.
  intros sA sB H. rewrite !wait1_eq. cbn. repeat split.
  pose proof (c_land _ _ _ HR _ _ H) as HL.
  rewrite (c_slept _ _ _ HR _ _ HL). now apply (c_set_slept _ _ _ HR).
Qed.

Lemma sim_os_path_exists fpath :
  sim R R (os_path_exists envA fpath) (os_path_exists envB fpath).
Proof.
  intros sA sB H. cbn. destruct Hworld as (_ & He & _).
  rewrite He, (c_now _ _ _ HR _ _ H). repeat split.
  apply (c_land _ _ _ HR _ _ H).
Qed.

Lemma sim_is_active : sim R R (is_active envA) (is_active envB).
Proof.
  intros sA sB H. cbn. destruct Hworld as (_ & _ & _ & _ & _ & Ha & _).
  rewrite Ha, (c_now _ _ _ HR _ _ H). repeat split.
  apply (c_land _ _ _ HR _ _ H).
Qed.

Lemma sim__connect : sim R R (_connect envA) (_connect envB).
Proof.
  intros sA sB H. unfold _connect, bind, tick.
  destruct Hworld as (_ & _ & _ & Hc & _).
  rewrite Hc, (c_now _ _ _ HR _ _ H).
  pose proof (c_count_connect _ _ _ HR _ _ (c_land _ _ _ HR _ _ H)) as HL.
  destruct (connect_raises envA (now sB)); cbn; repeat split; try exact HL.
  now apply (c_set_session _ _ _ HR).
Qed.

Lemma sim_sftp_normalize : sim R R (sftp_normalize envA) (sftp_normalize envB).
Proof.
  intros sA sB H. cbn. destruct Hworld as (_ & _ & _ & _ & Hn & _).
  rewrite Hn, (c_now _ _ _ HR _ _ H). repeat split.
  apply (c_land _ _ _ HR _ _ H).
Qed.

Lemma sim_sftp_put fpath remote_path :
  sim R R (sftp_put envA fpath remote_path) (sftp_put envB fpath remote_path).
Proof.
  intros sA sB H. cbn. destruct Hworld as (_ & _ & _ & _ & _ & _ & Hp).
  rewrite Hp, (c_now _ _ _ HR _ _ H). repeat split.
  apply (c_land _ _ _ HR _ _ H).
Qed.

Lemma sim_close_session : sim R R (close_session envA) (close_session envB).
Proof.
  intros sA sB H. cbn. repeat split.
  apply (c_set_closed _ _ _ HR), (c_land _ _ _ HR), (c_land _ _ _ HR _ _ H).
Qed.

End Calls2.

(** One step of a proof that two runs of a piece of code do the same. *)
Ltac sim_step HR :=
  match goal with
  | |- sim ?P ?Q (bind _ _) (bind _ _) =>
      apply (sim_bind P P Q); [ | auto | intros ? ]
  | |- sim _ _ (ret _) (ret _) => apply sim_ret
  | |- sim _ _ (emit _) (emit _) => apply sim_emit
  | |- sim _ _ (_log _) (_log _) => apply sim_emit
  | |- sim _ _ (_timer _) (_timer _) => apply sim_emit
  | |- sim _ _ (exit_with _) (exit_with _) => apply sim_exit_with
  | |- sim _ _ (is_set _) (is_set _) => apply (sim_is_set _ HR)
  | |- sim _ _ (wait1 _) (wait1 _) => apply (sim_wait1 _ HR)
  | |- sim _ _ (os_path_exists _ _) (os_path_exists _ _) =>
      apply (sim_os_path_exists _ HR)
  | |- sim _ _ (is_active _) (is_active _) => apply (sim_is_active _ HR)
  | |- sim _ _ (_connect _) (_connect _) => apply (sim__connect _ HR)
  | |- sim _ _ (sftp_normalize _) (sftp_normalize _) =>
      apply (sim_sftp_normalize _ HR)
  | |- sim _ _ (sftp_put _ _ _) (sftp_put _ _ _) => apply (sim_sftp_put _ HR)
  | |- sim _ _ (close_session _) (close_session _) =>
      apply (sim_close_session _ HR)
  | |- sim _ _ (if ?b then _ else _) (if ?b then _ else _) => destruct b
  | |- sim _ _ (match ?x with _ => _ end) (match ?x with _ => _ end) =>
      destruct x
  end.

Section Pieces2.

Variable R : State -> State -> Prop.
Hypothesis HR : Compatible envA envB R.

Lemma sim_sleep_loop seconds prefix total n : forall elapsed,
  sim R R (sleep_loop envA seconds prefix total elapsed n)
          (sleep_loop envB seconds prefix total elapsed n).
Proof.
  induction n as [|n IH]; intros elapsed; cbn [sleep_loop].
  - apply sim_ret.
  - repeat first [apply IH | sim_step HR].
Qed.

Lemma sim__sleep seconds prefix total :
  sim R R (_sleep envA seconds prefix total) (_sleep envB seconds prefix total).
Proof.
  unfold _sleep. repeat first [apply sim_sleep_loop | sim_step HR].
Qed.

Lemma sim_initial_delay :
  sim R R (initial_delay cfg envA) (initial_delay cfg envB).
Proof.
  unfold initial_delay. repeat first [apply sim__sleep | sim_step HR].
Qed.

Lemma sim_initial_connect :
  sim R R (initial_connect cfg envA) (initial_connect cfg envB).
Proof.
  unfold initial_connect, connect_failed. repeat sim_step HR.
Qed.

Lemma sim_upload idx fpath :
  sim R R (upload cfg files envA idx fpath) (upload cfg files envB idx fpath).
Proof.
  unfold upload. destruct Hworld as (_ & _ & Hb & _). rewrite Hb.
  repeat sim_step HR.
Qed.

Lemma sim_reconnect_after_delay :
  sim R R (reconnect_after_delay cfg envA) (reconnect_after_delay cfg envB).
Proof.
  unfold reconnect_after_delay. repeat sim_step HR.
Qed.

Lemma sim_inter_file_delay idx :
  sim R R (inter_file_delay cfg files envA idx)
          (inter_file_delay cfg files envB idx).
Proof.
  unfold inter_file_delay.
  repeat first [apply sim__sleep | apply sim_reconnect_after_delay | sim_step HR].
Qed.

Lemma sim_test_batch_pause_skipped idx :
  test_count cfg = 0 \/ idx <> test_count cfg ->
  sim R R (test_batch_pause cfg envA idx) (test_batch_pause cfg envB idx).
Proof.
  intros H sA sB HRs. rewrite !test_batch_pause_skipped by exact H.
  cbn. auto.
Qed.

Lemma sim_finally : sim R R (finally_ envA) (finally_ envB).
Proof. unfold finally_. repeat sim_step HR. Qed.

End Pieces2.

(** An iteration, given what the two runs do at the pause. *)
Lemma sim_iteration (P Q : State -> State -> Prop) idx fpath :
  Compatible envA envB P -> Compatible envA envB Q ->
  (forall sA sB, P sA sB -> Q sA sB) ->
  sim P Q (test_batch_pause cfg envA idx) (test_batch_pause cfg envB idx) ->
  sim P Q (iteration cfg files envA idx fpath)
          (iteration cfg files envB idx fpath).
Proof.
  intros HP HQ HPQ Hpause. unfold iteration.
  apply (sim_bind P P Q); [apply (sim_is_set _ HP)|exact HPQ|].
  intros [|].
  - apply (sim_weaken P P Q); [|exact HPQ]. repeat sim_step HP.
  - apply (sim_bind P P Q); [apply (sim_upload _ HP)|exact HPQ|]. intros _.
    apply (sim_bind P Q Q); [exact Hpause|auto|]. intros _.
    apply (sim_inter_file_delay _ HQ).
Qed.

(** The loop over files that are all after the test count, or without a
    test count. *)
Lemma sim_for_files_after (R : State -> State -> Prop) fs : forall idx,
  Compatible envA envB R ->
  test_count cfg = 0 \/ test_count cfg < idx ->
  sim R R (for_files cfg files envA idx fs) (for_files cfg files envB idx fs).
Proof.
  induction fs as [|fpath fs IH]; intros idx HR H; cbn [for_files].
  - apply sim_ret.
  - apply (sim_bind R R R); [|auto|intros _; apply IH; [exact HR|lia]].
    apply sim_iteration; auto.
    apply sim_test_batch_pause_skipped. lia.
Qed.

End SideBySide.

(** ** Stop pressed again *)

Lemma repeat_false_app (a b : nat) :
  repeat false a ++ repeat false b = repeat false (a + b).
Proof. now rewrite repeat_app. Qed.

Section PressedAgain.

Variable cfg : Cfg.
Variable files : list string.
Variables envA envB : Env.
Variable n : nat.
Hypothesis Hworld : same_world envA envB.
Hypothesis Hagain : pressed_again envA envB n.

Lemma land_agree sA sB :
  agree n sA sB -> agree n (land envA sA) (land envB sB).
Proof.
  intros (Hs & Hn & Hsl & Ht & Hc & Hcl & Hinv).
  destruct Hagain as (Hcn & Hlt & Hge).
  unfold agree.
  rewrite !land_stop, !land_now, !land_slept, !land_transport, !land_connects,
    !land_closed, <- Hn, <- Hs.
  repeat split; try congruence.
  - destruct (Nat.lt_ge_cases (now sA) n) as [Hi|Hi].
    + now rewrite Hlt.
    + destruct (Nat.eq_dec (now sA) n) as [E|E].
      * specialize (Hge _ Hi). rewrite E in *.
        destruct (Nat.eqb_spec (stop_clicks envA n) 0); [contradiction|].
        destruct (Nat.eqb_spec (stop_clicks envB n) 0); [lia|reflexivity].
      * rewrite Hinv by lia.
        now destruct (Nat.eqb _ 0), (Nat.eqb _ 0).
  - intros Hi. destruct (Nat.eq_dec (now sA) n) as [E|E].
    + rewrite E. now destruct (Nat.eqb_spec (stop_clicks envA n) 0).
    + rewrite Hinv by lia. now destruct (Nat.eqb _ 0).
Qed.

Lemma agree_compatible : Compatible envA envB (agree n).
Proof.
  split; try (intros sA sB H; apply H); try apply land_agree;
    intros sA sB; intros; unfold agree in *; cbn; intuition congruence.
Qed.

Lemma land_agree_replies sA sB :
  agree_replies n sA sB -> agree_replies n (land envA sA) (land envB sB).
Proof.
  intros (Ha & Heq & Hmore). split; [now apply land_agree|].
  destruct Ha as (_ & Hn & _). destruct Hagain as (Hcn & Hlt & Hge).
  rewrite !land_reply_q, land_now, <- Hn. split.
  - intros Hi. rewrite Heq by lia. now rewrite Hlt by lia.
  - intros Hi. destruct (Nat.eq_dec (now sA) n) as [E|E].
    + rewrite Heq by lia. rewrite E in *. specialize (Hge n (le_n n)). split.
      * destruct (stop_clicks envA n); [contradiction|].
        cbn. now destruct (reply_q sB).
      * exists (stop_clicks envB n - stop_clicks envA n)%nat.
        rewrite <- app_assoc, repeat_false_app. do 2 f_equal. lia.
    + destruct Hmore as (Hne & k & Hk); [lia|]. split.
      * destruct (reply_q sA); [contradiction|discriminate].
      * exists (k + stop_clicks envB (now sA) - stop_clicks envA (now sA))%nat.
        rewrite Hk, <- !app_assoc, !repeat_false_app. do 2 f_equal.
        specialize (Hge (now sA)). lia.
Qed.

Lemma agree_replies_compatible : Compatible envA envB (agree_replies n).
Proof.
  split; try (intros sA sB H; apply H); try apply land_agree_replies;
    intros sA sB; intros; unfold agree_replies, agree in *; cbn;
    intuition congruence.
Qed.

Lemma agree_replies_agree sA sB : agree_replies n sA sB -> agree n sA sB.
Proof. now intros [H _]. Qed.

(** At the pause both runs get the same reply: the one that waits in both
    queues, or the user's answer when both queues are empty. *)
Lemma sim_reply_q_get :
  sim (agree_replies n) (agree n) (reply_q_get envA) (reply_q_get envB).
Proof.
  intros sA sB H. rewrite !reply_q_get_eq.
  pose proof (land_agree_replies _ _ H) as (Ha & Heq & Hmore).
  destruct H as ((_ & Hn & _) & _).
  destruct Hworld as (Hans & _). rewrite Hans, <- Hn.
  assert (Hset : forall qA qB,
            agree n (set_reply_q qA (land envA sA)) (set_reply_q qB (land envB sB)))
    by (intros qA qB; unfold agree in *; cbn; intuition congruence).
  destruct (Nat.lt_ge_cases n (now (land envA sA))) as [Hi|Hi].
  - destruct (Hmore Hi) as (Hne & k & Hk). rewrite Hk.
    destruct (reply_q (land envA sA)) as [|a q]; [contradiction|].
    cbn. auto.
  - rewrite <- Heq by lia.
    destruct (reply_q (land envA sA)) as [|a q]; [|cbn; auto].
    destruct (user_answer envA (now sA)); cbn; [|auto].
    split; [reflexivity|]. split; [reflexivity|]. exact (Hset [] []).
Qed.

Lemma sim_test_batch_pause idx :
  sim (agree_replies n) (agree n)
    (test_batch_pause cfg envA idx) (test_batch_pause cfg envB idx).
Proof.
  unfold test_batch_pause.
  destruct (negb (test_count cfg =? 0) && (idx =? test_count cfg)).
  - apply (sim_bind _ (agree_replies n)); [apply sim_emit|apply agree_replies_agree|].
    intros _.
    apply (sim_bind _ (agree_replies n)); [apply sim_emit|apply agree_replies_agree|].
    intros _.
    apply (sim_bind _ (agree n)); [apply sim_reply_q_get|auto|].
    intros [|]; cbn [negb].
    + apply sim_emit.
    + apply (sim_bind _ (agree n));
        [apply sim_emit|auto|intros _; apply sim_exit_with].
  - apply (sim_weaken _ (agree_replies n)); [apply sim_ret|apply agree_replies_agree].
Qed.

(** The loop, from any file on. *)
Lemma sim_for_files fs : forall idx,
  sim (agree_replies n) (agree n)
    (for_files cfg files envA idx fs) (for_files cfg files envB idx fs).
Proof.
  induction fs as [|fpath fs IH]; intros idx; cbn [for_files].
  - apply (sim_weaken _ (agree_replies n)); [apply sim_ret|apply agree_replies_agree].
  - destruct (Z.eq_dec (test_count cfg) 0) as [E|E];
      [|destruct (Z.eq_dec idx (test_count cfg)) as [Hi|Hi]].
    + apply (sim_bind _ (agree_replies n));
        [|apply agree_replies_agree|intros _; apply IH].
      apply (sim_iteration cfg files envA envB Hworld);
        auto using agree_replies_compatible.
      apply sim_test_batch_pause_skipped. now left.
    + apply (sim_bind _ (agree n)); [|auto|].
      * apply (sim_iteration cfg files envA envB Hworld);
          auto using agree_replies_compatible, agree_compatible,
            agree_replies_agree, sim_test_batch_pause.
      * intros _. apply (sim_for_files_after cfg files envA envB Hworld);
          [apply agree_compatible|lia].
    + apply (sim_bind _ (agree_replies n));
        [|apply agree_replies_agree|intros _; apply IH].
      apply (sim_iteration cfg files envA envB Hworld);
        auto using agree_replies_compatible.
      apply sim_test_batch_pause_skipped. now right.
Qed.

End PressedAgain.

Section Twice.

Variable cfg : Cfg.
Variable files : list string.

Lemma agree_own_state k sA sB : agree k sA sB -> own_state sA = own_state sB.
Proof.
  intros (H1 & H2 & H3 & H4 & H5 & H6 & _). unfold own_state. congruence.
Qed.

(** Two runs, the second with further presses of Stop once Stop has been
    pressed: same events, same exit, same state of the worker. *)
Lemma run_pressed_again envA envB k sA sB :
  same_world envA envB -> pressed_again envA envB k ->
  agree_replies k sA sB ->
  fst (run cfg files envA sA) = fst (run cfg files envB sB) /\
  fst (snd (run cfg files envA sA)) = fst (snd (run cfg files envB sB)) /\
  agree k (snd (snd (run cfg files envA sA))) (snd (snd (run cfg files envB sB))).
Proof.
  intros Hworld Hagain Hs.
  pose proof (agree_replies_compatible envA envB k Hagain) as HC.
  pose proof (agree_compatible envA envB k Hagain) as HC'.
  assert (H0 : sim (agree_replies k) (agree_replies k)
                 (initial_delay cfg envA ;; initial_connect cfg envA)
                 (initial_delay cfg envB ;; initial_connect cfg envB)).
  { apply (sim_bind _ (agree_replies k)); [|auto|intros _].
    - now apply sim_initial_delay.
    - now apply sim_initial_connect. }
  specialize (H0 sA sB Hs). unfold run.
  destruct ((initial_delay cfg envA ;; initial_connect cfg envA) sA)
    as [tA [[] sA0|eA sA0]],
    ((initial_delay cfg envB ;; initial_connect cfg envB) sB)
    as [tB [[] sB0|eB sB0]]; cbn in H0; try contradiction.
  - destruct H0 as (-> & _ & H0).
    pose proof (sim_for_files cfg files envA envB k Hworld Hagain files 1
                  sA0 sB0 H0) as H1.
    destruct (for_files cfg files envA 1 files sA0) as [tA1 [[] sA1|eA1 sA1]],
      (for_files cfg files envB 1 files sB0) as [tB1 [[] sB1|eB1 sB1]];
      cbn in H1; try contradiction; destruct H1 as (-> & He & H1).
    + pose proof (sim_finally envA envB _ HC' sA1 sB1 H1) as H2.
      destruct (finally_eq envA sA1) as [sA2 EA], (finally_eq envB sB1) as [sB2 EB].
      rewrite EA, EB in H2 |- *. cbn in H2 |- *. intuition.
    + subst eB1.
      pose proof (sim_finally envA envB _ HC' sA1 sB1 H1) as H2.
      destruct (finally_eq envA sA1) as [sA2 EA], (finally_eq envB sB1) as [sB2 EB].
      rewrite EA, EB in H2 |- *. cbn in H2.
      destruct eA1; cbn; intuition.
  - destruct H0 as (-> & -> & H0). cbn.
    split; [reflexivity|]. split; [reflexivity|].
    now apply agree_replies_agree.
Qed.

Lemma click_at_same_world m env : same_world env (click_at m env).
Proof. now repeat split. Qed.

Lemma click_at_pressed_again k m env :
  stop_clicks env k <> 0%nat -> (k <= m)%nat ->
  pressed_again env (click_at m env) k.
Proof.
  intros Hk Hkm. split; [exact Hk|]. split; intros i Hi; cbn.
  - destruct (Nat.eqb_spec i m); [lia|reflexivity].
  - destruct (Nat.eqb_spec i m); lia.
Qed.

End Twice.

(** C9.  [UploadWorker.stop] only raises the flag: calling it twice gives
    the state that calling it once gives.  [App._stop] also puts [False] on
    [reply_q], the queue of the GUI's replies: a second call leaves the
    worker's own state as it is and makes one more reply wait.  For a run
    in which Stop is pressed during the worker's call number [n] and
    again during its call number [m], at the same point or later, the
    events put on the queues, the way the run ends and the worker's own
    state at the end are those of the run with the first press alone. *)
Theorem cancel_twice cfg files env n m s :
  stop_clicks env n <> 0%nat -> (n <= m)%nat -> (now s <= n)%nat ->
  stop (stop s) = stop s /\
  own_state (App_stop (App_stop s)) = own_state (App_stop s) /\
  reply_q (App_stop (App_stop s)) = reply_q (App_stop s) ++ [false] /\
  fst (run cfg files (click_at m env) s) = fst (run cfg files env s) /\
  fst (snd (run cfg files (click_at m env) s)) = fst (snd (run cfg files env s)) /\
  own_state (snd (snd (run cfg files (click_at m env) s))) =
    own_state (snd (snd (run cfg files env s))).
Proof.
  intros Hn Hnm Hs. repeat split.
  all: destruct (run_pressed_again cfg files env (click_at m env) n s s
                   (click_at_same_world m env)
                   (click_at_pressed_again n m env Hn Hnm))
         as (Ht & He & Hst);
    [ repeat split; intros; lia | .. ]; auto.
  symmetry. exact (agree_own_state _ _ _ Hst).
Qed.

Lemma cancel_twice_witness :
  fst (run paced ["a"; "b"; "c"] (click_at 7 (click_at 5 calm)) init) =
    fst (run paced ["a"; "b"; "c"] (click_at 5 calm) init) /\
  own_state (snd (snd (run paced ["a"; "b"; "c"] (click_at 7 (click_at 5 calm)) init))) =
    own_state (snd (snd (run paced ["a"; "b"; "c"] (click_at 5 calm) init))).
Proof.
  destruct (cancel_twice paced ["a"; "b"; "c"] (click_at 5 calm) 5 7 init)
    as (_ & _ & _ & Ht & _ & Hs).
  - discriminate.
  - lia.
  - cbn. lia.
  - split; [exact Ht|exact Hs].
Defined.

(** The two runs of the witness: Stop is pressed during the upload of the
    first file, and again before the flag is read at the top of the loop;
    the first run leaves one reply [False] in the queue, the second two. *)
Example cancel_twice_runs :
  run paced ["a"; "b"; "c"] (click_at 5 calm) init =
    ([Log (Msg_connecting "example.org" "22"); Log (Msg_connected "/home/user");
      Log (Msg_uploading 1 3 "a" "upload/a"); Log (Msg_upload_done 1 3);
      Log Msg_stopped_by_user; Done true],
     (Break_stopped,
      {| _stop := true; reply_q := [false]; now := 10%nat; slept := 0%nat;
         transport := Some 0%nat; connects := 1%nat; closed := true |})) /\
  reply_q (snd (snd (run paced ["a"; "b"; "c"] (click_at 7 (click_at 5 calm)) init))) =
    [false; false].
Proof. vm_compute. split; reflexivity. Qed.

(** ** What the worker keeps *)

Lemma keeps_ret {A} (I : State -> Prop) (a : A) : keeps I (ret a).
Proof. intros s H. exact H. Qed.

Lemma keeps_emit (I : State -> Prop) (e : Event) : keeps I (emit e).
Proof. intros s H. exact H. Qed.

Lemma keeps_exit_with {A} (I : State -> Prop) (e : Exit) :
  keeps I (@exit_with A e).
Proof. intros s H. exact H. Qed.

Lemma keeps_bind {A B} (I : State -> Prop) (c : M A) (k : A -> M B) :
  keeps I c -> (forall a, keeps I (k a)) -> keeps I (bind c k).
Proof.
  intros Hc Hk s H. specialize (Hc s H). unfold bind.
  destruct (c s) as [t [a s1|e s1]]; [|exact Hc].
  specialize (Hk a s1 Hc). now destruct (k a s1) as [t' [b s2|e s2]].
Qed.

Section Keeps.

Variable cfg : Cfg.
Variable files : list string.
Variable env : Env.
Variable I : State -> Prop.
Hypothesis Hland : forall s, I s -> I (land env s).
Hypothesis Hslept : forall s k, I s -> I (set_slept k s).
Hypothesis Hconnect : forall s, I s -> I (count_connect s).
Hypothesis Hsession : forall s h, I s -> I (set_session h s).
Hypothesis Hreply : forall s q, I s -> I (set_reply_q q s).
Hypothesis Hclosed : forall s, I s -> I (set_closed s).

Lemma keeps_is_set : keeps I (is_set env).
Proof. intros s H. rewrite is_set_eq. now apply Hland. Qed.

Lemma keeps_os_path_exists fpath : keeps I (os_path_exists env fpath).
Proof. intros s H. cbn. now apply Hland. Qed.

Lemma keeps_is_active : keeps I (is_active env).
Proof. intros s H. cbn. now apply Hland. Qed.

Lemma keeps_sftp_normalize : keeps I (sftp_normalize env).
Proof. intros s H. cbn. now apply Hland. Qed.

Lemma keeps_sftp_put fpath remote_path :
  keeps I (sftp_put env fpath remote_path).
Proof. intros s H. cbn. now apply Hland. Qed.

Lemma keeps_wait1 : keeps I (wait1 env).
Proof. intros s H. rewrite wait1_eq. now apply Hslept, Hland. Qed.

Lemma keeps__connect : keeps I (_connect env).
Proof.
  intros s H. unfold _connect, bind, tick.
  destruct (connect_raises env (now s)); cbn.
  - now apply Hconnect, Hland.
  - now apply Hsession, Hconnect, Hland.
Qed.

Lemma keeps_reply_q_get : keeps I (reply_q_get env).
Proof.
  intros s H. rewrite reply_q_get_eq.
  destruct (reply_q (land env s)) as [|a q].
  - destruct (user_answer env (now s)) as [a|].
    + unfold App_ask_continue. now apply Hreply, Hreply, Hland.
    + now apply Hland.
  - now apply Hreply, Hland.
Qed.

Lemma keeps_close_session : keeps I (close_session env).
Proof. intros s H. cbn. now apply Hclosed, Hland, Hland. Qed.

(** One step of a proof that a piece of code keeps [I]: follow the
    structure of the code. *)
Ltac keeps_step :=
  match goal with
  | |- keeps _ (bind _ _) => apply keeps_bind; [ | intros ? ]
  | |- keeps _ (ret _) => apply keeps_ret
  | |- keeps _ (emit _) => apply keeps_emit
  | |- keeps _ (_log _) => apply keeps_emit
  | |- keeps _ (_timer _) => apply keeps_emit
  | |- keeps _ (exit_with _) => apply keeps_exit_with
  | |- keeps _ (is_set _) => apply keeps_is_set
  | |- keeps _ (wait1 _) => apply keeps_wait1
  | |- keeps _ (os_path_exists _ _) => apply keeps_os_path_exists
  | |- keeps _ (is_active _) => apply keeps_is_active
  | |- keeps _ (_connect _) => apply keeps__connect
  | |- keeps _ (sftp_normalize _) => apply keeps_sftp_normalize
  | |- keeps _ (sftp_put _ _ _) => apply keeps_sftp_put
  | |- keeps _ (reply_q_get _) => apply keeps_reply_q_get
  | |- keeps _ (close_session _) => apply keeps_close_session
  | |- keeps _ (if ?b then _ else _) => destruct b
  | |- keeps _ (match ?x with _ => _ end) => destruct x
  end.

Lemma keeps_sleep_loop seconds prefix total n : forall elapsed,
  keeps I (sleep_loop env seconds prefix total elapsed n).
Proof.
  induction n as [|n IH]; intros elapsed; cbn [sleep_loop].
  - apply keeps_ret.
  - repeat first [apply IH | keeps_step].
Qed.

Lemma keeps__sleep seconds prefix total :
  keeps I (_sleep env seconds prefix total).
Proof. unfold _sleep. repeat first [apply keeps_sleep_loop | keeps_step]. Qed.

Lemma keeps_initial_delay : keeps I (initial_delay cfg env).
Proof. unfold initial_delay. repeat first [apply keeps__sleep | keeps_step]. Qed.

Lemma keeps_initial_connect : keeps I (initial_connect cfg env).
Proof. unfold initial_connect, connect_failed. repeat keeps_step. Qed.

Lemma keeps_before_loop :
  keeps I (initial_delay cfg env ;; initial_connect cfg env).
Proof.
  apply keeps_bind; [apply keeps_initial_delay|].
  intros _. apply keeps_initial_connect.
Qed.

Lemma keeps_upload idx fpath : keeps I (upload cfg files env idx fpath).
Proof. unfold upload. repeat keeps_step. Qed.

Lemma keeps_test_batch_pause idx : keeps I (test_batch_pause cfg env idx).
Proof. unfold test_batch_pause. repeat keeps_step. Qed.

Lemma keeps_reconnect_after_delay : keeps I (reconnect_after_delay cfg env).
Proof. unfold reconnect_after_delay. repeat keeps_step. Qed.

Lemma keeps_inter_file_delay idx :
  keeps I (inter_file_delay cfg files env idx).
Proof.
  unfold inter_file_delay.
  repeat first [apply keeps__sleep | apply keeps_reconnect_after_delay | keeps_step].
Qed.

(** An iteration, given that its pause keeps [I]. *)
Lemma keeps_iteration_with idx fpath :
  keeps I (test_batch_pause cfg env idx) ->
  keeps I (iteration cfg files env idx fpath).
Proof.
  intros Hpause. unfold iteration.
  repeat first [ apply keeps_upload | exact Hpause
               | apply keeps_inter_file_delay | keeps_step ].
Qed.

Lemma keeps_iteration idx fpath : keeps I (iteration cfg files env idx fpath).
Proof. apply keeps_iteration_with, keeps_test_batch_pause. Qed.

Lemma keeps_for_files fs : forall idx, keeps I (for_files cfg files env idx fs).
Proof.
  induction fs as [|fpath fs IH]; intros idx; cbn [for_files].
  - apply keeps_ret.
  - apply keeps_bind; [apply keeps_iteration|]. intros _. apply IH.
Qed.

Lemma keeps_finally : keeps I (finally_ env).
Proof. unfold finally_. repeat keeps_step. Qed.

(** Every run keeps [I]. *)
Lemma keeps_run s : I s -> I (snd (snd (run cfg files env s))).
Proof.
  intros H. unfold run.
  pose proof (keeps_before_loop s H) as H0.
  destruct ((initial_delay cfg env ;; initial_connect cfg env) s)
    as [t0 [[] s0|e0 s0]]; [|exact H0].
  pose proof (keeps_for_files files 1 s0 H0) as H1.
  destruct (for_files cfg files env 1 files s0) as [t1 [[] s1|e1 s1]].
  - pose proof (keeps_finally s1 H1) as H2.
    now destruct (finally_ env s1) as [t2 [[] s2|e2 s2]].
  - pose proof (keeps_finally s1 H1) as H2.
    destruct e1; try exact H1;
      now destruct (finally_ env s1) as [t2 [[] s2|e2 s2]].
Qed.

End Keeps.


(** ** The order of the files *)


Section InOrder.

Variable cfg : Cfg.
Variable files : list string.
Variable env : Env.




End InOrder.



(** ** The session *)

Section Session.

Variable cfg : Cfg.
Variable files : list string.
Variable env : Env.

(** The initial connect, case by case: [_connect] raises; it returns and
    [sftp.normalize] raises; both return. *)
Lemma initial_connect_eq s :
  initial_connect cfg env s =
    match connect_raises env (now s) with
    | Some exc =>
        ([Log (Msg_connecting (host cfg) (port cfg));
          Log (Msg_connection_failed exc); Done false],
         Exc Return_connect_failed (count_connect (land env s)))
    | None =>
        let s1 := land env (set_session (now s) (count_connect (land env s))) in
        match normalize env (S (now s)) with
        | inl exc =>
            ([Log (Msg_connecting (host cfg) (port cfg));
              Log (Msg_connection_failed exc); Done false],
             Exc Return_connect_failed s1)
        | inr home =>
            ([Log (Msg_connecting (host cfg) (port cfg));
              Log (Msg_connected home)], Val tt s1)
        end
    end.
Proof.
  cbv beta iota zeta delta
    [initial_connect connect_failed bind _connect sftp_normalize tick ret _log
     emit exit_with].
  destruct (connect_raises env (now s)); cbv beta iota zeta; [reflexivity|].
  cbn [now set_session count_connect]. rewrite land_now.
  destruct (normalize env (S (now s))); reflexivity.
Qed.

(** The initial delay returns or is stopped; it does not touch the
    session. *)
Lemma initial_delay_cases s :
  exists t r s1,
    initial_delay cfg env s = (t, r) /\
    (r = Val tt s1 \/ r = Exc Return_initial_delay s1) /\
    connects s1 = connects s /\ transport s1 = transport s /\
    closed s1 = closed s.
Proof.
  destruct (Z.ltb_spec 0 (start_delay_min cfg * 60)) as [HD|HD].
  - destruct (_sleep_run env (start_delay_min cfg * 60) "⏳ Starting in" 0 s eq_refl)
      as (j & b & s1 & Hrun & _ & Hc & Ht & Hcl & _).
    rewrite (initial_delay_after_wait cfg env s _ b s1 HD Hrun).
    destruct b; eexists _, _, s1; (split; [reflexivity|]); auto.
  - rewrite (initial_delay_skipped cfg env s HD).
    exists [], (Val tt s), s. auto.
Qed.

(** The code before the loop: when it returns, [_connect] has been called
    once and has opened a session; when it leaves at the connect,
    [_connect] has been called once, and either it raised or it opened a
    session and [sftp.normalize] raised.  Nothing is closed. *)
Lemma before_loop_cases s :
  match (initial_delay cfg env ;; initial_connect cfg env) s with
  | (_, Val _ s0) =>
      closed s0 = closed s /\ connects s0 = S (connects s) /\
      exists n, transport s0 = Some n /\ connect_raises env n = None
  | (_, Exc e s0) =>
      closed s0 = closed s /\
      ((e = Return_initial_delay /\ connects s0 = connects s /\
        transport s0 = transport s) \/
       (e = Return_connect_failed /\ connects s0 = S (connects s) /\
        (transport s0 = transport s \/
         exists n exc, transport s0 = Some n /\ connect_raises env n = None /\
                       normalize env (S n) = inl exc)))
  end.
Proof.
  destruct (initial_delay_cases s) as (t & r & s1 & Hd & [-> | ->] & Hc & Ht & Hcl).
  - rewrite (bind_run_val _ _ _ _ _ _ Hd), initial_connect_eq.
    destruct (connect_raises env (now s1)) as [exc|] eqn:Hr; cbn [fst snd].
    + cbn. rewrite land_closed, land_connects, land_transport. intuition.
    + cbv zeta.
      destruct (normalize env (S (now s1))) as [exc|home] eqn:Hn; cbn [fst snd];
        rewrite land_closed, land_connects, land_transport; cbn;
        rewrite land_closed, land_connects.
      * split; [exact Hcl|]. right. split; [reflexivity|]. split; [now f_equal|].
        right. now exists (now s1), exc.
      * split; [exact Hcl|]. split; [now f_equal|]. now exists (now s1).
  - rewrite (bind_run_exc _ _ _ _ _ _ Hd). intuition.
Qed.

End Session.

(** X2.  The session is closed exactly by the [finally] block: every run
    that leaves the loop through a [break] or runs out of files ends with
    the session closed.  The two [return] statements before the loop close
    nothing, and neither does a worker blocked at the pause.  In
    particular, when the run returns at the connect, [_connect] has been
    called once, and either it raised, or it returned and
    [sftp.normalize] raised: then the session that [_connect] opened is
    left open. *)
Theorem session_closed_by_finally_only cfg files env s t e s' :
  run cfg files env s = (t, (e, s')) ->
  (is_return e = false -> e <> Blocked -> closed s' = true) /\
  (is_return e = true \/ e = Blocked -> closed s' = closed s) /\
  (e = Return_connect_failed ->
   connects s' = S (connects s) /\
   (transport s' = transport s \/
    exists n exc, transport s' = Some n /\ connect_raises env n = None /\
                  normalize env (S n) = inl exc)).
Proof.
  intros Hrun.
  pose proof (before_loop_cases cfg env s) as H0.
  destruct (run_cases cfg files env s) as
    [(t0 & e0 & s0 & Hi & Hk & Hr)
    |[(t0 & s0 & t1 & s1 & Hi & Hl & Hr)
     |(t0 & s0 & t1 & r & e1 & s1 & Hi & Hl & Hf & Hr)]];
    rewrite Hr in Hrun; inversion Hrun; subst; clear Hrun; rewrite Hi in H0.
  - destruct H0 as (Hcl & H0). split; [congruence|]. split; [auto|].
    intros ->. destruct H0 as [(He & _)|(_ & H0)]; [discriminate|exact H0].
  - destruct H0 as (Hcl & _).
    assert (Hk : closed s' = closed s0).
    { pose proof (keeps_for_files cfg files env (fun x => closed x = closed s0)) as K.
      specialize (K (fun x H => eq_trans (land_closed env x) H)
                    (fun x k H => H) (fun x H => H) (fun x h H => H)
                    (fun x q H => H) files 1 s0 eq_refl).
      now rewrite Hl in K. }
    split; [congruence|]. split; [congruence|discriminate].
  - assert (Hc : closed s' = true).
    { destruct r as [[] s2|e2 s2];
        [destruct Hf as (_ & Hf)|destruct Hf as (_ & _ & _ & Hf)];
        unfold finally_, close_session, bind, tick, emit in Hf;
        inversion Hf; reflexivity. }
    split; [auto|].
    assert (Hk : is_return e = false /\ e <> Blocked /\ e <> Return_connect_failed).
    { destruct r as [[] s2|e2 s2].
      - destruct Hf as (-> & _). repeat split; discriminate.
      - destruct Hf as (-> & Hb & Hk & _). repeat split; auto.
        intros ->. discriminate. }
    destruct Hk as (Hk & Hb & Hn).
    split; [intros [H|H]; congruence|intros H; contradiction].
Qed.

Lemma session_closed_by_finally_only_witness :
  transport (snd (snd (run plain ["a"] (no_home calm) init))) = Some 0%nat /\
  closed (snd (snd (run plain ["a"] (no_home calm) init))) = false.
Proof.
  destruct (run plain ["a"] (no_home calm) init) as [t [e s']] eqn:E.
  destruct (session_closed_by_finally_only _ _ _ _ _ _ _ E) as (_ & Hc & _).
  vm_compute in E. injection E as <- <- <-.
  split; [reflexivity|]. exact (Hc (or_introl eq_refl)).
Defined.

(** ** The stop flag *)

(** X3.  The worker never lowers the stop flag, and the first place
    where [run] looks at it without a start delay is the top of the loop:
    a run that starts with the flag up handles no file, but without a
    start delay it first calls [_connect] once (and [sftp.normalize]),
    then leaves at the top of the first iteration. *)
Theorem stop_before_first_file cfg files env s t e s' :
  _stop s = true ->
  run cfg files env s = (t, (e, s')) ->
  attempts t = [] /\ _stop s' = true /\
  (e = Return_initial_delay \/ e = Return_connect_failed \/
   (e = Break_stopped /\ files <> []) \/ (e = Loop_exhausted /\ files = [])) /\
  (start_delay_min cfg * 60 <= 0 -> connects s' = S (connects s)).
Proof.
  intros Hs Hrun.
  assert (Hflag : _stop s' = true).
  { pose proof (keeps_run cfg files env (fun x => _stop x = true)
                  (land_stop_mono env) (fun x k H => H) (fun x H => H)
                  (fun x h H => H) (fun x q H => H) (fun x H => H) s Hs) as K.
    now rewrite Hrun in K. }
  pose proof (before_loop_spec cfg env unattempted_sequential unattempted_init s)
    as H0.
  pose proof (before_loop_cases cfg env s) as H1.
  pose proof (keeps_before_loop cfg env (fun x => _stop x = true)
                (land_stop_mono env) (fun x k H => H) (fun x H => H)
                (fun x h H => H) s Hs) as H2.
  unfold run in Hrun.
  destruct ((initial_delay cfg env ;; initial_connect cfg env) s)
    as [t0 [[] s0|e0 s0]] eqn:Hi.
  - destruct H1 as (_ & Hc & _).
    destruct files as [|fpath fs].
    + cbn [for_files] in Hrun. unfold ret in Hrun.
      destruct (finally_eq env s0) as [s1 Hf]. rewrite Hf in Hrun.
      inversion Hrun; subst; clear Hrun.
      rewrite attempts_app, H0. split; [reflexivity|]. split; [exact Hflag|].
      split; [auto|]. intros _.
      unfold finally_, close_session, bind, tick, emit in Hf.
      inversion Hf; subst. cbn. now rewrite !land_connects.
    + rewrite (for_files_exit cfg _ env 1 fpath fs s0
                 [Log Msg_stopped_by_user] Break_stopped (land env s0)) in Hrun
        by (rewrite iteration_eq; now rewrite (land_stop_mono env s0 H2)).
      destruct (finally_eq env (land env s0)) as [s1 Hf]. rewrite Hf in Hrun.
      inversion Hrun; subst; clear Hrun.
      rewrite attempts_app, H0. split; [reflexivity|]. split; [exact Hflag|].
      split; [right; right; left; split; [reflexivity|discriminate]|].
      intros _.
      unfold finally_, close_session, bind, tick, emit in Hf.
      inversion Hf; subst. cbn. now rewrite !land_connects.
  - inversion Hrun; subst; clear Hrun.
    split; [exact H0|]. split; [exact Hflag|].
    destruct H1 as (_ & [(-> & Hc & _)|(-> & Hc & _)]).
    + split; [auto|]. intros HD.
      rewrite (bind_run_val _ _ _ _ _ _ (initial_delay_skipped cfg env s HD)) in Hi.
      rewrite initial_connect_eq in Hi.
      destruct (connect_raises env (now s)); [discriminate Hi|].
      cbv zeta in Hi. destruct (normalize env (S (now s))); discriminate Hi.
    + split; auto.
Qed.

Lemma stop_before_first_file_witness :
  attempts (fst (run plain ["a"; "b"] calm (stop init))) = [] /\
  fst (snd (run plain ["a"; "b"] calm (stop init))) = Break_stopped /\
  connects (snd (snd (run plain ["a"; "b"] calm (stop init)))) = 1%nat.
Proof.
  destruct (run plain ["a"; "b"] calm (stop init)) as [t [e s']] eqn:E.
  destruct (stop_before_first_file plain ["a"; "b"] calm (stop init) t e s'
              eq_refl E) as (Ha & _ & _ & Hc).
  split; [exact Ha|]. split.
  - vm_compute in E. now injection E as <- <- <-.
  - apply Hc. cbn. lia.
Defined.

(** ** The checkpoint *)

(** X4.  With a test count that no index reaches (the test batch is
    switched off, or the count is below 1 or above the number of files),
    a run never requests a confirmation, so it never waits for a reply:
    it ends. *)
Theorem checkpoint_out_of_range cfg files env s :
  test_count cfg < 1 \/ total_ files < test_count cfg ->
  count is_confirm (fst (run cfg files env s)) = 0%nat /\
  fst (snd (run cfg files env s)) <> Blocked.
Proof.
  intros Hk.
  assert (H : count is_confirm (fst (run cfg files env s)) = 0%nat).
  { pose proof (before_loop_spec cfg env (quiet_sequential is_confirm)
                  no_confirm_init s) as H0.
    assert (Hb : test_count cfg = 0 \/ test_count cfg < 1 \/
                 1 + Z.of_nat (List.length files) <= test_count cfg)
      by (unfold total_ in Hk; lia).
    pose proof (for_files_no_confirm cfg files env files 1 Hb) as H1.
    destruct (run_cases cfg files env s) as
      [(t0 & e0 & s0 & Hi & _ & Hr)
      |[(t0 & s0 & t1 & s1 & Hi & Hl & Hr)
       |(t0 & s0 & t1 & r & e1 & s1 & Hi & Hl & _ & Hr)]];
      rewrite Hr; rewrite Hi in H0; cbn [fst]; [exact H0| |];
      specialize (H1 s0); rewrite Hl in H1.
    - rewrite count_app. lia.
    - rewrite !count_app.
      assert (count is_confirm t1 = 0%nat) by (now destruct r).
      cbn. lia. }
  split; [exact H|].
  destruct (run cfg files env s) as [t [e s']] eqn:Hrun. cbn [fst snd] in *.
  intros ->. apply run_shape in Hrun. destruct Hrun as (t0 & _ & ->).
  rewrite count_app in H. cbn in H. lia.
Qed.

Lemma checkpoint_out_of_range_witness :
  count is_confirm (fst (run paced ["a"] calm init)) = 0%nat /\
  fst (snd (run paced ["a"] calm init)) <> Blocked.
Proof.
  apply (checkpoint_out_of_range paced ["a"] calm init).
  right. cbn. lia.
Defined.

(** ** Waiting for the reply *)

Section Unblocked.

Variable cfg : Cfg.
Variable files : list string.
Variable env : Env.

(** Only the pause of iteration [test_count] can block. *)
Lemma iteration_unblocked idx fpath :
  test_count cfg = 0 \/ idx <> test_count cfg ->
  spec (fun _ => True) (fun e _ => e <> Blocked)
    (iteration cfg files env idx fpath).
Proof.
  intros H. unfold iteration.
  repeat first
    [ apply spec_leave; discriminate
    | apply upload_spec; [apply kind_sequential|apply unblocked_loop]
    | apply inter_file_delay_spec; [apply kind_sequential|apply unblocked_loop]
    | intros s; rewrite (test_batch_pause_skipped cfg env idx s H); exact Logic.I
    | spec_step (kind_sequential (fun e => e <> Blocked)) ].
Qed.

Lemma for_files_unblocked fs : forall idx,
  test_count cfg = 0 \/ test_count cfg < idx ->
  spec (fun _ => True) (fun e _ => e <> Blocked)
    (for_files cfg files env idx fs).
Proof.
  induction fs as [|fpath fs IH]; intros idx H; cbn [for_files].
  - apply (spec_ret (kind_sequential _)).
  - apply (spec_bind (kind_sequential _)).
    + apply iteration_unblocked. lia.
    + intros _. apply IH. lia.
Qed.

Lemma rest_unblocked fs :
  spec (fun _ => True) (fun e _ => e <> Blocked)
    (inter_file_delay cfg files env (test_count cfg) ;;
     for_files cfg files env (test_count cfg + 1) fs).
Proof.
  apply (spec_bind (kind_sequential _)).
  - apply inter_file_delay_spec; [apply kind_sequential|apply unblocked_loop].
  - intros _. apply for_files_unblocked. lia.
Qed.

Variable s0 : State.

Lemma unpressed_land s : unpressed env s0 s -> unpressed env s0 (land env s).
Proof.
  intros [Hn H]. split; [rewrite land_now; lia|].
  rewrite land_reply_q, land_now, land_stop. intros Hq.
  apply app_eq_nil in Hq. destruct Hq as [Hq Hr].
  destruct (stop_clicks env (now s)) as [|k] eqn:Hk; [|discriminate Hr].
  destruct (H Hq) as [Hp Hs]. split; [|exact Hs].
  intros i Hi. destruct (Nat.eq_dec i (now s)) as [->|Hne]; [exact Hk|].
  apply Hp. lia.
Qed.

Lemma for_files_blocked fs : forall idx s t s',
  unpressed env s0 s ->
  for_files cfg files env idx fs s = (t, Exc Blocked s') ->
  unpressed env s0 s' /\ reply_q s' = [] /\ user_answer env (Nat.pred (now s')) = None.
Proof.
  induction fs as [|fpath fs IH]; intros idx s t s' Hs Hrun; [discriminate Hrun|].
  destruct (Z.eq_dec (test_count cfg) 0) as [E|E];
    [|destruct (Z.eq_dec idx (test_count cfg)) as [->|Hne]].
  - pose proof (for_files_unblocked (fpath :: fs) idx (or_introl E) s) as H.
    rewrite Hrun in H. contradiction.
  - destruct (_stop (land env s)) eqn:Hflag.
    { rewrite (for_files_exit cfg files env _ fpath fs s
                 [Log Msg_stopped_by_user] Break_stopped (land env s)) in Hrun
        by (now rewrite iteration_eq, Hflag).
      discriminate Hrun. }
    pose proof (upload_spec cfg files env (kind_sequential (fun e => e <> Blocked))
                  (test_count cfg) fpath unblocked_loop (land env s)) as Hu.
    pose proof (keeps_upload cfg files env (unpressed env s0) unpressed_land
                  (fun x H => H) (fun x h H => H) (test_count cfg) fpath
                  (land env s) (unpressed_land s Hs)) as Hk.
    destruct (upload cfg files env (test_count cfg) fpath (land env s))
      as [tu [[] s1|e s1]] eqn:Hup.
    + rewrite (for_files_after_upload cfg files env _ fpath fs s _ _ Hflag Hup)
        in Hrun.
      rewrite (pause_then_rest cfg files env fs s1 E) in Hrun.
      rewrite reply_q_get_eq in Hrun.
      pose proof (unpressed_land s1 Hk) as Hl.
      destruct (reply_q (land env s1)) as [|[|] q] eqn:Hq.
      * destruct (user_answer env (now s1)) as [[|]|] eqn:Ha.
        -- pose proof (rest_unblocked fs
                         (set_reply_q [] (App_ask_continue true (land env s1))))
             as Hr.
           destruct ((_ ;; _) (set_reply_q [] (App_ask_continue true (land env s1))))
             as [tr [[] s2|e s2]]; cbn [fst snd] in Hrun; [discriminate Hrun|].
           injection Hrun as _ -> _. contradiction.
        -- discriminate Hrun.
        -- injection Hrun as _ <-. rewrite land_now. cbn [Nat.pred]. auto.
      * pose proof (rest_unblocked fs (set_reply_q q (land env s1))) as Hr.
        destruct ((_ ;; _) (set_reply_q q (land env s1)))
          as [tr [[] s2|e s2]]; cbn [fst snd] in Hrun; [discriminate Hrun|].
        injection Hrun as _ -> _. contradiction.
      * discriminate Hrun.
    + rewrite (for_files_exit cfg files env _ fpath fs s tu e s1) in Hrun
        by (rewrite iteration_eq, Hflag; now apply bind_run_exc).
      injection Hrun as _ -> _. contradiction.
  - pose proof (iteration_unblocked idx fpath (or_intror Hne) s) as Hu.
    pose proof (keeps_iteration_with cfg files env (unpressed env s0) unpressed_land
                  (fun x k H => H) (fun x H => H) (fun x h H => H) idx fpath) as Hk.
    assert (Hp : keeps (unpressed env s0) (test_batch_pause cfg env idx)).
    { intros x Hx. now rewrite (test_batch_pause_skipped cfg env idx x (or_intror Hne)). }
    specialize (Hk Hp s Hs).
    destruct (iteration cfg files env idx fpath s) as [ti [[] s1|e s1]] eqn:Hi.
    + rewrite (for_files_next cfg files env idx fpath fs s _ _ Hi) in Hrun.
      destruct (for_files cfg files env (idx + 1) fs s1) as [tr r] eqn:Hr.
      cbn [fst snd] in Hrun. injection Hrun as _ ->.
      exact (IH _ _ _ _ Hk Hr).
    + rewrite (for_files_exit cfg files env idx fpath fs s _ _ _ Hi) in Hrun.
      injection Hrun as _ -> _. contradiction.
Qed.

End Unblocked.

(** X5.  [App._stop] unblocks a pending confirmation wait: a run is left
    waiting for ever in [reply_q.get()] only if Stop was never pressed
    during any of its calls, the call of [get] included, and the
    confirmation dialog of that instant is never answered.  So the flag
    is as it was at the start, and no reply waits. *)
Theorem blocked_only_if_never_stopped cfg files env s t s' :
  run cfg files env s = (t, (Blocked, s')) ->
  never_pressed env (now s) (now s') /\
  _stop s' = _stop s /\ reply_q s' = [] /\
  user_answer env (Nat.pred (now s')) = None.
Proof.
  intros Hrun.
  assert (Hs : unpressed env s s).
  { split; [lia|]. intros _. split; [|reflexivity]. intros i Hi. lia. }
  pose proof (keeps_before_loop cfg env (unpressed env s) (unpressed_land env s)
                (fun x k H => H) (fun x H => H) (fun x h H => H) s Hs) as H0.
  destruct (run_cases cfg files env s) as
    [(t0 & e0 & s0 & Hi & Hk & Hr)
    |[(t0 & s0 & t1 & s1 & Hi & Hl & Hr)
     |(t0 & s0 & t1 & r & e1 & s1 & Hi & Hl & Hf & Hr)]];
    rewrite Hr in Hrun; inversion Hrun; subst; clear Hrun.
  - discriminate Hk.
  - rewrite Hi in H0.
    destruct (for_files_blocked cfg files env s files 1 s0 t1 s' H0 Hl)
      as ((_ & Hp) & Hq & Ha).
    destruct (Hp Hq) as [Hn Hflag]. auto.
  - destruct r as [[] s2|e2 s2].
    + destruct Hf as [Hf _]. discriminate Hf.
    + destruct Hf as (<- & Hb & _). contradiction.
Qed.

Lemma blocked_only_if_never_stopped_witness :
  never_pressed (answering None calm) 0
    (now (snd (snd (run paced ["a"; "b"; "c"] (answering None calm) init)))) /\
  reply_q (snd (snd (run paced ["a"; "b"; "c"] (answering None calm) init))) = [].
Proof.
  destruct (blocked_only_if_never_stopped paced ["a"; "b"; "c"]
              (answering None calm) init
              (fst (run paced ["a"; "b"; "c"] (answering None calm) init))
              (snd (snd (run paced ["a"; "b"; "c"] (answering None calm) init))))
    as (Hn & _ & Hq & _).
  - vm_compute. reflexivity.
  - split; [exact Hn|exact Hq].
Defined.

(** ** The time spent waiting *)

Lemma sleeps_ret {A} (a : A) : sleeps_at_most 0 (ret a).
Proof. intros s. cbn. lia. Qed.

Lemma sleeps_bind {A B} (n m : nat) (c : M A) (k : A -> M B) :
  sleeps_at_most n c -> (forall a, sleeps_at_most m (k a)) ->
  sleeps_at_most (n + m) (bind c k).
Proof.
  intros Hc Hk s. specialize (Hc s). unfold bind.
  destruct (c s) as [t [a s1|e s1]]; [|lia].
  specialize (Hk a s1). destruct (k a s1) as [t' [b s2|e s2]]; lia.
Qed.

Lemma sleeps_weaken {A} (n m : nat) (c : M A) :
  (n <= m)%nat -> sleeps_at_most n c -> sleeps_at_most m c.
Proof.
  intros Hnm Hc s. specialize (Hc s).
  destruct (c s) as [t [a s1|e s1]]; lia.
Qed.

(** Code that keeps the number of seconds slept, whatever it is. *)
Lemma sleeps_not {A} (c : M A) :
  (forall n, keeps (fun x => slept x = n) c) -> sleeps_at_most 0 c.
Proof.
  intros H s. specialize (H (slept s) s eq_refl).
  destruct (c s) as [t [a s1|e s1]]; lia.
Qed.

Section Waiting.

Variable cfg : Cfg.
Variable files : list string.
Variable env : Env.

Lemma slept_land n s : slept s = n -> slept (land env s) = n.
Proof. intros H. now rewrite land_slept. Qed.

Lemma _sleep_at_most seconds prefix total :
  truthy prefix = true ->
  sleeps_at_most (Z.to_nat seconds) (_sleep env seconds prefix total).
Proof.
  intros Hp s.
  destruct (_sleep_run env seconds prefix total s Hp)
    as (j & b & s' & -> & Hsl & _ & _ & _ & Hb & _).
  destruct b; lia.
Qed.

Lemma initial_delay_at_most :
  sleeps_at_most (Z.to_nat (start_delay_min cfg * 60)) (initial_delay cfg env).
Proof.
  intros s. destruct (Z.ltb_spec 0 (start_delay_min cfg * 60)) as [HD|HD].
  - pose proof (_sleep_at_most (start_delay_min cfg * 60) "⏳ Starting in" 0
                  eq_refl s) as H.
    destruct (_sleep env (start_delay_min cfg * 60) "⏳ Starting in" 0 s)
      as [t [b s'|e s']] eqn:Hsleep.
    + rewrite (initial_delay_after_wait cfg env s _ b s' HD Hsleep).
      now destruct b.
    + destruct (_sleep_run env (start_delay_min cfg * 60) "⏳ Starting in" 0 s
                  eq_refl) as (j & b & s1 & Hrun & _).
      rewrite Hrun in Hsleep. discriminate Hsleep.
  - rewrite (initial_delay_skipped cfg env s HD). lia.
Qed.

Lemma initial_connect_sleeps_not : sleeps_at_most 0 (initial_connect cfg env).
Proof.
  apply sleeps_not. intros n. apply keeps_initial_connect; auto using slept_land.
Qed.

Lemma upload_sleeps_not idx fpath :
  sleeps_at_most 0 (upload cfg files env idx fpath).
Proof.
  apply sleeps_not. intros n. apply keeps_upload; auto using slept_land.
Qed.

Lemma test_batch_pause_sleeps_not idx :
  sleeps_at_most 0 (test_batch_pause cfg env idx).
Proof.
  apply sleeps_not. intros n. apply keeps_test_batch_pause; auto using slept_land.
Qed.

Lemma reconnect_after_delay_sleeps_not :
  sleeps_at_most 0 (reconnect_after_delay cfg env).
Proof.
  apply sleeps_not. intros n.
  apply keeps_reconnect_after_delay; auto using slept_land.
Qed.

Lemma finally_sleeps_not : sleeps_at_most 0 (finally_ env).
Proof.
  apply sleeps_not. intros n. apply keeps_finally; auto using slept_land.
Qed.

(** The inter-file delay waits only when files remain. *)
Lemma inter_file_delay_at_most idx :
  sleeps_at_most (if idx <? total_ files then Z.to_nat (delay_ cfg) else 0%nat)
    (inter_file_delay cfg files env idx).
Proof.
  intros s.
  destruct (Z.ltb_spec idx (total_ files)) as [Hi|Hi];
    [|rewrite (inter_file_delay_skipped cfg files env idx s (or_intror Hi)); lia].
  destruct (Z.eq_dec (delay_ cfg) 0) as [Hd|Hd];
    [rewrite (inter_file_delay_skipped cfg files env idx s (or_introl Hd)); lia|].
  destruct (_stop (land env s)) eqn:Hs.
  - rewrite (inter_file_delay_stopped cfg files env idx s Hd Hi Hs).
    rewrite land_slept. lia.
  - destruct (_sleep_run env (delay_ cfg) "⏱  Next upload in" (idx + 1)
                (land env s) eq_refl)
      as (j & b & s' & Hrun & Hsl & _ & _ & _ & Hb & _).
    rewrite (inter_file_delay_after_wait cfg files env idx s _ b s' Hd Hi Hs Hrun).
    rewrite land_slept in Hsl.
    destruct b; [|lia].
    pose proof (reconnect_after_delay_sleeps_not s') as Hr.
    destruct (reconnect_after_delay cfg env s') as [t2 [a s2|e s2]];
      cbn [fst snd]; lia.
Qed.

Lemma iteration_at_most idx fpath :
  sleeps_at_most (if idx <? total_ files then Z.to_nat (delay_ cfg) else 0%nat)
    (iteration cfg files env idx fpath).
Proof.
  intros s. rewrite iteration_eq.
  destruct (_stop (land env s)); [rewrite land_slept; lia|].
  pose proof (sleeps_bind 0 _ _ _ (upload_sleeps_not idx fpath)
                (fun _ => sleeps_bind 0 _ _ _ (test_batch_pause_sleeps_not idx)
                            (fun _ => inter_file_delay_at_most idx))
                (land env s)) as H.
  rewrite land_slept in H. exact H.
Qed.

(** The loop over the last files of the list waits between two files, and
    not after the last one. *)
Lemma for_files_at_most fs : forall idx,
  idx + Z.of_nat (List.length fs) = total_ files + 1 ->
  sleeps_at_most (Nat.pred (List.length fs) * Z.to_nat (delay_ cfg))
    (for_files cfg files env idx fs).
Proof.
  induction fs as [|fpath fs IH]; intros idx Hidx; cbn [for_files].
  - apply sleeps_ret.
  - cbn [List.length] in Hidx.
    apply (sleeps_weaken
             ((if idx <? total_ files then Z.to_nat (delay_ cfg) else 0%nat)
              + Nat.pred (List.length fs) * Z.to_nat (delay_ cfg))).
    + destruct (Z.ltb_spec idx (total_ files)) as [Hi|Hi];
        destruct fs as [|f fs]; cbn [List.length Nat.pred] in *; lia.
    + apply sleeps_bind; [apply iteration_at_most|].
      intros _. apply IH. lia.
Qed.

End Waiting.

(** X6.  The seconds a run spends waiting never exceed what the
    configuration asks for: the start delay, and one inter-file delay
    between two consecutive files (none after the last file).  The pause,
    the uploads and the reconnects add no wait of their own. *)
Theorem total_wait_bounded cfg files env s :
  (slept s <= slept (snd (snd (run cfg files env s))) <=
   slept s + Z.to_nat (start_delay_min cfg * 60)
   + Nat.pred (List.length files) * Z.to_nat (delay_ cfg))%nat.
Proof.
  pose proof (sleeps_bind _ 0 _ _ (initial_delay_at_most cfg env)
                (fun _ => initial_connect_sleeps_not cfg env) s) as H0.
  unfold run.
  destruct ((initial_delay cfg env ;; initial_connect cfg env) s)
    as [t0 [[] s0|e0 s0]]; cbn [fst snd]; [|nia].
  assert (Hidx : 1 + Z.of_nat (List.length files) = total_ files + 1)
    by (unfold total_; lia).
  pose proof (for_files_at_most cfg files env files 1 Hidx s0) as H1.
  destruct (for_files cfg files env 1 files s0) as [t1 [[] s1|e1 s1]].
  - pose proof (finally_sleeps_not env s1) as H2.
    destruct (finally_ env s1) as [t2 [[] s2|e2 s2]]; cbn [fst snd]; lia.
  - pose proof (finally_sleeps_not env s1) as H2.
    destruct e1; cbn [fst snd]; try lia;
      destruct (finally_ env s1) as [t2 [[] s2|e2 s2]]; cbn [fst snd]; lia.
Qed.

(** ** Polling *)

Lemma drain_spec items : forall timer_text p,
  drain items timer_text p =
    (match last_timer items with Some text => Some text | None => timer_text end,
     {| _log_q := _log_q p; _confirm_q := _confirm_q p; _reply_q := _reply_q p;
        _timer_lbl := if existsb is_done items then EmptyString else _timer_lbl p;
        _start_btn := if existsb is_done items then true else _start_btn p;
        _stop_btn := if existsb is_done items then false else _stop_btn p;
        _log_txt := _log_txt p ++ lines_of items |}).
Proof.
  induction items as [|e items IH]; intros timer_text p.
  - cbn. rewrite app_nil_r. now destruct p.
  - destruct e as [m|text|b|]; cbn [drain]; rewrite IH;
      cbn [last_timer existsb is_done orb lines_of flat_map line_of
           _log_q _confirm_q _reply_q _timer_lbl _start_btn _stop_btn _log_txt
           App_log set_buttons set_timer_lbl];
      fold (lines_of items).
    + rewrite <- app_assoc. now destruct (last_timer items).
    + now destruct (last_timer items).
    + rewrite <- app_assoc. destruct (last_timer items);
        now destruct (existsb is_done items).
    + now destruct (last_timer items).
Qed.

(** [_poll], in one step: what it leaves of the queues, the label, the
    buttons and the log. *)
Lemma _poll_eq answer p :
  _poll answer p =
    {| _log_q := [];
       _confirm_q := tl (_confirm_q p);
       _reply_q :=
         match _confirm_q p with
         | [] => _reply_q p
         | _ :: _ => _reply_q p ++ [answer]
         end;
       _timer_lbl :=
         match last_timer (_log_q p) with
         | Some text => text
         | None =>
             if existsb is_done (_log_q p) then EmptyString else _timer_lbl p
         end;
       _start_btn := if existsb is_done (_log_q p) then true else _start_btn p;
       _stop_btn := if existsb is_done (_log_q p) then false else _stop_btn p;
       _log_txt := _log_txt p ++ lines_of (_log_q p) |}.
Proof.
  unfold _poll. rewrite drain_spec.
  destruct (last_timer (_log_q p)); destruct p as [lq cq rq lbl b1 b2 txt];
    cbn; destruct cq; reflexivity.
Qed.

Lemma last_timer_app t1 t2 :
  last_timer (t1 ++ t2) =
    match last_timer t2 with Some text => Some text | None => last_timer t1 end.
Proof.
  induction t1 as [|e t1 IH]; cbn [app last_timer].
  - now destruct (last_timer t2).
  - rewrite IH. now destruct (last_timer t2).
Qed.

(** X7.  A poll empties [log_q] and shows every log item in order.  Of
    the timer items it takes off the queue only the last one counts: its
    text is what the label shows after the poll, even when a done item of
    the same batch, before or after it, has cleared the label.  Without a
    timer item the label is cleared by a done item, and kept otherwise. *)
Theorem poll_shows_last_timer answer p :
  _log_q (_poll answer p) = [] /\
  _log_txt (_poll answer p) = _log_txt p ++ lines_of (_log_q p) /\
  (forall pre text post,
     _log_q p = pre ++ Timer text :: post -> last_timer post = None ->
     _timer_lbl (_poll answer p) = text) /\
  (last_timer (_log_q p) = None ->
   _timer_lbl (_poll answer p) =
     if existsb is_done (_log_q p) then EmptyString else _timer_lbl p).
Proof.
  rewrite _poll_eq. cbn [_log_q _log_txt _timer_lbl].
  split; [reflexivity|]. split; [reflexivity|]. split.
  - intros pre text post -> Hpost.
    rewrite last_timer_app. cbn [last_timer]. now rewrite Hpost.
  - now intros ->.
Qed.

Lemma poll_shows_last_timer_witness :
  _timer_lbl
    (_poll true
       (puts [Timer "⏳ Starting in  00m 58s";
              Log Msg_stopped_initial_delay; Done false] panel0)) =
    "⏳ Starting in  00m 58s".
Proof.
  destruct (poll_shows_last_timer true
              (puts [Timer "⏳ Starting in  00m 58s";
                     Log Msg_stopped_initial_delay; Done false] panel0))
    as (_ & _ & H & _).
  apply (H [] _ [Log Msg_stopped_initial_delay; Done false]); reflexivity.
Defined.

(** ** A run on the screen *)

Lemma lines_of_app t1 t2 : lines_of (t1 ++ t2) = lines_of t1 ++ lines_of t2.
Proof. apply flat_map_app. Qed.

Lemma lines_of_log_q t : lines_of (log_q t) = lines_of t.
Proof.
  unfold lines_of, log_q. induction t as [|e t IH]; [reflexivity|].
  destruct e; cbn; now rewrite ?IH.
Qed.

Lemma done_log_q t : existsb is_done (log_q t) = existsb is_done t.
Proof.
  unfold log_q. induction t as [|e t IH]; [reflexivity|].
  destruct e; cbn; now rewrite ?IH.
Qed.

(** Whatever the rhythm of the polls, the log shows the items in the
    order of the puts, and the buttons are switched by the first done
    item. *)
Lemma polls_spec batches : forall p,
  _log_q p = [] ->
  _log_q (polls batches p) = [] /\
  _log_txt (polls batches p) =
    _log_txt p ++ lines_of (List.concat (map fst batches)) /\
  _start_btn (polls batches p) =
    (if existsb is_done (List.concat (map fst batches)) then true else _start_btn p) /\
  _stop_btn (polls batches p) =
    (if existsb is_done (List.concat (map fst batches)) then false else _stop_btn p).
Proof.
  induction batches as [|[batch answer] rest IH]; intros p Hq.
  - cbn. rewrite app_nil_r. auto.
  - cbn [polls map fst List.concat].
    destruct (IH (_poll answer (puts batch p))) as (H1 & H2 & H3 & H4);
      [now rewrite _poll_eq|].
    rewrite H1, H2, H3, H4, _poll_eq.
    cbn [_log_q _log_txt _start_btn _stop_btn puts set_confirm_q set_log_q].
    rewrite Hq. cbn [app].
    rewrite lines_of_log_q, done_log_q, lines_of_app, existsb_app, app_assoc.
    repeat split;
      destruct (existsb is_done batch);
      destruct (existsb is_done (List.concat (map fst rest))); reflexivity.
Qed.

Lemma no_done_lines t :
  no_done t -> ~ In Line_session_ended (lines_of t) /\ existsb is_done t = false.
Proof.
  unfold no_done, count, lines_of.
  induction t as [|e t IH]; intros H; [now split|].
  destruct e as [m|text|b|];
    cbn [filter is_done List.length flat_map line_of existsb app orb] in *;
    try discriminate H;
    destruct (IH H) as [H1 H2]; (split; [|exact H2]); try exact H1.
  intros [E|E]; [discriminate E|contradiction].
Qed.

(** X8.  The GUI shows the end of a run once, whatever the rhythm of its
    polls: when the worker's events of a run that ends are taken off the
    queue, in any number of polls, the log panel has got the worker's
    messages in the order of the puts, followed by the line "Upload
    session ended" that appears nowhere before; Start is enabled and Stop
    is disabled.  While the worker is blocked at the pause the buttons
    stay as they are, and the line is not shown. *)
Theorem session_end_shown_once cfg files env s t e s' batches p :
  run cfg files env s = (t, (e, s')) ->
  List.concat (map fst batches) = t ->
  _log_q p = [] ->
  _log_q (polls batches p) = [] /\
  _log_txt (polls batches p) = _log_txt p ++ lines_of t /\
  (e <> Blocked ->
   _start_btn (polls batches p) = true /\ _stop_btn (polls batches p) = false /\
   exists ls, lines_of t = ls ++ [Line_session_ended] /\
              ~ In Line_session_ended ls) /\
  (e = Blocked ->
   _start_btn (polls batches p) = _start_btn p /\
   _stop_btn (polls batches p) = _stop_btn p /\
   ~ In Line_session_ended (lines_of t)).
Proof.
  intros Hrun Ht Hq.
  destruct (polls_spec batches p Hq) as (H1 & H2 & H3 & H4).
  rewrite Ht in H2, H3, H4.
  split; [exact H1|]. split; [exact H2|]. split.
  - intros He.
    destruct (run_terminal cfg files env s t e s' Hrun He) as (t0 & H0 & Heq).
    destruct (no_done_lines t0 H0) as [Hl Hd].
    rewrite H3, H4, Heq, existsb_app. cbn [existsb is_done].
    rewrite orb_true_r. split; [reflexivity|]. split; [reflexivity|].
    exists (lines_of t0). split; [|exact Hl].
    now rewrite lines_of_app.
  - intros ->. apply run_shape in Hrun. destruct Hrun as (t0 & H0 & ->).
    destruct (no_done_lines t0 H0) as [Hl Hd].
    rewrite H3, H4, existsb_app, Hd, lines_of_app. cbn.
    rewrite app_nil_r. auto.
Qed.

Lemma session_end_shown_once_witness :
  _start_btn
    (polls [([Log (Msg_connecting "example.org" "22")], true);
            ([Log (Msg_connected "/home/user");
              Log (Msg_uploading 1 1 "a" "upload/a")], true);
            ([Log (Msg_upload_done 1 1); Done true], true)]
       (set_buttons false true panel0)) = true.
Proof.
  destruct (run plain ["a"] calm init) as [t [e s']] eqn:E.
  destruct (session_end_shown_once plain ["a"] calm init t e s'
              [([Log (Msg_connecting "example.org" "22")], true);
               ([Log (Msg_connected "/home/user");
                 Log (Msg_uploading 1 1 "a" "upload/a")], true);
               ([Log (Msg_upload_done 1 1); Done true], true)]
              (set_buttons false true panel0) E)
    as (_ & _ & H & _).
  - vm_compute in E. now injection E as <- _ _.
  - reflexivity.
  - apply H. vm_compute in E. injection E as _ <- _. discriminate.
Defined.

(** ** The file list *)

Lemma listed_In p l : listed p l = true <-> In p l.
Proof.
  unfold listed. rewrite existsb_exists. split.
  - intros (x & Hx & E). apply String.eqb_eq in E. now subst.
  - intros H. exists p. split; [exact H|apply String.eqb_refl].
Qed.

Lemma listed_not_In p l : listed p l = false <-> ~ In p l.
Proof.
  rewrite <- listed_In. destruct (listed p l); intuition congruence.
Qed.

Lemma NoDup_snoc (l : list string) (p : string) :
  NoDup l -> ~ In p l -> NoDup (l ++ [p]).
Proof.
  intros Hl Hp. apply NoDup_app; [exact Hl|repeat constructor; auto| ].
  intros x Hx [<-|[]]. contradiction.
Qed.

Lemma insert_new_spec paths : forall l,
  NoDup l ->
  exists new,
    insert_new paths l = l ++ new /\ NoDup (l ++ new) /\
    (forall x, In x new <-> In x paths /\ ~ In x l).
Proof.
  induction paths as [|p paths IH]; intros l Hl.
  - exists []. rewrite app_nil_r. cbn. intuition.
  - cbn [insert_new]. destruct (listed p l) eqn:Hp.
    + apply listed_In in Hp.
      destruct (IH l Hl) as (new & E & Hn & Hin).
      exists new. split; [exact E|]. split; [exact Hn|].
      intros x. rewrite Hin. cbn. intuition. subst. contradiction.
    + apply listed_not_In in Hp.
      destruct (IH (l ++ [p]) (NoDup_snoc l p Hl Hp)) as (new & E & Hn & Hin).
      exists (p :: new). rewrite E, <- app_assoc. cbn [app].
      rewrite <- app_assoc in Hn. cbn [app] in Hn.
      split; [reflexivity|]. split; [exact Hn|].
      intros x. cbn [In]. rewrite Hin, in_app_iff. cbn [In].
      split.
      * intros [<-|[E1 E2]]; [now auto|]. split; [now right|].
        intros Hx. apply E2. now left.
      * intros [[<-|E1] E2]; [now left|].
        destruct (string_dec p x) as [<-|Hne]; [now left|].
        right. split; [exact E1|]. intros [Hx|[Hx|[]]]; contradiction.
Qed.

Lemma insert_new_listed paths : forall l,
  (forall x, In x paths -> In x l) -> insert_new paths l = l.
Proof.
  induction paths as [|p paths IH]; intros l H; [reflexivity|].
  cbn [insert_new].
  rewrite (proj2 (listed_In p l)) by (apply H; now left).
  apply IH. intros x Hx. apply H. now right.
Qed.

(** X9.  Adding files never makes a duplicate: the listbox keeps its
    items in their order, and gets at its end, once each, exactly the
    chosen paths that it did not have.  The label shows the new number
    of items, and adding the same paths again changes nothing. *)
Theorem add_files_no_duplicates paths f :
  NoDup (_file_list f) ->
  NoDup (_file_list (_add_files paths f)) /\
  (exists new,
     _file_list (_add_files paths f) = _file_list f ++ new /\
     forall x, In x new <-> In x paths /\ ~ In x (_file_list f)) /\
  _file_count_lbl (_add_files paths f) =
    count_text (List.length (_file_list (_add_files paths f))) /\
  _add_files paths (_add_files paths f) = _add_files paths f.
Proof.
  intros Hl. cbn [_add_files _update_count _file_list _file_count_lbl].
  destruct (insert_new_spec paths (_file_list f) Hl) as (new & E & Hn & Hin).
  rewrite E. split; [exact Hn|]. split; [now exists new|].
  split; [reflexivity|].
  unfold _add_files, _update_count. cbn [_file_list _file_count_lbl].
  rewrite E, insert_new_listed; [reflexivity|].
  intros x Hx. rewrite in_app_iff.
  destruct (in_dec string_dec x (_file_list f)) as [H|H]; [now left|].
  right. apply Hin. auto.
Qed.

Lemma add_files_no_duplicates_witness :
  _file_list (_add_files ["b.csv"; "a.csv"; "b.csv"; "c.csv"]
                (_add_files ["a.csv"] files0)) = ["a.csv"; "b.csv"; "c.csv"] /\
  NoDup (_file_list (_add_files ["b.csv"; "a.csv"; "b.csv"; "c.csv"]
                       (_add_files ["a.csv"] files0))).
Proof.
  split; [reflexivity|].
  apply (add_files_no_duplicates ["b.csv"; "a.csv"; "b.csv"; "c.csv"]
           (_add_files ["a.csv"] files0)).
  cbn. repeat constructor. intros [].
Defined.

Section AddFolder.

Variable lower : string -> string.
Variable join : string -> string -> string.

Lemma add_folder_loop_spec folder names : forall l added,
  NoDup l ->
  exists new,
    add_folder_loop lower join folder names l added =
      (l ++ new, (added + List.length new)%nat) /\
    NoDup (l ++ new) /\
    (forall x, In x new ->
       ~ In x l /\
       exists fn, In fn names /\ endswith (lower fn) ".csv" = true /\
                  x = join folder fn) /\
    (forall fn, In fn names -> endswith (lower fn) ".csv" = true ->
       In (join folder fn) (l ++ new)).
Proof.
  induction names as [|fn names IH]; intros l added Hl.
  - exists []. cbn. rewrite app_nil_r, Nat.add_0_r. intuition.
  - cbn [add_folder_loop].
    destruct (endswith (lower fn) ".csv") eqn:Hext;
      [destruct (listed (join folder fn) l) eqn:Hp|].
    + apply listed_In in Hp.
      destruct (IH l added Hl) as (new & E & Hn & Hnew & Hall).
      exists new. split; [exact E|]. split; [exact Hn|]. split.
      * intros x Hx. destruct (Hnew x Hx) as (H1 & fn' & H2 & H3 & H4).
        split; [exact H1|]. exists fn'. cbn. auto.
      * intros fn' [<-|Hfn'] He; [apply in_app_iff; now left|now apply Hall].
    + apply listed_not_In in Hp.
      destruct (IH (l ++ [join folder fn]) (S added)
                  (NoDup_snoc l _ Hl Hp)) as (new & E & Hn & Hnew & Hall).
      exists (join folder fn :: new).
      rewrite E, <- app_assoc. cbn [app List.length].
      rewrite <- app_assoc in Hn, Hall. cbn [app] in Hn, Hall.
      split; [f_equal; lia|]. split; [exact Hn|]. split.
      * intros x [<-|Hx].
        -- split; [exact Hp|]. exists fn. cbn. auto.
        -- destruct (Hnew x Hx) as (H1 & fn' & H2 & H3 & H4).
           split; [intros H; apply H1, in_app_iff; now left|].
           exists fn'. cbn. auto.
      * intros fn' [<-|Hfn'] He; [|now apply Hall].
        apply in_app_iff. right. now left.
    + destruct (IH l added Hl) as (new & E & Hn & Hnew & Hall).
      exists new. split; [exact E|]. split; [exact Hn|]. split.
      * intros x Hx. destruct (Hnew x Hx) as (H1 & fn' & H2 & H3 & H4).
        split; [exact H1|]. exists fn'. cbn. auto.
      * intros fn' [<-|Hfn'] He; [congruence|now apply Hall].
Qed.

End AddFolder.

(** X10.  Adding a folder makes no duplicate either.  When the dialog is
    cancelled nothing changes and nothing is logged.  Otherwise the
    listbox gets at its end, once each, the paths of the names of the
    folder that end in ".csv" once lowered and that it did not have, and
    it then has the path of every such name; the number in the log line
    "Added n files" is the number of items the listbox has grown by, not
    the number of matching names. *)
Theorem add_folder_counts_new lower join sorted folder listdir f p :
  NoDup (_file_list f) ->
  NoDup (_file_list (fst (_add_folder lower join sorted folder listdir f p))) /\
  (folder = EmptyString ->
   _add_folder lower join sorted folder listdir f p = (f, p)) /\
  (folder <> EmptyString ->
   exists new,
     _file_list (fst (_add_folder lower join sorted folder listdir f p)) =
       _file_list f ++ new /\
     _log_txt (snd (_add_folder lower join sorted folder listdir f p)) =
       _log_txt p ++ [Line_added (List.length new) folder] /\
     (forall x, In x new ->
        ~ In x (_file_list f) /\
        exists fn, In fn (sorted listdir) /\
                   endswith (lower fn) ".csv" = true /\ x = join folder fn) /\
     (forall fn, In fn (sorted listdir) -> endswith (lower fn) ".csv" = true ->
        In (join folder fn)
          (_file_list (fst (_add_folder lower join sorted folder listdir f p)))) /\
     _file_count_lbl (fst (_add_folder lower join sorted folder listdir f p)) =
       count_text (List.length (_file_list f ++ new))).
Proof.
  intros Hl. unfold _add_folder.
  destruct folder as [|c folder']; cbn [truthy negb].
  - split; [exact Hl|]. split; [reflexivity|]. intros H. now contradiction H.
  - destruct (add_folder_loop_spec lower join (String c folder')
                (sorted listdir) (_file_list f) 0%nat Hl)
      as (new & E & Hn & Hnew & Hall).
    rewrite E. cbn [fst snd _update_count _file_list _file_count_lbl App_log _log_txt].
    split; [exact Hn|]. split; [discriminate|]. intros _.
    exists new. auto.
Qed.

Lemma add_folder_counts_new_witness :
  _file_list
    (fst (_add_folder (fun fn => fn) (fun d fn => (d ++ "/" ++ fn)%string)
            (fun l => l) "data" ["a.csv"; "b.txt"; "c.csv"]
            (_add_files ["data/a.csv"] files0) panel0)) =
    ["data/a.csv"; "data/c.csv"] /\
  _log_txt
    (snd (_add_folder (fun fn => fn) (fun d fn => (d ++ "/" ++ fn)%string)
            (fun l => l) "data" ["a.csv"; "b.txt"; "c.csv"]
            (_add_files ["data/a.csv"] files0) panel0)) =
    [Line_added 1 "data"].
Proof.
  destruct (add_folder_counts_new (fun fn => fn)
              (fun d fn => (d ++ "/" ++ fn)%string) (fun l => l)
              "data" ["a.csv"; "b.txt"; "c.csv"]
              (_add_files ["data/a.csv"] files0) panel0)
    as (_ & _ & H).
  - cbn. repeat constructor. intros [].
  - destruct (H ltac:(discriminate)) as (new & E & Hlog & _).
    split; [reflexivity|]. reflexivity.
Defined.

(** ** Removing the selection *)

Lemma unselected_below b sel : forall l i,
  (b < i)%nat -> unselected (b :: sel) i l = unselected sel i l.
Proof.
  induction l as [|x l IH]; intros i Hb; [reflexivity|].
  cbn [unselected existsb].
  rewrite (proj2 (Nat.eqb_neq i b)) by lia. cbn [orb].
  now rewrite !IH by lia.
Qed.

Lemma existsb_above i sel :
  Forall (fun b => (i < b)%nat) sel -> existsb (Nat.eqb i) sel = false.
Proof.
  induction 1 as [|b sel Hb _ IH]; [reflexivity|].
  cbn. rewrite IH, orb_false_r. apply Nat.eqb_neq. lia.
Qed.

(** Deleting an item that comes before every item already removed. *)
Lemma delete_unselected sel : forall l i a,
  Forall (fun b => (i + a < b)%nat) sel ->
  delete a (unselected sel i l) = unselected ((i + a)%nat :: sel) i l.
Proof.
  induction l as [|x l IH]; intros i a Hsel; [now destruct a|].
  cbn [unselected existsb].
  rewrite (existsb_above i sel)
    by (eapply Forall_impl; [|exact Hsel]; cbn; intros; lia).
  destruct a as [|a]; cbn [delete].
  - rewrite Nat.add_0_r, Nat.eqb_refl. cbn [orb].
    now rewrite unselected_below by lia.
  - rewrite (proj2 (Nat.eqb_neq i (i + S a))) by lia. cbn [orb].
    f_equal. rewrite IH by (now rewrite Nat.add_succ_comm).
    now rewrite Nat.add_succ_comm.
Qed.

Lemma remove_reversed sel : forall l,
  StronglySorted lt sel ->
  fold_left (fun l idx => delete idx l) (rev sel) l = unselected sel 0 l.
Proof.
  induction sel as [|a sel IH]; intros l Hs.
  - cbn. induction l as [|x l IHl]; [reflexivity|].
    cbn. f_equal.
    clear IHl. generalize 1%nat. induction l as [|y l IHl]; intros n;
      [reflexivity|]. cbn. f_equal. apply IHl.
  - inversion Hs as [|? ? Hs' Ha]; subst.
    cbn [rev]. rewrite fold_left_app. cbn [fold_left].
    rewrite IH by exact Hs'.
    apply (delete_unselected sel l 0 a). exact Ha.
Qed.

Lemma length_delete a : forall l,
  (a < List.length l)%nat ->
  List.length (delete a l) = Nat.pred (List.length l).
Proof.
  induction a as [|a IH]; intros [|x l] H; cbn in *; try lia.
  rewrite IH by lia. lia.
Qed.

(** Below [n] there is room for [a] and the indices after it. *)
Lemma sorted_bound sel : forall a n,
  StronglySorted lt (a :: sel) ->
  Forall (fun b => (b < n)%nat) (a :: sel) ->
  (a + List.length sel < n)%nat.
Proof.
  induction sel as [|b sel IH]; intros a n Hs Hn.
  - inversion Hn; subst. cbn. lia.
  - inversion Hs as [|? ? Hs' Ha]; subst. inversion Hn as [|? ? _ Hn']; subst.
    specialize (IH b n Hs' Hn'). inversion Ha; subst. cbn [List.length]. lia.
Qed.

Lemma length_removed sel : forall l,
  StronglySorted lt sel ->
  Forall (fun b => (b < List.length l)%nat) sel ->
  (List.length (fold_left (fun l idx => delete idx l) (rev sel) l)
   + List.length sel = List.length l)%nat.
Proof.
  induction sel as [|a sel IH]; intros l Hs Hn; [cbn; lia|].
  pose proof (sorted_bound sel a _ Hs Hn) as Hb.
  inversion Hs as [|? ? Hs' Ha]; subst. inversion Hn as [|? ? _ Hn']; subst.
  specialize (IH l Hs' Hn').
  cbn [rev]. rewrite fold_left_app. cbn [fold_left List.length].
  rewrite length_delete; lia.
Qed.

(** X11.  Removing the selection removes the selected items and no
    other: the indices that [curselection] returns, in increasing order,
    are deleted from the last to the first, so that each deletion leaves
    the items before it at their index.  What stays is the unselected
    items in their order; the listbox has as many items less as were
    selected, and the label shows the new number. *)
Theorem remove_selected curselection f :
  StronglySorted lt curselection ->
  Forall (fun idx => (idx < List.length (_file_list f))%nat) curselection ->
  _file_list (_remove_files curselection f) =
    unselected curselection 0 (_file_list f) /\
  (List.length (_file_list (_remove_files curselection f))
   + List.length curselection = List.length (_file_list f))%nat /\
  _file_count_lbl (_remove_files curselection f) =
    count_text (List.length (_file_list f) - List.length curselection).
Proof.
  intros Hs Hn.
  pose proof (length_removed curselection (_file_list f) Hs Hn) as Hlen.
  unfold _remove_files, _update_count. cbn [_file_list _file_count_lbl].
  split; [now apply remove_reversed|]. split; [exact Hlen|].
  f_equal. lia.
Qed.

Lemma remove_selected_witness :
  _file_list (_remove_files [0; 2]%nat (_add_files ["a"; "b"; "c"; "d"] files0)) =
    ["b"; "d"] /\
  _file_count_lbl (_remove_files [0; 2]%nat (_add_files ["a"; "b"; "c"; "d"] files0)) =
    "2 files selected".
Proof.
  destruct (remove_selected [0; 2]%nat (_add_files ["a"; "b"; "c"; "d"] files0))
    as (H1 & _ & H2).
  - repeat constructor.
  - cbn. repeat constructor.
  - split; [rewrite H1; reflexivity|rewrite H2; reflexivity].
Defined.

(** ** Dictionaries *)

Section DictFacts.

Context {V : Type}.
Implicit Types (d : list (string * V)) (k : string) (v : V).

Lemma dict_get_set_same k v d : dict_get k (dict_set k v d) = Some v.
Proof.
  induction d as [|[k' v'] d IH]; cbn.
  - now rewrite String.eqb_refl.
  - destruct (String.eqb k' k) eqn:E; cbn.
    + now rewrite String.eqb_refl.
    + now rewrite E.
Qed.

Lemma dict_get_set_other k k0 v d :
  k0 <> k -> dict_get k0 (dict_set k v d) = dict_get k0 d.
Proof.
  intros Hne. induction d as [|[k' v'] d IH]; cbn.
  - now rewrite (proj2 (String.eqb_neq k k0)) by congruence.
  - destruct (String.eqb k' k) eqn:E; cbn.
    + apply String.eqb_eq in E. subst k'.
      now rewrite !(proj2 (String.eqb_neq k k0)) by congruence.
    + now rewrite IH.
Qed.

(** Storing under a key that is there keeps the order of the keys;
    a new key comes last. *)
Lemma keys_set k v d :
  keys (dict_set k v d) =
    if listed k (keys d) then keys d else keys d ++ [k].
Proof.
  unfold listed. induction d as [|[k' v'] d IH]; cbn; [reflexivity|].
  rewrite (String.eqb_sym k k').
  destruct (String.eqb k' k) eqn:E; cbn.
  - apply String.eqb_eq in E. now subst.
  - unfold keys in IH. rewrite IH.
    now destruct (existsb (String.eqb k) (map fst d)).
Qed.

Lemma In_keys_set k k0 v d :
  In k0 (keys (dict_set k v d)) <-> k0 = k \/ In k0 (keys d).
Proof.
  rewrite keys_set. destruct (listed k (keys d)) eqn:E.
  - apply listed_In in E. split; [now right|]. intros [->|H]; auto.
  - rewrite in_app_iff. cbn. intuition.
Qed.

Lemma keys_del k d :
  keys (dict_del k d) = filter (fun k' => negb (String.eqb k' k)) (keys d).
Proof.
  unfold keys, dict_del. induction d as [|[k' v'] d IH]; cbn; [reflexivity|].
  destruct (String.eqb k' k); cbn; now rewrite IH.
Qed.

Lemma In_keys_del k k0 d :
  In k0 (keys (dict_del k d)) <-> In k0 (keys d) /\ k0 <> k.
Proof.
  rewrite keys_del, filter_In, negb_true_iff, String.eqb_neq. reflexivity.
Qed.

Lemma dict_get_del_other k k0 d :
  k0 <> k -> dict_get k0 (dict_del k d) = dict_get k0 d.
Proof.
  intros Hne. unfold dict_del.
  induction d as [|[k' v'] d IH]; cbn; [reflexivity|].
  destruct (String.eqb k' k) eqn:E; cbn.
  - apply String.eqb_eq in E. subst k'.
    now rewrite (proj2 (String.eqb_neq k k0)) by congruence.
  - now rewrite IH.
Qed.

Lemma dict_get_None k d : ~ In k (keys d) -> dict_get k d = None.
Proof.
  induction d as [|[k' v'] d IH]; cbn; [reflexivity|]. intros H.
  rewrite (proj2 (String.eqb_neq k' k)) by tauto. apply IH. tauto.
Qed.

End DictFacts.

(** ** Presets *)

Lemma truthy_ne s : truthy s = true <-> s <> EmptyString.
Proof. destruct s; cbn; intuition congruence. Qed.

Section Presets.

Variable strip : string -> string.

Lemma presets_of_mk d (ps : list (string * Preset)) :
  presets_of {| default := d; presets := Some ps |} = ps.
Proof. reflexivity. Qed.

Lemma default_of_mk d ps :
  default_of {| default := Some d; presets := ps |} = d.
Proof. reflexivity. Qed.

(** Reading the file depends on the file only. *)
Lemma load_Tab_log l t : _load_presets (Tab_log l t) = _load_presets t.
Proof. reflexivity. Qed.

Lemma load_set_preset_var name t :
  _load_presets (set_preset_var name t) = _load_presets t.
Proof. reflexivity. Qed.

Lemma load_refresh data t :
  _load_presets (_refresh_preset_dropdown data t) = _load_presets t.
Proof. reflexivity. Qed.

Lemma load_save_file data t : _load_presets (_save_presets_file data t) = data.
Proof. reflexivity. Qed.

(** What is read after a handler has written the file. *)
Lemma load_after_save l d data t :
  _load_presets
    (Tab_log l (_refresh_preset_dropdown d (_save_presets_file data t))) = data.
Proof. reflexivity. Qed.

(** What a handler that stores the form under [name] leaves on disk. *)
Lemma store_saved name p data :
  default_is_saved data -> name <> EmptyString ->
  default_is_saved (store name p data).
Proof.
  intros H Hn. left.
  unfold store, default_of, presets_of. cbn [default presets].
  apply In_keys_set.
  destruct (default data) as [[|c d]|] eqn:Hd; [now left| |now left].
  right. destruct H as [H|[_ H]].
  - unfold default_of in H. now rewrite Hd in H.
  - unfold default_of in H. rewrite Hd in H. discriminate H.
Qed.

(** X12.  The file of presets stays sound under the four handlers that
    write it: if its default names one of its presets (or is empty, when
    it has none), the same holds after Save, Save as, Delete and Default,
    whatever the dialogs answer.  A missing file is read as sound. *)
Theorem default_stays_saved t :
  default_is_saved (_load_presets (tab0 None)) /\
  (default_is_saved (_load_presets t) ->
   (forall asked, default_is_saved (_load_presets (_save_preset strip asked t))) /\
   (forall asked overwrite,
      default_is_saved (_load_presets (_save_preset_as strip asked overwrite t))) /\
   (forall yes, default_is_saved (_load_presets (_delete_preset strip yes t))) /\
   default_is_saved (_load_presets (_set_default_preset strip t))).
Proof.
  split; [right; now split|]. intros H. repeat split.
  - intros asked. unfold _save_preset.
    destruct (truthy (strip (_preset_var t))) eqn:Hname.
    + apply store_saved; [exact H|now apply truthy_ne].
    + destruct asked as [[|c n]|]; try exact H.
      apply store_saved; [exact H|discriminate].
  - intros [[|c n]|] overwrite; try exact H. unfold _save_preset_as.
    destruct (listed (String c n) (keys (presets_of (_load_presets t)))
              && negb overwrite); [exact H|].
    apply store_saved; [exact H|discriminate].
  - intros yes. unfold _delete_preset.
    destruct (truthy (strip (_preset_var t))) eqn:Hname; [|exact H].
    apply truthy_ne in Hname. cbn [negb].
    destruct (listed (strip (_preset_var t))
                (keys (presets_of (_load_presets t)))) eqn:Hin; [|exact H].
    apply listed_In in Hin. cbn [negb].
    destruct yes; [|exact H]. cbn [negb].
    cbv zeta. rewrite load_after_save.
    revert H Hin. generalize (strip (_preset_var t)) Hname. clear Hname.
    destruct (_load_presets t) as [dflt ps]. intros name Hname H Hin.
    unfold default_is_saved, default_of, presets_of in *.
    cbn [default presets] in *.
    destruct H as [H|[H _]]; [|rewrite H in Hin; contradiction].
    destruct dflt as [d|].
    + destruct (String.eqb_spec d name) as [->|Hne].
      * destruct (keys (dict_del name _)) as [|k ks] eqn:Hk.
        -- right. split; [|reflexivity].
           unfold keys in Hk. now apply map_eq_nil in Hk.
        -- left. now left.
      * left. apply In_keys_del. now split.
    + left. apply In_keys_del. split; [exact H|]. congruence.
  - unfold _set_default_preset.
    destruct (truthy (strip (_preset_var t))) eqn:Hname; [|exact H].
    cbn [negb].
    destruct (listed (strip (_preset_var t))
                (keys (presets_of (_load_presets t)))) eqn:Hin; [|exact H].
    apply listed_In in Hin. left. exact Hin.
Qed.

Lemma apply_preset_of_form f t :
  form (_apply_preset (preset_of_form strip f) t) = stored_form strip f.
Proof. reflexivity. Qed.

(** X13.  Save, then load: with a name in the combobox, Save stores the
    form under that name and leaves every other preset as it was; the
    form itself is not touched.  Loading that name back fills the form
    with the fields as they were stored: stripped, apart from the
    password and the kind of authentication, and with port 22 for an
    empty port. *)
Theorem saved_preset_round_trip asked t name :
  strip (_preset_var t) = name -> name <> EmptyString -> strip name = name ->
  dict_get name (presets_of (_load_presets (_save_preset strip asked t))) =
    Some (preset_of_form strip (form t)) /\
  (forall k, k <> name ->
     dict_get k (presets_of (_load_presets (_save_preset strip asked t))) =
       dict_get k (presets_of (_load_presets t))) /\
  form (_save_preset strip asked t) = form t /\
  _log_txt (panel (_save_preset strip asked t)) =
    _log_txt (panel t) ++ [Line_preset_saved name] /\
  form (_load_preset_from_combo strip
          (set_preset_var name (_save_preset strip asked t))) =
    stored_form strip (form t).
Proof.
  intros Hname Hne Hidem. unfold _save_preset.
  rewrite Hname, (proj2 (truthy_ne name) Hne).
  split; [apply dict_get_set_same|].
  split; [intros k Hk; now apply dict_get_set_other|].
  split; [reflexivity|]. split; [reflexivity|].
  unfold _load_preset_from_combo. cbn [_preset_var set_preset_var].
  rewrite Hidem.
  change (_load_presets (set_preset_var name ?x)) with (_load_presets x).
  rewrite load_after_save.
  unfold store, presets_of at 1. cbn [presets].
  rewrite dict_get_set_same. reflexivity.
Qed.

(** X14.  Delete removes the preset named in the combobox and no other.
    When it was the default, the first of the presets that remain, in
    the order of the file, becomes the default, and the default is empty
    when none remains; another default stays.  The combobox then shows
    the default.  Nothing is written when the user declines, and a name
    that is not saved only gets a warning. *)
Theorem delete_preset_moves_default t name :
  strip (_preset_var t) = name -> name <> EmptyString ->
  (~ In name (keys (presets_of (_load_presets t))) ->
   forall yes,
     _delete_preset strip yes t = showwarning (Box_no_preset name) t) /\
  (In name (keys (presets_of (_load_presets t))) ->
   _delete_preset strip false t = t /\
   ~ In name (keys (presets_of (_load_presets (_delete_preset strip true t)))) /\
   keys (presets_of (_load_presets (_delete_preset strip true t))) =
     filter (fun k => negb (String.eqb k name))
       (keys (presets_of (_load_presets t))) /\
   (forall k, k <> name ->
      dict_get k (presets_of (_load_presets (_delete_preset strip true t))) =
        dict_get k (presets_of (_load_presets t))) /\
   (default (_load_presets t) = Some name ->
    default (_load_presets (_delete_preset strip true t)) =
      Some (hd EmptyString
              (keys (presets_of (_load_presets (_delete_preset strip true t)))))) /\
   (default (_load_presets t) <> Some name ->
    default (_load_presets (_delete_preset strip true t)) =
      default (_load_presets t)) /\
   (In (default_of (_load_presets (_delete_preset strip true t)))
       (keys (presets_of (_load_presets (_delete_preset strip true t)))) ->
    _preset_var (_delete_preset strip true t) =
      default_of (_load_presets (_delete_preset strip true t)))).
Proof.
  intros Hname Hne. unfold _delete_preset.
  rewrite Hname, (proj2 (truthy_ne name) Hne). cbn [negb].
  split.
  - intros Hin yes. now rewrite (proj2 (listed_not_In name _) Hin).
  - intros Hin. rewrite (proj2 (listed_In name _) Hin). cbn [negb].
    split; [reflexivity|]. cbv zeta. rewrite !load_after_save.
    rewrite !presets_of_mk. cbn [default].
    split; [rewrite In_keys_del; tauto|].
    split; [apply keys_del|].
    split; [intros k Hk; now apply dict_get_del_other|].
    split; [|split].
    + intros ->. rewrite String.eqb_refl.
      now destruct (keys (dict_del name _)).
    + intros Hd. destruct (default (_load_presets t)) as [d|]; [|reflexivity].
      destruct (String.eqb_spec d name) as [->|_]; [now contradiction Hd|].
      reflexivity.
    + intros Hdef. apply listed_In in Hdef.
      unfold _refresh_preset_dropdown, Tab_log, set_preset_var.
      cbn [_preset_var]. rewrite presets_of_mk. now rewrite Hdef.
Qed.

(** X15.  Save leaves the combobox on the default preset, not on the
    name just saved: [_refresh_preset_dropdown] sets it, and
    [_save_preset] does not set it back.  So after a preset has been
    saved under a name that is not the default, a second Save stores the
    form under the name of the default preset and replaces what that
    preset held. *)
Theorem second_save_replaces_default asked1 asked2 t name d :
  strip (_preset_var t) = name -> name <> EmptyString ->
  default (_load_presets t) = Some d -> d <> EmptyString ->
  In d (keys (presets_of (_load_presets t))) -> d <> name -> strip d = d ->
  _preset_var (_save_preset strip asked1 t) = d /\
  dict_get d
    (presets_of
       (_load_presets (_save_preset strip asked2 (_save_preset strip asked1 t)))) =
    Some (preset_of_form strip (form t)) /\
  _log_txt (panel (_save_preset strip asked2 (_save_preset strip asked1 t))) =
    _log_txt (panel t) ++ [Line_preset_saved name; Line_preset_saved d].
Proof.
  intros Hname Hne Hd Hdne Hin Hdn Hidem.
  assert (H1 : _save_preset strip asked1 t =
               Tab_log (Line_preset_saved name)
                 (_refresh_preset_dropdown
                    (store name (preset_of_form strip (form t)) (_load_presets t))
                    (_save_presets_file
                       (store name (preset_of_form strip (form t))
                          (_load_presets t)) t))).
  { unfold _save_preset. now rewrite Hname, (proj2 (truthy_ne name) Hne). }
  assert (Hvar : _preset_var (_save_preset strip asked1 t) = d).
  { rewrite H1. unfold Tab_log, _refresh_preset_dropdown, set_preset_var.
    cbn [_preset_var]. unfold store, default_of. rewrite Hd.
    destruct d as [|c d']; [now contradiction Hdne|]. cbn [default].
    rewrite presets_of_mk.
    rewrite (proj2 (listed_In _ _)); [reflexivity|].
    apply In_keys_set. now right. }
  split; [exact Hvar|].
  assert (H2 : _save_preset strip asked2 (_save_preset strip asked1 t) =
               Tab_log (Line_preset_saved d)
                 (_refresh_preset_dropdown
                    (store d (preset_of_form strip (form t))
                       (_load_presets (_save_preset strip asked1 t)))
                    (_save_presets_file
                       (store d (preset_of_form strip (form t))
                          (_load_presets (_save_preset strip asked1 t)))
                       (_save_preset strip asked1 t)))).
  { assert (Hform : form (_save_preset strip asked1 t) = form t)
      by (now rewrite H1).
    unfold _save_preset at 1. rewrite Hvar, Hidem, (proj2 (truthy_ne d) Hdne).
    now rewrite Hform. }
  rewrite H2, load_after_save. split.
  - unfold store at 1. rewrite presets_of_mk. apply dict_get_set_same.
  - cbn [Tab_log panel App_log _log_txt _refresh_preset_dropdown set_preset_var
         set_preset_values _save_presets_file].
    rewrite H1.
    cbn [Tab_log panel App_log _log_txt _refresh_preset_dropdown set_preset_var
         set_preset_values _save_presets_file].
    now rewrite <- app_assoc.
Qed.

(** X16.  Save as writes over a preset that exists only when the user
    says yes to "Overwrite?"; for a new name the dialog is not shown.
    When it saves, the form is stored under the name as it was typed,
    which the combobox then shows, and the other presets are left as they
    were.  The name is not stripped, while the handlers that read the
    combobox strip it: a name that [strip] changes is not found when it
    is loaded. *)
Theorem save_as_overwrites_on_yes t name :
  name <> EmptyString ->
  (In name (keys (presets_of (_load_presets t))) ->
   _save_preset_as strip (Some name) false t = t) /\
  (~ In name (keys (presets_of (_load_presets t))) ->
   _save_preset_as strip (Some name) false t =
     _save_preset_as strip (Some name) true t) /\
  dict_get name
    (presets_of (_load_presets (_save_preset_as strip (Some name) true t))) =
    Some (preset_of_form strip (form t)) /\
  (forall k, k <> name ->
     dict_get k
       (presets_of (_load_presets (_save_preset_as strip (Some name) true t))) =
       dict_get k (presets_of (_load_presets t))) /\
  _preset_var (_save_preset_as strip (Some name) true t) = name /\
  (strip name <> name ->
   ~ In (strip name) (keys (presets_of (_load_presets t))) ->
   _load_preset_from_combo strip (_save_preset_as strip (Some name) true t) =
     showwarning (Box_not_found (strip name))
       (_save_preset_as strip (Some name) true t)).
Proof.
  intros Hne. destruct name as [|c n]; [now contradiction Hne|].
  unfold _save_preset_as. rewrite andb_false_r.
  split; [intros Hin; now rewrite (proj2 (listed_In _ _) Hin)|].
  split; [intros Hin; now rewrite (proj2 (listed_not_In _ _) Hin)|].
  cbv zeta.
  rewrite !load_Tab_log, !load_set_preset_var, !load_refresh, !load_save_file.
  unfold store at 1 2. rewrite !presets_of_mk.
  split; [apply dict_get_set_same|].
  split; [intros k Hk; now apply dict_get_set_other|].
  split; [reflexivity|].
  intros Hs Hin. unfold _load_preset_from_combo.
  rewrite !load_Tab_log, !load_set_preset_var, !load_refresh, !load_save_file.
  cbn [_preset_var set_preset_var Tab_log].
  unfold store at 1. rewrite presets_of_mk.
  rewrite dict_get_None; [reflexivity|].
  rewrite In_keys_set. tauto.
Qed.

End Presets.

Lemma default_stays_saved_witness :
  default_is_saved
    (_load_presets
       (_delete_preset strip_blanks true
          (set_preset_var " home" (tab0 (Some two_presets))))).
Proof.
  destruct (default_stays_saved strip_blanks
              (set_preset_var " home" (tab0 (Some two_presets)))) as [_ H].
  apply H. left. cbn. now left.
Defined.

Lemma saved_preset_round_trip_witness :
  form (_load_preset_from_combo strip_blanks
          (set_preset_var "office"
             (_save_preset strip_blanks None
                (set_form office (set_preset_var " office " (tab0 None)))))) =
    {| v_host := "example.org"; v_port := "22"; v_user := "alice";
       v_auth := "password"; v_pw := " secret "; v_key := EmptyString;
       v_rdir := "upload/" |}.
Proof.
  destruct (saved_preset_round_trip strip_blanks None
              (set_form office (set_preset_var " office " (tab0 None)))
              "office") as (_ & _ & _ & _ & H).
  - reflexivity.
  - discriminate.
  - reflexivity.
  - rewrite H. reflexivity.
Defined.

Lemma delete_preset_moves_default_witness :
  default
    (_load_presets
       (_delete_preset strip_blanks true
          (set_preset_var "home" (tab0 (Some two_presets))))) = Some "lab" /\
  _preset_var
    (_delete_preset strip_blanks true
       (set_preset_var "home" (tab0 (Some two_presets)))) = "lab".
Proof.
  destruct (delete_preset_moves_default strip_blanks
              (set_preset_var "home" (tab0 (Some two_presets))) "home")
    as (_ & H).
  - reflexivity.
  - discriminate.
  - destruct H as (_ & _ & _ & _ & Hd & _ & Hv); [cbn; now left|].
    split; [rewrite Hd; reflexivity|].
    rewrite Hv; [reflexivity|]. cbn. now left.
Defined.

Lemma second_save_replaces_default_witness :
  dict_get "home"
    (presets_of
       (_load_presets
          (_save_preset strip_blanks None
             (_save_preset strip_blanks None
                (set_form office
                   (set_preset_var "office" (tab0 (Some two_presets)))))))) =
    Some (preset_of_form strip_blanks office).
Proof.
  destruct (second_save_replaces_default strip_blanks None None
              (set_form office (set_preset_var "office" (tab0 (Some two_presets))))
              "office" "home") as (_ & H & _).
  - reflexivity.
  - discriminate.
  - reflexivity.
  - discriminate.
  - cbn. now left.
  - discriminate.
  - reflexivity.
  - exact H.
Defined.

Lemma save_as_overwrites_on_yes_witness :
  _save_preset_as strip_blanks (Some "lab") false
    (set_form office (tab0 (Some two_presets))) =
    set_form office (tab0 (Some two_presets)) /\
  boxes
    (_load_preset_from_combo strip_blanks
       (_save_preset_as strip_blanks (Some " office") true
          (set_form office (tab0 (Some two_presets))))) =
    [Box_not_found "office"].
Proof.
  destruct (save_as_overwrites_on_yes strip_blanks
              (set_form office (tab0 (Some two_presets))) "lab")
    as (H1 & _); [discriminate|].
  destruct (save_as_overwrites_on_yes strip_blanks
              (set_form office (tab0 (Some two_presets))) " office")
    as (_ & _ & _ & _ & _ & H2); [discriminate|].
  split.
  - apply H1. cbn. auto.
  - rewrite H2; [reflexivity|discriminate|].
    cbn. intros [H|[H|[]]]; discriminate H.
Defined.

(** ** Starting a run *)

Section Starting.

Variable strip : string -> string.
Variable int : string -> option Z.

(** X17.  [_start] starts a worker only for a list of files that is not
    empty, with a host and a user name that are not empty once stripped,
    and, for a start delay above 30 minutes, after the user has
    confirmed.  The worker gets the files of the listbox and the [dict]
    of [_get_cfg]; the three queues are new and empty, so that nothing
    left by an earlier run reaches it; Start is disabled and Stop is
    enabled.  In every other case nothing changes.  With the start delay
    unchecked the entry of the start delay is not read. *)
Theorem start_guards ok f o fl p :
  (forall cfg files,
     fst (_start strip int ok f o fl p) = Worker cfg files ->
     files = _file_list fl /\ files <> [] /\ cfg = _get_cfg strip f o /\
     strip (v_host f) <> EmptyString /\ strip (v_user f) <> EmptyString /\
     (exists m, int (cfg_start_delay_min cfg) = Some m /\
                (30 < m -> ok = true)) /\
     snd (_start strip int ok f o fl p) =
       {| _log_q := []; _confirm_q := []; _reply_q := [];
          _timer_lbl := _timer_lbl p; _start_btn := false; _stop_btn := true;
          _log_txt := _log_txt p |}) /\
  ((forall cfg files, fst (_start strip int ok f o fl p) <> Worker cfg files) ->
   snd (_start strip int ok f o fl p) = p) /\
  (v_use_start_delay o = false ->
   forall o',
     v_use_delay o' = v_use_delay o -> v_delay o' = v_delay o ->
     v_use_test o' = v_use_test o -> v_test_n o' = v_test_n o ->
     v_use_start_delay o' = false ->
     _start strip int ok f o' fl p = _start strip int ok f o fl p).
Proof.
  unfold _start. split; [|split].
  - intros cfg files.
    destruct (_file_list fl) as [|x l]; [discriminate|].
    destruct (truthy (cfg_host (_get_cfg strip f o))) eqn:Hh;
      [|discriminate].
    destruct (truthy (cfg_username (_get_cfg strip f o))) eqn:Hu;
      [|discriminate].
    cbn [negb orb].
    destruct (int (cfg_start_delay_min (_get_cfg strip f o))) as [m|] eqn:Hm;
      [|discriminate].
    destruct (30 <? m) eqn:H30; destruct ok; cbn [negb andb fst snd];
      try discriminate; intros E; injection E as <- <-;
      (split; [reflexivity|]); (split; [discriminate|]);
      (split; [reflexivity|]);
      (split; [now apply truthy_ne|]); (split; [now apply truthy_ne|]);
      (split; [|reflexivity]); exists m; (split; [exact Hm|]); intros H;
      try reflexivity; apply Z.ltb_ge in H30; lia.
  - intros H.
    destruct (_file_list fl) as [|x l]; [reflexivity|].
    destruct (negb (truthy (cfg_host (_get_cfg strip f o)))
              || negb (truthy (cfg_username (_get_cfg strip f o))));
      [reflexivity|].
    destruct (int (cfg_start_delay_min (_get_cfg strip f o))) as [m|];
      [|reflexivity].
    destruct ((30 <? m) && negb ok); [reflexivity|].
    now contradiction (H (_get_cfg strip f o) (x :: l)).
  - intros Ho o' H1 H2 H3 H4 H5.
    assert (E : _get_cfg strip f o' = _get_cfg strip f o).
    { unfold _get_cfg. now rewrite H1, H2, H3, H4, H5, Ho. }
    now rewrite E.
Qed.

End Starting.

Lemma start_guards_witness :
  _reply_q
    (snd (_start strip_blanks int_digits false office opts0
            (_add_files ["a.csv"] files0)
            (_ask_continue false (set_buttons true false panel0)))) = [] /\
  _start_btn
    (snd (_start strip_blanks int_digits false office opts0
            (_add_files ["a.csv"] files0)
            (_ask_continue false (set_buttons true false panel0)))) = false.
Proof.
  destruct (start_guards strip_blanks int_digits false office opts0
              (_add_files ["a.csv"] files0)
              (_ask_continue false (set_buttons true false panel0)))
    as (Hw & _).
  destruct (Hw _ _ eq_refl) as (_ & _ & _ & _ & _ & _ & Hp).
  rewrite Hp. split; reflexivity.
Defined.

(** ** Entries that are not numbers *)

(** X18.  [_start] converts the start delay only; the entries of the
    delay and of the test count are converted by the worker, after the
    connect and outside every [try].  With an entry in use that [int]
    rejects, a run whose connect succeeds ends its thread there: it has
    put no done item and handled no file, the session it has opened stays
    open, and however the GUI polls, Start stays disabled and Stop
    enabled.  The run ends in the regular way only when it is stopped
    during the initial delay or when the connect fails. *)
Theorem unconverted_entry_ends_thread int raw files env s start_delay :
  int (cfg_start_delay_min raw) = Some start_delay ->
  (cfg_use_delay raw = true /\ int (cfg_delay raw) = None) \/
  (cfg_use_test raw = true /\ int (cfg_test_n raw) = None) ->
  (fst (snd (run_raw int raw files env s)) = Died \/
   fst (snd (run_raw int raw files env s)) = Finished Return_initial_delay \/
   fst (snd (run_raw int raw files env s)) = Finished Return_connect_failed) /\
  (fst (snd (run_raw int raw files env s)) = Died ->
   count is_done (fst (run_raw int raw files env s)) = 0%nat /\
   attempts (fst (run_raw int raw files env s)) = [] /\
   closed (snd (snd (run_raw int raw files env s))) = closed s /\
   connects (snd (snd (run_raw int raw files env s))) = S (connects s) /\
   transport (snd (snd (run_raw int raw files env s))) <> None /\
   forall batches p,
     List.concat (map fst batches) = fst (run_raw int raw files env s) ->
     _log_q p = [] ->
     _start_btn (polls batches p) = _start_btn p /\
     _stop_btn (polls batches p) = _stop_btn p).
Proof.
  intros Hsd Hbad. unfold run_raw. rewrite Hsd.
  assert (Hconv : convert int raw start_delay = None).
  { unfold convert. destruct Hbad as [[-> ->]|[-> ->]]; [reflexivity|].
    now destruct (if cfg_use_delay raw then int (cfg_delay raw) else Some 0). }
  rewrite Hconv.
  set (cfg := before_conversion raw start_delay).
  pose proof (before_loop_cases cfg env s) as Hc.
  pose proof (before_loop_spec cfg env done_sequential done_init s) as Hd.
  pose proof (before_loop_spec cfg env unattempted_sequential unattempted_init s)
    as Ha.
  destruct ((initial_delay cfg env ;; initial_connect cfg env) s)
    as [t [[] s1|e s1]]; cbn [fst snd].
  - split; [now left|]. intros _.
    destruct Hc as (Hcl & Hn & n & Ht & _).
    split; [exact Hd|]. split; [exact Ha|]. split; [exact Hcl|].
    split; [exact Hn|]. split; [congruence|].
    intros batches p Hb Hq.
    destruct (polls_spec batches p Hq) as (_ & _ & H3 & H4).
    destruct (no_done_lines t Hd) as [_ Hnd].
    rewrite H3, H4, Hb, Hnd. auto.
  - split; [|discriminate].
    destruct Hc as (_ & [(-> & _)|(-> & _)]); auto.
Qed.

Lemma unconverted_entry_ends_thread_witness :
  fst (_start strip_blanks int_digits false office
         {| v_use_delay := true; v_delay := "1.5";
            v_use_test := false; v_test_n := "3";
            v_use_start_delay := false; v_start_delay := "0" |}
         (_add_files ["a.csv"] files0) panel0) =
    Worker
      (_get_cfg strip_blanks office
         {| v_use_delay := true; v_delay := "1.5";
            v_use_test := false; v_test_n := "3";
            v_use_start_delay := false; v_start_delay := "0" |})
      ["a.csv"] /\
  run_raw int_digits
    (_get_cfg strip_blanks office
       {| v_use_delay := true; v_delay := "1.5";
          v_use_test := false; v_test_n := "3";
          v_use_start_delay := false; v_start_delay := "0" |})
    ["a.csv"] calm init =
    ([Log (Msg_connecting "example.org" "22"); Log (Msg_connected "/home/user")],
     (Died,
      {| _stop := false; reply_q := []; now := 2%nat; slept := 0%nat;
         transport := Some 0%nat; connects := 1%nat; closed := false |})) /\
  closed
    (snd (snd (run_raw int_digits
                 (_get_cfg strip_blanks office
                    {| v_use_delay := true; v_delay := "1.5";
                       v_use_test := false; v_test_n := "3";
                       v_use_start_delay := false; v_start_delay := "0" |})
                 ["a.csv"] calm init))) = false.
Proof.
  split; [reflexivity|]. split; [vm_compute; reflexivity|].
  destruct (unconverted_entry_ends_thread int_digits
              (_get_cfg strip_blanks office
                 {| v_use_delay := true; v_delay := "1.5";
                    v_use_test := false; v_test_n := "3";
                    v_use_start_delay := false; v_start_delay := "0" |})
              ["a.csv"] calm init 0) as (_ & H).
  - reflexivity.
  - left. split; reflexivity.
  - destruct (H ltac:(vm_compute; reflexivity)) as (_ & _ & Hc & _).
    exact Hc.
Defined.

(** ** The ways out of a run, once more *)

Section Outcomes.

Variable cfg : Cfg.
Variable files : list string.
Variable env : Env.

(** The code before the loop and the session: it returns when [_connect]
    and [sftp.normalize] have returned; it leaves at the initial delay
    before any call of [_connect]; it leaves at the connect when
    [_connect] has raised, or when [_connect] has opened a session and
    [sftp.normalize] has raised. *)
Lemma before_loop_sessions s :
  match (initial_delay cfg env ;; initial_connect cfg env) s with
  | (_, Val _ s0) =>
      connects s0 = S (connects s) /\
      exists n home,
        connect_raises env n = None /\ normalize env (S n) = inr home /\
        transport s0 = Some n
  | (_, Exc e s0) =>
      (e = Return_initial_delay /\ connects s0 = connects s /\
       transport s0 = transport s) \/
      (e = Return_connect_failed /\ connects s0 = S (connects s) /\
       ((exists n exc,
           connect_raises env n = Some exc /\ transport s0 = transport s) \/
        (exists n exc,
           connect_raises env n = None /\ normalize env (S n) = inl exc /\
           transport s0 = Some n)))
  end.
Proof.
  destruct (initial_delay_cases cfg env s)
    as (t & r & s1 & Hd & [-> | ->] & Hc & Ht & _).
  - rewrite (bind_run_val _ _ _ _ _ _ Hd), initial_connect_eq.
    destruct (connect_raises env (now s1)) as [exc|] eqn:Hr; cbn [fst snd].
    + right. split; [reflexivity|]. cbn [connects count_connect transport].
      rewrite land_connects, land_transport.
      split; [now f_equal|]. left. now exists (now s1), exc.
    + cbv zeta.
      destruct (normalize env (S (now s1))) as [exc|home] eqn:Hn; cbn [fst snd];
        rewrite land_connects, land_transport;
        cbn [connects count_connect set_session transport];
        rewrite land_connects.
      * right. split; [reflexivity|]. split; [now f_equal|].
        right. now exists (now s1), exc.
      * split; [now f_equal|]. now exists (now s1), home.
  - rewrite (bind_run_exc _ _ _ _ _ _ Hd). left. auto.
Qed.

(** A [return] before the loop ends the run there. *)
Lemma run_at_return s t e s1 :
  (initial_delay cfg env ;; initial_connect cfg env) s = (t, Exc e s1) ->
  run cfg files env s = (t, (e, s1)).
Proof. intros H. unfold run. now rewrite H. Qed.

(** An exit taken in the loop ends the run: the [finally] block, and
    nothing else, follows. *)
Lemma run_after_exit s t0 s0 t1 e s1 :
  (initial_delay cfg env ;; initial_connect cfg env) s = (t0, Val tt s0) ->
  for_files cfg files env 1 files s0 = (t1, Exc e s1) ->
  e <> Blocked ->
  exists s', run cfg files env s = (t0 ++ t1 ++ [Done true], (e, s')).
Proof.
  intros Hi Hl Hb. unfold run. rewrite Hi, Hl.
  destruct (finally_eq env s1) as [s' Hf]. rewrite Hf. exists s'.
  destruct e; try reflexivity. now contradiction Hb.
Qed.

(** An exit taken by [upload] is an exit of the iteration. *)
Lemma iteration_exit_in_upload idx fpath s t e s1 :
  _stop (land env s) = false ->
  upload cfg files env idx fpath (land env s) = (t, Exc e s1) ->
  iteration cfg files env idx fpath s = (t, Exc e s1).
Proof.
  intros Hs Hu. rewrite iteration_eq, Hs. now apply bind_run_exc.
Qed.

(** The iteration, once the upload and the pause have returned. *)
Lemma iteration_after_pause idx fpath s t s1 tp s2 :
  _stop (land env s) = false ->
  upload cfg files env idx fpath (land env s) = (t, Val tt s1) ->
  test_batch_pause cfg env idx s1 = (tp, Val tt s2) ->
  iteration cfg files env idx fpath s =
    (t ++ tp ++ fst (inter_file_delay cfg files env idx s2),
     snd (inter_file_delay cfg files env idx s2)).
Proof.
  intros Hs Hu Hp.
  rewrite (iteration_after_upload cfg files env idx fpath s t s1 Hs Hu).
  now rewrite (bind_run_val _ _ _ _ _ _ Hp).
Qed.

End Outcomes.

(** ** The terminal flag *)

(** C1, as the code has it.  The flag of the terminal event of a run is
    [False] only when the run ended at the [return] of the initial delay
    (stopped during the pre-start wait, before any call of [_connect]) or
    at the [return] of the initial connect.  The latter is taken when
    [_connect] raises, and no session is opened, and also when [_connect]
    has opened a session and the first request on it, [sftp.normalize],
    raises.  The flag is [True] on every other way out: stopped by the
    user in the loop, declined at the test-batch pause, a failed
    reconnect, an interrupted inter-file wait, and the end of the file
    list; all of them come after an initial connect in which [_connect]
    and [sftp.normalize] have returned. *)
Theorem terminal_flag cfg files env s t e s' :
  run cfg files env s = (t, (e, s')) -> e <> Blocked ->
  exists t0 b,
    t = t0 ++ [Done b] /\
    (b = false <-> e = Return_initial_delay \/ e = Return_connect_failed) /\
    (b = true <-> is_break e = true \/ e = Loop_exhausted) /\
    (e = Return_initial_delay ->
       (exists t1, t0 = t1 ++ [Log Msg_stopped_initial_delay]) /\
       connects s' = connects s /\ transport s' = transport s) /\
    (e = Return_connect_failed ->
       (exists t1 exc, t0 = t1 ++ [Log (Msg_connection_failed exc)]) /\
       connects s' = S (connects s) /\
       ((exists n exc,
           connect_raises env n = Some exc /\ transport s' = transport s) \/
        (exists n exc,
           connect_raises env n = None /\ normalize env (S n) = inl exc /\
           transport s' = Some n))) /\
    (b = true ->
       exists n home,
         connect_raises env n = None /\ normalize env (S n) = inr home).
Proof.
  intros Hrun Hb.
  destruct (run_terminal _ _ _ _ _ _ _ Hrun Hb) as (t0 & H0 & Ht).
  exists t0, (negb (is_return e)). split; [exact Ht|].
  pose proof (before_loop_sessions cfg env s) as Hs.
  assert (Hcases :
    (is_return e = true /\
     (initial_delay cfg env ;; initial_connect cfg env) s = (t, Exc e s')) \/
    (is_return e = false /\
     exists t1 s0,
       (initial_delay cfg env ;; initial_connect cfg env) s = (t1, Val tt s0))).
  { destruct (run_cases cfg files env s) as
      [(t1 & e1 & s1 & Hi & Hk & Hr)
      |[(t1 & s1 & t2 & s2 & Hi & Hl & Hr)
       |(t1 & s1 & t2 & r & e1 & s2 & Hi & Hl & Hf & Hr)]];
      rewrite Hr in Hrun; inversion Hrun; subst; clear Hrun.
    - left. auto.
    - now contradiction Hb.
    - right. split; [|now exists t1, s1].
      destruct r as [[] s3|e3 s3]; [now destruct Hf as [-> _]|].
      now destruct Hf as (-> & _ & Hk & _). }
  pose proof (run_shape _ _ _ _ _ _ _ Hrun) as Hshape. subst t.
  split; [destruct e; cbn; intuition (discriminate || congruence)|].
  split; [destruct e; cbn; intuition (discriminate || congruence)|].
  split; [|split].
  - intros ->. destruct Hcases as [[_ Hi]|[Hk _]]; [|discriminate Hk].
    rewrite Hi in Hs.
    destruct Hs as [(_ & Hc & Htr)|(He & _)]; [|discriminate He].
    split; [|now split].
    cbn in Hshape. destruct Hshape as (t1 & _ & H).
    change [Log Msg_stopped_initial_delay; Done false]
      with ([Log Msg_stopped_initial_delay] ++ [Done false]) in H.
    rewrite app_assoc in H. apply app_last_inj in H. destruct H as [-> _].
    now exists t1.
  - intros ->. destruct Hcases as [[_ Hi]|[Hk _]]; [|discriminate Hk].
    rewrite Hi in Hs.
    destruct Hs as [(He & _)|(_ & Hc & Htr)]; [discriminate He|].
    split; [|now split].
    cbn in Hshape. destruct Hshape as (t1 & exc & _ & H).
    change [Log (Msg_connection_failed exc); Done false]
      with ([Log (Msg_connection_failed exc)] ++ [Done false]) in H.
    rewrite app_assoc in H. apply app_last_inj in H. destruct H as [-> _].
    now exists t1, exc.
  - intros Htrue. apply negb_true_iff in Htrue.
    destruct Hcases as [[Hk _]|[_ (t1 & s0 & Hi)]]; [congruence|].
    rewrite Hi in Hs. destruct Hs as (_ & n & home & H1 & H2 & _).
    now exists n, home.
Qed.

Lemma terminal_flag_witness :
  exists t0 b,
    fst (run plain ["a"; "b"] (click_at 4 calm) init) = t0 ++ [Done b] /\
    (b = true <-> is_break Break_stopped = true \/ Break_stopped = Loop_exhausted).
Proof.
  destruct (terminal_flag plain ["a"; "b"] (click_at 4 calm) init
              (fst (run plain ["a"; "b"] (click_at 4 calm) init))
              Break_stopped
              (snd (snd (run plain ["a"; "b"] (click_at 4 calm) init))))
    as (t0 & b & Ht & _ & Hb & _).
  - vm_compute. reflexivity.
  - discriminate.
  - exists t0, b. split; [exact Ht|exact Hb].
Defined.

(** C1 as stated fails: nothing delays the start, [_connect] opens a
    session during the worker's first call and [sftp.normalize] raises.
    The run ends with [("done", False)], and a session was established. *)
Lemma done_false_with_a_session :
  run plain ["a"] (no_home calm) init =
    ([Log (Msg_connecting "example.org" "22");
      Log (Msg_connection_failed "Permission denied"); Done false],
     (Return_connect_failed,
      {| _stop := false; reply_q := []; now := 2%nat; slept := 0%nat;
         transport := Some 0%nat; connects := 1%nat; closed := false |})) /\
  connect_raises (no_home calm) 0 = None /\
  start_delay_min plain = 0.
Proof. vm_compute. repeat split. Qed.

(** ** Errors *)

Section ConnectionErrors.

Variable cfg : Cfg.
Variable files : list string.
Variable env : Env.

(** A lost session and a [_connect] that raises: [upload] leaves. *)
Lemma upload_reconnect_failed idx fpath s exc :
  path_exists env (now s) fpath = true ->
  active env (S (now s)) = false ->
  connect_raises env (S (S (now s))) = Some exc ->
  upload cfg files env idx fpath s =
    ([Log Msg_connection_lost; Log (Msg_reconnect_failed exc)],
     Exc Break_reconnect_failed (count_connect (land env (land env (land env s))))).
Proof.
  intros Hf Ha Hc. rewrite upload_eq. cbv zeta.
  rewrite Hf. cbn [negb]. rewrite ?land_now, Ha, Hc. reflexivity.
Qed.

Lemma reconnect_after_delay_failed s exc :
  RECONNECT_THRESH <= delay_ cfg ->
  active env (now s) = false ->
  connect_raises env (S (now s)) = Some exc ->
  reconnect_after_delay cfg env s =
    ([Log Msg_reconnecting_after_delay; Log (Msg_reconnect_failed exc)],
     Exc Break_reconnect_after_delay (count_connect (land env (land env s)))).
Proof.
  intros Hth Ha Hc. rewrite reconnect_after_delay_eq.
  now rewrite (proj2 (Z.leb_le _ _) Hth), Ha, Hc.
Qed.

(** A run whose initial connect leaves. *)
Lemma run_connect_failed s t s1 t' e s2 :
  initial_delay cfg env s = (t, Val tt s1) ->
  initial_connect cfg env s1 = (t', Exc e s2) ->
  run cfg files env s = (t ++ t', (e, s2)).
Proof.
  intros Hd Hc. apply run_at_return.
  rewrite (bind_run_val _ _ _ _ _ _ Hd), Hc. reflexivity.
Qed.

End ConnectionErrors.

(** C3.  A missing file and a failed upload are logged and [upload]
    returns: the iteration goes on with its pause and its delay, and the
    loop with the next file.  So in a run that nothing else ends, every
    file is handled in order whatever files are missing and whatever
    uploads fail.  A connection-level error always ends the run.  At the
    initial connect, when [_connect] or [sftp.normalize] raises, the run
    returns with the failure log and [("done", False)] before any file is
    handled.  In the loop, when the session is lost and [_connect] raises,
    [upload] leaves ([upload] leaves in no other case), and the iteration
    and the loop leave with it; when the reconnect after a long delay
    raises, the inter-file delay leaves; and a run whose loop is left at
    a reconnect ends with the failure log and [("done", True)]. *)
Theorem per_file_errors_continue cfg files env :
  (forall idx fpath s,
     path_exists env (now s) fpath = false ->
     upload cfg files env idx fpath s =
       ([Log (Msg_skip idx (total_ files) (basename env fpath))],
        Val tt (land env s))) /\
  (forall idx fpath s exc,
     path_exists env (now s) fpath = true ->
     active env (S (now s)) = true ->
     put_raises env (S (S (now s))) fpath (remote_path_of cfg env fpath) = Some exc ->
     upload cfg files env idx fpath s =
       ([Log (Msg_uploading idx (total_ files) (basename env fpath)
                (remote_path_of cfg env fpath));
         Log (Msg_upload_error idx (total_ files) exc)],
        Val tt (land env (land env (land env s))))) /\
  (forall idx fpath s t e s',
     upload cfg files env idx fpath s = (t, Exc e s') ->
     e = Break_reconnect_failed /\
     exists exc,
       connect_raises env (S (S (now s))) = Some exc /\
       t = [Log Msg_connection_lost; Log (Msg_reconnect_failed exc)]) /\
  (forall idx fpath fs s t s1,
     _stop (land env s) = false ->
     upload cfg files env idx fpath (land env s) = (t, Val tt s1) ->
     for_files cfg files env idx (fpath :: fs) s =
       (t ++ fst ((test_batch_pause cfg env idx ;;
                   inter_file_delay cfg files env idx ;;
                   for_files cfg files env (idx + 1) fs) s1),
        snd ((test_batch_pause cfg env idx ;;
              inter_file_delay cfg files env idx ;;
              for_files cfg files env (idx + 1) fs) s1))) /\
  (undisturbed env -> forall s, at_rest s ->
   exists t s',
     run cfg files env s = (t, (Loop_exhausted, s')) /\
     attempts t = numbered 1 files) /\
  (forall s exc,
     connect_raises env (now s) = Some exc ->
     initial_connect cfg env s =
       ([Log (Msg_connecting (host cfg) (port cfg));
         Log (Msg_connection_failed exc); Done false],
        Exc Return_connect_failed (count_connect (land env s)))) /\
  (forall idx fpath fs s t e s',
     iteration cfg files env idx fpath s = (t, Exc e s') ->
     for_files cfg files env idx (fpath :: fs) s = (t, Exc e s')) /\
  (forall s t e s',
     run cfg files env s = (t, (e, s')) ->
     (e = Return_connect_failed ->
      attempts t = [] /\
      exists t0 exc, t = t0 ++ [Log (Msg_connection_failed exc); Done false]) /\
     (e = Break_reconnect_failed \/ e = Break_reconnect_after_delay ->
      exists t0 exc, t = t0 ++ [Log (Msg_reconnect_failed exc); Done true])) /\
  (forall idx fpath s exc,
     path_exists env (now s) fpath = true ->
     active env (S (now s)) = false ->
     connect_raises env (S (S (now s))) = Some exc ->
     upload cfg files env idx fpath s =
       ([Log Msg_connection_lost; Log (Msg_reconnect_failed exc)],
        Exc Break_reconnect_failed
          (count_connect (land env (land env (land env s)))))) /\
  (forall idx fpath fs s t e s1,
     _stop (land env s) = false ->
     upload cfg files env idx fpath (land env s) = (t, Exc e s1) ->
     iteration cfg files env idx fpath s = (t, Exc e s1) /\
     for_files cfg files env idx (fpath :: fs) s = (t, Exc e s1)) /\
  (forall s exc,
     RECONNECT_THRESH <= delay_ cfg ->
     active env (now s) = false ->
     connect_raises env (S (now s)) = Some exc ->
     reconnect_after_delay cfg env s =
       ([Log Msg_reconnecting_after_delay; Log (Msg_reconnect_failed exc)],
        Exc Break_reconnect_after_delay
          (count_connect (land env (land env s))))) /\
  (forall idx fpath s t s1 tp s2 tw s3 tr e s4,
     _stop (land env s) = false ->
     upload cfg files env idx fpath (land env s) = (t, Val tt s1) ->
     test_batch_pause cfg env idx s1 = (tp, Val tt s2) ->
     delay_ cfg <> 0 -> idx < total_ files -> _stop (land env s2) = false ->
     _sleep env (delay_ cfg) "⏱  Next upload in" (idx + 1) (land env s2) =
       (tw, Val true s3) ->
     reconnect_after_delay cfg env s3 = (tr, Exc e s4) ->
     iteration cfg files env idx fpath s =
       (t ++ tp ++ tw ++ Timer EmptyString :: tr, Exc e s4)) /\
  (forall s t0 s0 t1 e s1,
     (initial_delay cfg env ;; initial_connect cfg env) s = (t0, Val tt s0) ->
     for_files cfg files env 1 files s0 = (t1, Exc e s1) ->
     e = Break_reconnect_failed \/ e = Break_reconnect_after_delay ->
     exists s', run cfg files env s = (t0 ++ t1 ++ [Done true], (e, s'))) /\
  (forall s t s1 exc,
     initial_delay cfg env s = (t, Val tt s1) ->
     connect_raises env (now s1) = Some exc \/
     (connect_raises env (now s1) = None /\
      normalize env (S (now s1)) = inl exc) ->
     exists s',
       run cfg files env s =
         (t ++ [Log (Msg_connecting (host cfg) (port cfg));
                Log (Msg_connection_failed exc); Done false],
          (Return_connect_failed, s'))).
Proof.
  split; [|split; [|split; [|split; [|split; [|split; [|split; [|split;
    [|split; [|split; [|split; [|split; [|split]]]]]]]]]]]].
  - intros idx fpath s Hf. rewrite upload_eq. cbv zeta. now rewrite Hf.
  - intros idx fpath s exc Hf Ha Hp. rewrite upload_eq. cbv zeta.
    rewrite Hf, land_now, Ha, Hp. reflexivity.
  - intros idx fpath s t e s' H. revert H. rewrite upload_eq. cbv zeta.
    destruct (path_exists env (now s) fpath); cbn [negb]; [|discriminate].
    destruct (active env (now (land env s))); [discriminate|].
    rewrite land_now.
    destruct (connect_raises env (S (S (now s)))) as [exc|]; [|discriminate].
    intros H. inversion H. split; [reflexivity|]. now exists exc.
  - intros idx fpath fs s t s1 Hs Hu. now apply for_files_after_upload.
  - intros Henv s Hs. now apply run_undisturbed.
  - intros s exc Hc. rewrite initial_connect_eq. now rewrite Hc.
  - intros idx fpath fs s t e s'. apply for_files_exit.
  - intros s t e s' H. split.
    + intros ->. split.
      * destruct (run_cases cfg files env s) as
          [(t0 & e0 & s0 & Hi & Hk & Hr)
          |[(t0 & s0 & t1 & s1 & Hi & Hl & Hr)
           |(t0 & s0 & t1 & r & e1 & s1 & Hi & Hl & Hf & Hr)]];
          rewrite Hr in H; inversion H; subst; clear H.
        -- pose proof (before_loop_spec cfg env unattempted_sequential
                         unattempted_init s) as H0.
           now rewrite Hi in H0.
        -- destruct r as [[] s2|e2 s2]; [now destruct Hf|].
           destruct Hf as (<- & _ & Hk & _). discriminate.
      * apply run_shape in H. cbn in H.
        destruct H as (t0 & exc & _ & ->). now exists t0, exc.
    + intros He. apply run_shape in H.
      destruct He as [-> | ->]; cbn in H;
        destruct H as (t1 & (t0 & exc & _ & ->) & ->); exists t0, exc;
        now rewrite <- app_assoc.
  - intros idx fpath s exc. apply upload_reconnect_failed.
  - intros idx fpath fs s t e s1 Hs Hu.
    pose proof (iteration_exit_in_upload cfg files env idx fpath s t e s1 Hs Hu)
      as Hi.
    split; [exact Hi|]. now apply for_files_exit.
  - intros s exc. apply reconnect_after_delay_failed.
  - intros idx fpath s t s1 tp s2 tw s3 tr e s4 Hs Hu Hp Hd Hi Hs2 Hw Hr.
    rewrite (iteration_after_pause cfg files env idx fpath s t s1 tp s2 Hs Hu Hp).
    rewrite (inter_file_delay_after_wait cfg files env idx s2 tw true s3
               Hd Hi Hs2 Hw).
    rewrite Hr. reflexivity.
  - intros s t0 s0 t1 e s1 Hi Hl He.
    apply (run_after_exit cfg files env s t0 s0 t1 e s1 Hi Hl).
    destruct He as [-> | ->]; discriminate.
  - intros s t s1 exc Hd Hc.
    destruct Hc as [Hc | [Hc Hn]]; eexists;
      apply (run_connect_failed cfg files env s t s1 _ _ _ Hd);
      rewrite initial_connect_eq, Hc; [|cbv zeta; rewrite Hn]; reflexivity.
Qed.

Lemma per_file_errors_continue_witness :
  exists t s',
    run plain ["a"; "b"; "c"] (faulty "b" "c" calm) init =
      (t, (Loop_exhausted, s')) /\
    attempts t = [1; 2; 3].
Proof.
  destruct (per_file_errors_continue plain ["a"; "b"; "c"] (faulty "b" "c" calm))
    as (_ & _ & _ & _ & H & _).
  apply H.
  - repeat split; intros n; try reflexivity. now exists "/home/user".
  - split; reflexivity.
Defined.

(** ** The countdown label *)

Lemma polls_app b1 : forall b2 p, polls (b1 ++ b2) p = polls b2 (polls b1 p).
Proof.
  induction b1 as [|[batch answer] b1 IH]; intros b2 p; [reflexivity|].
  cbn [app polls]. apply IH.
Qed.

Lemma last_timer_log_q t : last_timer (log_q t) = last_timer t.
Proof.
  unfold log_q. induction t as [|e t IH]; [reflexivity|].
  destruct e; cbn [filter on_log_q last_timer]; rewrite ?IH;
    now destruct (last_timer t).
Qed.

(** The poll that takes the last events of a run that has ended: without
    a timer item among them, it leaves the label empty. *)
Lemma last_poll_clears cfg files env s t e s' batches last answer p :
  run cfg files env s = (t, (e, s')) -> e <> Blocked ->
  List.concat (map fst batches) ++ last = t -> last <> [] ->
  last_timer last = None -> _log_q p = [] ->
  _timer_lbl (polls (batches ++ [(last, answer)]) p) = EmptyString.
Proof.
  intros Hrun Hb Ht Hlast Hno Hq.
  destruct (run_terminal cfg files env s t e s' Hrun Hb) as (t0 & _ & Heq).
  destruct (exists_last Hlast) as (l' & x & ->).
  rewrite Heq, app_assoc in Ht. apply app_last_inj in Ht.
  destruct Ht as [_ ->].
  rewrite polls_app. cbn [polls].
  destruct (polls_spec batches p Hq) as (Hq' & _).
  rewrite _poll_eq.
  cbn [_timer_lbl _log_q puts set_confirm_q set_log_q].
  rewrite Hq'. cbn [app].
  rewrite last_timer_log_q, Hno, done_log_q, existsb_app.
  cbn [existsb is_done]. now rewrite orb_true_r.
Qed.

(** C5, as the code has it.  A countdown wait that runs its full duration
    ends with an empty timer event, and [run] puts one more right after
    it.  A wait interrupted by a Stop request puts no empty timer event:
    [_sleep] returns at once, and [run] goes on to its terminal event (the
    log "Stopped during initial delay" and [("done", False)] for the
    initial delay, the [finally] block with [("done", True)] for an
    inter-file delay) without touching the countdown.  The label is then
    cleared by the GUI: the branch of [_poll] for the terminal event
    clears it, and it is empty after the poll that takes the terminal
    event off the queue when that poll takes no timer item with it. *)
Theorem clear_after_full_wait cfg files env seconds prefix total s :
  truthy prefix = true ->
  (exists j (b : bool) s',
    _sleep env seconds prefix total s =
      (countdown prefix total seconds 0 j ++ (if b then [Timer EmptyString] else []),
       Val b s') /\
    count is_clear (countdown prefix total seconds 0 j) = 0%nat /\
    (if b then j = Z.to_nat seconds
     else (j < Z.to_nat seconds)%nat /\ _stop s' = true) /\
    (seconds = start_delay_min cfg * 60 -> prefix = "⏳ Starting in" ->
     total = 0 -> 0 < seconds ->
     initial_delay cfg env s =
       if b
       then (Log (Msg_scheduled (start_delay_min cfg))
               :: (countdown prefix total seconds 0 j ++ [Timer EmptyString])
               ++ [Timer EmptyString], Val tt s')
       else (Log (Msg_scheduled (start_delay_min cfg))
               :: countdown prefix total seconds 0 j
               ++ [Log Msg_stopped_initial_delay; Done false],
             Exc Return_initial_delay s')) /\
    (forall idx s0,
       seconds = delay_ cfg -> prefix = "⏱  Next upload in" ->
       total = idx + 1 -> seconds <> 0 -> idx < total_ files ->
       _stop (land env s0) = false -> s = land env s0 ->
       inter_file_delay cfg files env idx s0 =
         if b
         then ((countdown prefix total seconds 0 j ++ [Timer EmptyString])
                 ++ Timer EmptyString :: fst (reconnect_after_delay cfg env s'),
               snd (reconnect_after_delay cfg env s'))
         else (countdown prefix total seconds 0 j, Exc Break_sleep s'))) /\
  (forall s0 t s1,
     initial_delay cfg env s0 = (t, Exc Return_initial_delay s1) ->
     run cfg files env s0 = (t, (Return_initial_delay, s1))) /\
  (forall s0 t0 s1 t1 s2,
     (initial_delay cfg env ;; initial_connect cfg env) s0 = (t0, Val tt s1) ->
     for_files cfg files env 1 files s1 = (t1, Exc Break_sleep s2) ->
     exists s3,
       run cfg files env s0 = (t0 ++ t1 ++ [Done true], (Break_sleep, s3))) /\
  (forall s0 t e s1 batches last answer p,
     run cfg files env s0 = (t, (e, s1)) -> e <> Blocked ->
     List.concat (map fst batches) ++ last = t -> last <> [] ->
     last_timer last = None -> _log_q p = [] ->
     _timer_lbl (polls (batches ++ [(last, answer)]) p) = EmptyString).
Proof.
  intros Hp. split; [|split; [|split]].
  - destruct (_sleep_run env seconds prefix total s Hp)
      as (j & b & s' & Hrun & _ & _ & _ & _ & Hb & _).
    exists j, b, s'. split; [exact Hrun|].
    split; [now apply countdown_not_clear|].
    split; [destruct b; intuition|]. split.
    + intros -> -> -> HD.
      rewrite (initial_delay_after_wait cfg env s _ b s' HD Hrun).
      destruct b; [reflexivity|]. now rewrite app_nil_r.
    + intros idx s0 -> -> -> Hd Hi Hs ->.
      rewrite (inter_file_delay_after_wait cfg files env idx s0 _ b s' Hd Hi Hs Hrun).
      destruct b; [reflexivity|]. now rewrite app_nil_r.
  - intros s0 t s1 Hd. apply run_at_return. now apply bind_run_exc.
  - intros s0 t0 s1 t1 s2 Hi Hl.
    apply (run_after_exit cfg files env s0 t0 s1 t1 _ s2 Hi Hl). discriminate.
  - intros s0 t e s1 batches last answer p.
    apply last_poll_clears.
Qed.

Lemma clear_after_full_wait_witness :
  (exists j (b : bool) s',
     _sleep calm 2 "Next" 3 init =
       (countdown "Next" 3 2 0 j ++ (if b then [Timer EmptyString] else []),
        Val b s') /\
     count is_clear (countdown "Next" 3 2 0 j) = 0%nat) /\
  _timer_lbl
    (polls [([Log (Msg_scheduled 1); Timer "⏳ Starting in  01m 00s"], true);
            ([Log Msg_stopped_initial_delay; Done false], true)]
       (set_buttons false true panel0)) = EmptyString.
Proof.
  destruct (clear_after_full_wait scheduled ["a"] (click_at 1 calm) 2 "Next" 3 init
              eq_refl) as (_ & _ & _ & Hpoll).
  destruct (clear_after_full_wait plain [] calm 2 "Next" 3 init eq_refl)
    as ((j & b & s' & H & H0 & _) & _).
  split; [exists j, b, s'; split; [exact H|exact H0]|].
  destruct (run scheduled ["a"] (click_at 1 calm) init) as [t [e s1]] eqn:E.
  apply (Hpoll init t e s1
           [([Log (Msg_scheduled 1); Timer "⏳ Starting in  01m 00s"], true)]
           [Log Msg_stopped_initial_delay; Done false] true
           (set_buttons false true panel0) E).
  - vm_compute in E. injection E as _ <- _. discriminate.
  - vm_compute in E. now injection E as <- _ _.
  - discriminate.
  - reflexivity.
  - reflexivity.
Defined.

(** ** The inter-file delay *)

(** A delay below zero passes the test [if delay]: [_sleep] runs with an
    empty [range], waits no second and shows no label, and the two
    clearing timer events are put. *)
Lemma inter_file_delay_negative cfg files env idx s :
  delay_ cfg < 0 -> idx < total_ files -> _stop (land env s) = false ->
  exists s',
    inter_file_delay cfg files env idx s =
      ([Timer EmptyString; Timer EmptyString], Val tt s') /\
    slept s' = slept s /\ connects s' = connects s.
Proof.
  intros Hd Hi Hs.
  destruct (_sleep_run env (delay_ cfg) "⏱  Next upload in" (idx + 1)
              (land env s) eq_refl)
    as (j & b & s1 & Hrun & Hsl & Hco & _ & _ & Hb & _).
  assert (Hz : Z.to_nat (delay_ cfg) = 0%nat) by lia.
  rewrite Hz in Hb.
  destruct b; [|lia]. destruct Hb as [-> _].
  assert (Hne : delay_ cfg <> 0) by lia.
  rewrite (inter_file_delay_after_wait cfg files env idx s _ true s1 Hne Hi Hs Hrun).
  rewrite reconnect_after_delay_eq.
  assert (Hth : (RECONNECT_THRESH <=? delay_ cfg) = false).
  { apply Z.leb_gt. unfold RECONNECT_THRESH. lia. }
  rewrite Hth. cbn [andb fst snd countdown app].
  exists s1. split; [reflexivity|].
  now rewrite Hsl, Hco, land_slept, land_connects, Nat.add_0_r.
Qed.

(** C8, as the code has it.  The test of line 149 is [if delay]: the
    countdown of the inter-file delay runs if and only if the delay is
    not zero, files remain and the flag is down when it is read; its
    labels carry the index of the next file.  A delay above zero waits;
    a delay below zero enters [_sleep] all the same, which waits no
    second and shows no label, and the two clearing timer events are all
    that is put.  When the wait has run to its end, [run] asks the
    session whether it is active only if the delay is at least
    [RECONNECT_THRESH]; if it is not active, [_connect] is called once:
    when it raises the iteration leaves the loop and the run ends with
    the failure log and [("done", True)], when it returns the iteration
    is over and the loop goes on.  The delay is the last step of an
    iteration whose upload and pause return. *)
Theorem inter_file_wait cfg files env idx s :
  (~ (delay_ cfg <> 0 /\ idx < total_ files /\ _stop (land env s) = false) ->
   exists s',
     inter_file_delay cfg files env idx s = ([], Val tt s') /\
     slept s' = slept s /\ connects s' = connects s) /\
  (delay_ cfg <> 0 -> idx < total_ files -> _stop (land env s) = false ->
   exists j (b : bool) s1,
     _sleep env (delay_ cfg) "⏱  Next upload in" (idx + 1) (land env s) =
       (countdown "⏱  Next upload in" (idx + 1) (delay_ cfg) 0 j
          ++ (if b then [Timer EmptyString] else []), Val b s1) /\
     slept s1 = (slept s + j)%nat /\
     (if b then j = Z.to_nat (delay_ cfg) else (j < Z.to_nat (delay_ cfg))%nat) /\
     inter_file_delay cfg files env idx s =
       if b
       then ((countdown "⏱  Next upload in" (idx + 1) (delay_ cfg) 0 j
                ++ [Timer EmptyString])
               ++ Timer EmptyString :: fst (reconnect_after_delay cfg env s1),
             snd (reconnect_after_delay cfg env s1))
       else (countdown "⏱  Next upload in" (idx + 1) (delay_ cfg) 0 j,
             Exc Break_sleep s1)) /\
  (delay_ cfg < 0 -> idx < total_ files -> _stop (land env s) = false ->
   exists s',
     inter_file_delay cfg files env idx s =
       ([Timer EmptyString; Timer EmptyString], Val tt s') /\
     slept s' = slept s /\ connects s' = connects s) /\
  (forall s1,
     (delay_ cfg < RECONNECT_THRESH \/ active env (now s1) = true ->
      exists s2,
        reconnect_after_delay cfg env s1 = ([], Val tt s2) /\
        connects s2 = connects s1) /\
     (RECONNECT_THRESH <= delay_ cfg -> active env (now s1) = false ->
      exists s2,
        connects s2 = S (connects s1) /\
        reconnect_after_delay cfg env s1 =
          match connect_raises env (S (now s1)) with
          | None =>
              ([Log Msg_reconnecting_after_delay; Log Msg_reconnected],
               Val tt (set_session (S (now s1)) s2))
          | Some exc =>
              ([Log Msg_reconnecting_after_delay; Log (Msg_reconnect_failed exc)],
               Exc Break_reconnect_after_delay s2)
          end)) /\
  (forall fpath s0 t s1 tp s2,
     _stop (land env s0) = false ->
     upload cfg files env idx fpath (land env s0) = (t, Val tt s1) ->
     test_batch_pause cfg env idx s1 = (tp, Val tt s2) ->
     iteration cfg files env idx fpath s0 =
       (t ++ tp ++ fst (inter_file_delay cfg files env idx s2),
        snd (inter_file_delay cfg files env idx s2))) /\
  (forall fpath fs s0 t e s',
     iteration cfg files env idx fpath s0 = (t, Exc e s') ->
     for_files cfg files env idx (fpath :: fs) s0 = (t, Exc e s')) /\
  (forall fpath fs s0 t s',
     iteration cfg files env idx fpath s0 = (t, Val tt s') ->
     for_files cfg files env idx (fpath :: fs) s0 =
       (t ++ fst (for_files cfg files env (idx + 1) fs s'),
        snd (for_files cfg files env (idx + 1) fs s'))) /\
  (forall s0 t0 s1 t1 s2,
     (initial_delay cfg env ;; initial_connect cfg env) s0 = (t0, Val tt s1) ->
     for_files cfg files env 1 files s1 =
       (t1, Exc Break_reconnect_after_delay s2) ->
     exists s3,
       run cfg files env s0 =
         (t0 ++ t1 ++ [Done true], (Break_reconnect_after_delay, s3))) /\
  (idx + 1 <> 0 -> forall remaining,
     countdown_text "⏱  Next upload in" remaining (idx + 1) =
       ("⏱  Next upload in" ++ "  " ++ fmt02d (remaining / 60) ++ "m "
          ++ fmt02d (remaining mod 60) ++ "s"
          ++ "  [" ++ str (idx + 1) ++ "]")%string).
Proof.
  split; [|split; [|split; [|split; [|split; [|split; [|split; [|split]]]]]]].
  - intros Hgate.
    destruct (Z.eq_dec (delay_ cfg) 0) as [E|E].
    { exists s. now rewrite inter_file_delay_skipped by now left. }
    destruct (Z.le_gt_cases (total_ files) idx) as [Hi|Hi].
    { exists s. now rewrite inter_file_delay_skipped by now right. }
    destruct (_stop (land env s)) eqn:Hs.
    + exists (land env s).
      rewrite (inter_file_delay_stopped cfg files env idx s E) by (lia || easy).
      now rewrite land_slept, land_connects.
    + exfalso. apply Hgate. repeat split; lia.
  - intros Hne Hi Hs.
    destruct (_sleep_run env (delay_ cfg) "⏱  Next upload in" (idx + 1)
                (land env s) eq_refl)
      as (j & b & s1 & Hrun & Hsl & _ & _ & _ & Hb & _).
    exists j, b, s1. split; [exact Hrun|]. split; [now rewrite Hsl, land_slept|].
    split; [destruct b; intuition|].
    rewrite (inter_file_delay_after_wait cfg files env idx s _ b s1 Hne Hi Hs Hrun).
    destruct b; [reflexivity|]. now rewrite app_nil_r.
  - apply inter_file_delay_negative.
  - intros s1. split.
    + intros H. rewrite reconnect_after_delay_eq.
      destruct (Z.leb_spec RECONNECT_THRESH (delay_ cfg)) as [Hth|Hth].
      * destruct H as [H|H]; [lia|]. rewrite H. cbn [negb andb].
        exists (land env s1). now rewrite land_connects.
      * cbn [andb]. now exists s1.
    + intros Hth Ha. rewrite reconnect_after_delay_eq.
      rewrite (proj2 (Z.leb_le _ _) Hth), Ha. cbn [negb andb].
      exists (count_connect (land env (land env s1))). split.
      * cbn [connects count_connect]. now rewrite !land_connects.
      * destruct (connect_raises env (S (now s1))); reflexivity.
  - intros fpath s0 t s1 tp s2. apply iteration_after_pause.
  - intros fpath fs s0 t e s'. apply for_files_exit.
  - intros fpath fs s0 t s'. apply for_files_next.
  - intros s0 t0 s1 t1 s2 Hi Hl.
    apply (run_after_exit cfg files env s0 t0 s1 t1 _ s2 Hi Hl). discriminate.
  - intros Hi remaining. unfold countdown_text.
    now rewrite (proj2 (Z.eqb_neq _ _) Hi).
Qed.

Lemma inter_file_wait_witness :
  exists j (b : bool) s1,
    _sleep calm 2 "⏱  Next upload in" (1 + 1) (land calm init) =
      (countdown "⏱  Next upload in" (1 + 1) 2 0 j
         ++ (if b then [Timer EmptyString] else []), Val b s1) /\
    slept s1 = (slept init + j)%nat.
Proof.
  destruct (inter_file_wait paced ["a"; "b"; "c"] calm 1 init) as (_ & H & _).
  destruct H as (j & b & s1 & H1 & H2 & _); [discriminate|reflexivity..|].
  exists j, b, s1. split; [exact H1|exact H2].
Defined.

(** C8 as stated fails: the entry of the delay holds "-5".  The delay is
    not positive, a file remains and Stop is not pressed; line 149 lets
    the delay through, [_sleep] is called and the two clearing timer
    events are put between the two files. *)
Lemma negative_delay_enters_the_wait :
  convert int_signed (_get_cfg strip_blanks office negative_delay) 0 =
    Some backwards /\
  delay_ backwards = -5 /\
  1 < total_ ["a"; "b"] /\
  _stop (land calm init) = false /\
  _sleep calm (delay_ backwards) "⏱  Next upload in" (1 + 1) (land calm init) =
    ([Timer EmptyString],
     Val true
       {| _stop := false; reply_q := []; now := 1%nat; slept := 0%nat;
          transport := None; connects := 0%nat; closed := false |}) /\
  inter_file_delay backwards ["a"; "b"] calm 1 init =
    ([Timer EmptyString; Timer EmptyString],
     Val tt
       {| _stop := false; reply_q := []; now := 1%nat; slept := 0%nat;
          transport := None; connects := 0%nat; closed := false |}) /\
  fst (run backwards ["a"; "b"] calm init) =
    [Log (Msg_connecting "example.org" "22"); Log (Msg_connected "/home/user");
     Log (Msg_uploading 1 2 "a" "upload/a"); Log (Msg_upload_done 1 2);
     Timer EmptyString; Timer EmptyString;
     Log (Msg_uploading 2 2 "b" "upload/b"); Log (Msg_upload_done 2 2);
     Done true].
Proof. vm_compute. repeat split. Qed.

(** ** A delay that [int] rejects *)

(** C6, on the code: a request on which [run] puts no terminal event.
    The entry of the delay holds "abc", and [_start] lets it through: it
    converts the start delay only.  The worker connects, then
    [int(cfg["delay"])] raises outside every [try]: the thread ends with
    no terminal event on the queue, the session is left open, and the
    window, which enables Start again on that event only, keeps Start
    disabled. *)
Lemma unconverted_delay_puts_no_done :
  _start strip_blanks int_digits false office unreadable_delay
      (_add_files ["a.csv"] files0) panel0 =
    (Worker (_get_cfg strip_blanks office unreadable_delay) ["a.csv"],
     set_buttons false true panel0) /\
  run_raw int_digits (_get_cfg strip_blanks office unreadable_delay)
      ["a.csv"] calm init =
    ([Log (Msg_connecting "example.org" "22"); Log (Msg_connected "/home/user")],
     (Died,
      {| _stop := false; reply_q := []; now := 2%nat; slept := 0%nat;
         transport := Some 0%nat; connects := 1%nat; closed := false |})) /\
  count is_done
    (fst (run_raw int_digits (_get_cfg strip_blanks office unreadable_delay)
            ["a.csv"] calm init)) = 0%nat /\
  _start_btn
    (polls [(fst (run_raw int_digits
                    (_get_cfg strip_blanks office unreadable_delay)
                    ["a.csv"] calm init), true)]
       (set_buttons false true panel0)) = false.
Proof. vm_compute. repeat split. Qed.
